(** * Adaptive Learning Ecosystem: the shared auth / rate-limit / throttling core

    A shallow embedding of [shared/auth_middleware.py],
    [shared/rate_limiting_middleware.py] and [shared/advanced_throttling.py].

    Conventions of the embedding:
    - Python [float]s are exact rationals ([Q]); [int]s are [Z].
    - [time.time()] / [datetime.now()] is an explicit argument [now] (seconds
      since the epoch); one call of a modelled function happens at one instant.
    - A Python function that may raise returns a [Py.result]; a method that
      mutates [self] returns the new [self] next to its result.
    - The Redis server is the finite map [Redis.db] with per-key expiry. *)

From Stdlib Require Import ZArith QArith Qround String Ascii List Lia Lqa Bool Sorted.
From stdpp Require Import base option gmap strings pretty.

(** ** Python values and exceptions *)

Module Py.

Inductive exn :=
| RedisError
| ValueError
| AttributeError
| KeyError
| ValidationError
| OperationalError
| ExpiredSignatureError
| InvalidTokenError
| HTTPException (status_code : Z) (detail : string).

Inductive result (A : Type) :=
| Ok (a : A)
| Raise (e : exn).
Arguments Ok {A} a.
Arguments Raise {A} e.

(** [a < b] on floats. *)
Definition Qltb (a b : Q) : bool := (Qnum a * QDen b <? Qnum b * QDen a)%Z.

(** [int(x)] on a float: truncation towards zero. *)
Definition py_int (q : Q) : Z := Z.quot (Qnum q) (QDen q).

(** [max(a, b)] and [min(a, b)]: the second argument wins only when it is
    strictly better. *)
Definition py_max (a b : Q) : Q := if Qltb a b then b else a.
Definition py_min (a b : Q) : Q := if Qltb b a then b else a.

(** Truthiness of a [str] and of an [Optional[str]]. *)
Definition truthy (s : string) : bool := negb (String.eqb s "").
Definition truthy_opt (s : option string) : bool :=
  match s with Some s => truthy s | None => false end.

(** [x in xs] for a list of strings. *)
Definition str_in (x : string) (xs : list string) : bool :=
  existsb (String.eqb x) xs.

End Py.

(** ** The Redis server *)

Module Redis.
Import Py.

(** What a Redis string holds, abstracted by the Python value that was
    written into it: [str(int)], [repr(float)], free text, or [json.dumps]
    of an object (an ISO timestamp inside it is kept as the number it
    renders).  [SText] stands for text that is not a number. *)
Inductive jval :=
| JStr (s : string)
| JNum (q : Q)
| JNull
| JObj (fields : list (string * string)).

Inductive scalar :=
| SInt (z : Z)
| SFloat (q : Q)
| SText (s : string)
| SJson (fields : list (string * jval)).

Inductive rvalue :=
| RStr (v : scalar)
| RHash (h : gmap string scalar)
| RList (l : list scalar).

Record entry := mk_entry { value : rvalue; expiry : option Q }.

Record conn := mk_conn { alive : bool; data : gmap string entry }.

(** [int(s)], [float(s)] and [bool(s)] of a value read back from Redis. *)
Definition int_of (v : scalar) : result Z :=
  match v with SInt z => Ok z | _ => Raise ValueError end.

Definition float_of (v : scalar) : result Q :=
  match v with
  | SInt z => Ok (inject_Z z)
  | SFloat q => Ok q
  | _ => Raise ValueError
  end.

Definition nonempty (v : scalar) : bool :=
  match v with SText s => truthy s | _ => true end.

Definition is_live (now : Q) (e : entry) : bool :=
  match expiry e with None => true | Some t => Qltb now t end.

(** The entry under [k], unless its time to live has run out. *)
Definition peek (d : gmap string entry) (k : string) (now : Q) : option entry :=
  match d !! k with
  | Some e => if is_live now e then Some e else None
  | None => None
  end.

Definition get (d : gmap string entry) (k : string) (now : Q)
  : result (option scalar) :=
  match peek d k now with
  | None => Ok None
  | Some e => match value e with RStr v => Ok (Some v) | _ => Raise RedisError end
  end.

(** SETEX key ttl v: Redis refuses a time to live that is not positive
    (a [ResponseError], which is a [RedisError]). *)
Definition setex (d : gmap string entry) (k : string) (ttl : Q) (v : scalar)
  (now : Q) : result unit * gmap string entry :=
  if Qltb 0 ttl
  then (Ok tt, <[k := mk_entry (RStr v) (Some (now + ttl)%Q)]> d)
  else (Raise RedisError, d).

Definition delete (d : gmap string entry) (k : string) : gmap string entry :=
  base.delete k d.

(** INCR: a missing key counts from 0 and gets no expiry. *)
Definition incr (d : gmap string entry) (k : string) (now : Q)
  : result Z * gmap string entry :=
  match peek d k now with
  | None => (Ok 1%Z, <[k := mk_entry (RStr (SInt 1)) None]> d)
  | Some e =>
      match value e with
      | RStr (SInt z) =>
          (Ok (z + 1)%Z, <[k := mk_entry (RStr (SInt (z + 1))) (expiry e)]> d)
      | _ => (Raise RedisError, d)
      end
  end.

(** EXPIRE: no effect on a missing key. *)
Definition expire (d : gmap string entry) (k : string) (ttl : Q) (now : Q)
  : gmap string entry :=
  match peek d k now with
  | Some e => <[k := mk_entry (value e) (Some (now + ttl)%Q)]> d
  | None => d
  end.

Definition hgetall (d : gmap string entry) (k : string) (now : Q)
  : result (gmap string scalar) :=
  match peek d k now with
  | None => Ok ∅
  | Some e => match value e with RHash h => Ok h | _ => Raise RedisError end
  end.

Definition hget (d : gmap string entry) (k f : string) (now : Q)
  : result (option scalar) :=
  match hgetall d k now with
  | Ok h => Ok (h !! f)
  | Raise e => Raise e
  end.

Definition set_fields (h : gmap string scalar) (fields : list (string * scalar))
  : gmap string scalar :=
  fold_left (fun h fv => <[fst fv := snd fv]> h) fields h.

(** HSET key f1 v1 f2 v2 ...: keeps the expiry of a live hash. *)
Definition hset (d : gmap string entry) (k : string)
  (fields : list (string * scalar)) (now : Q)
  : result unit * gmap string entry :=
  match peek d k now with
  | None => (Ok tt, <[k := mk_entry (RHash (set_fields ∅ fields)) None]> d)
  | Some e =>
      match value e with
      | RHash h => (Ok tt, <[k := mk_entry (RHash (set_fields h fields)) (expiry e)]> d)
      | _ => (Raise RedisError, d)
      end
  end.

Definition hincrby (d : gmap string entry) (k f : string) (delta : Z) (now : Q)
  : result Z * gmap string entry :=
  match peek d k now with
  | None => (Ok delta, <[k := mk_entry (RHash {[f := SInt delta]}) None]> d)
  | Some e =>
      match value e with
      | RHash h =>
          match h !! f with
          | None => (Ok delta, <[k := mk_entry (RHash (<[f := SInt delta]> h)) (expiry e)]> d)
          | Some (SInt z) =>
              (Ok (z + delta)%Z,
               <[k := mk_entry (RHash (<[f := SInt (z + delta)]> h)) (expiry e)]> d)
          | Some _ => (Raise RedisError, d)
          end
      | _ => (Raise RedisError, d)
      end
  end.

(** KEYS prefix* *)
Definition keys (d : gmap string entry) (pre : string) (now : Q) : list string :=
  map fst (List.filter (fun ke => String.prefix pre (fst ke) && is_live now (snd ke))
                       (map_to_list d)).

(** LRANGE key 0 stop *)
Definition lrange0 (d : gmap string entry) (k : string) (stop : nat) (now : Q)
  : result (list scalar) :=
  match peek d k now with
  | None => Ok []
  | Some e => match value e with RList l => Ok (firstn (S stop) l) | _ => Raise RedisError end
  end.

(** EXISTS key *)
Definition exists_key (d : gmap string entry) (k : string) (now : Q) : bool :=
  match peek d k now with Some _ => true | None => false end.

(** DEL key1 key2 ... *)
Definition delete_all (d : gmap string entry) (ks : list string) : gmap string entry :=
  fold_left delete ks d.

(** LPUSH key v *)
Definition lpush (d : gmap string entry) (k : string) (v : scalar) (now : Q)
  : result Z * gmap string entry :=
  match peek d k now with
  | None => (Ok 1%Z, <[k := mk_entry (RList [v]) None]> d)
  | Some e =>
      match value e with
      | RList l =>
          (Ok (Z.of_nat (S (length l))), <[k := mk_entry (RList (v :: l)) (expiry e)]> d)
      | _ => (Raise RedisError, d)
      end
  end.

(** LTRIM key 0 stop *)
Definition ltrim0 (d : gmap string entry) (k : string) (stop : nat) (now : Q)
  : result unit * gmap string entry :=
  match peek d k now with
  | None => (Ok tt, d)
  | Some e =>
      match value e with
      | RList l => (Ok tt, <[k := mk_entry (RList (firstn (S stop) l)) (expiry e)]> d)
      | _ => (Raise RedisError, d)
      end
  end.

(** How Redis prints a float it computed: a whole number without fraction. *)
Definition print_float (q : Q) : scalar :=
  if Pos.eqb (Qden (Qred q)) 1 then SInt (Qnum (Qred q)) else SFloat q.

(** HINCRBYFLOAT key f delta *)
Definition hincrbyfloat (d : gmap string entry) (k f : string) (delta : Q) (now : Q)
  : result Q * gmap string entry :=
  match peek d k now with
  | None => (Ok delta, <[k := mk_entry (RHash {[f := print_float delta]}) None]> d)
  | Some e =>
      match value e with
      | RHash h =>
          match h !! f with
          | None =>
              (Ok delta,
               <[k := mk_entry (RHash (<[f := print_float delta]> h)) (expiry e)]> d)
          | Some v =>
              match float_of v with
              | Ok q =>
                  (Ok (q + delta)%Q,
                   <[k := mk_entry (RHash (<[f := print_float (q + delta)]> h)) (expiry e)]> d)
              | Raise _ => (Raise RedisError, d)
              end
          end
      | _ => (Raise RedisError, d)
      end
  end.

(** A pipeline is the list of the commands queued on it. *)
Inductive command :=
| LPUSH (k : string) (v : scalar)
| LTRIM0 (k : string) (stop : nat)
| INCR (k : string)
| EXPIRE (k : string) (ttl : Q)
| HINCRBY (k f : string) (delta : Z)
| HINCRBYFLOAT (k f : string) (delta : Q).

Definition command_key (c : command) : string :=
  match c with
  | LPUSH k _ | LTRIM0 k _ | INCR k | EXPIRE k _ | HINCRBY k _ _ | HINCRBYFLOAT k _ _ => k
  end.

Definition refused {A : Type} (r : result A) : bool :=
  match r with Raise _ => true | Ok _ => false end.

(** One queued command: whether the server refused it, and the data after. *)
Definition run (d : gmap string entry) (c : command) (now : Q)
  : bool * gmap string entry :=
  match c with
  | LPUSH k v => let '(r, d) := lpush d k v now in (refused r, d)
  | LTRIM0 k stop => let '(r, d) := ltrim0 d k stop now in (refused r, d)
  | INCR k => let '(r, d) := incr d k now in (refused r, d)
  | EXPIRE k ttl => (false, expire d k ttl now)
  | HINCRBY k f delta => let '(r, d) := hincrby d k f delta now in (refused r, d)
  | HINCRBYFLOAT k f delta => let '(r, d) := hincrbyfloat d k f delta now in (refused r, d)
  end.

(** pipe.execute(): the server runs every queued command, a refused one
    changing nothing; the client raises afterwards if one was refused. *)
Fixpoint execute (d : gmap string entry) (pipe : list command) (now : Q)
  : result unit * gmap string entry :=
  match pipe with
  | [] => (Ok tt, d)
  | c :: pipe =>
      let '(bad, d1) := run d c now in
      let '(r, d2) := execute d1 pipe now in
      (if bad then Raise RedisError else r, d2)
  end.

End Redis.

(** ** shared/auth_middleware.py *)

Module Auth.
Import Py.
Local Open Scope Z_scope.

Module TenantConfig.
Record t := mk {
  tenant_id : string;
  name : string;
  domain : string;
  subscription_plan : string;
  max_users : Z;
  features : list string;
  rate_limits : list (string * Z);
  security_settings : list (string * string);
  created_at : Q;
  is_active : bool
}.
End TenantConfig.

Module UserClaims.
Record t := mk {
  user_id : string;
  email : string;
  role : string;
  tenant_id : string;
  tenant_name : string;
  permissions : list string;
  session_id : string;
  exp : Z;
  iat : Z
}.
End UserClaims.

(** ** PyJWT, symbolically.  A token is either a payload signed under a key
    with an algorithm, or text that does not parse as a JWT; a signature
    verifies exactly under the key it was made with. *)
Inductive jwt_value :=
| JS (s : string)
| JI (z : Z)
| JL (l : list string).

Inductive jwt :=
| Signed (payload : gmap string jwt_value) (key algorithm : string)
| Malformed (raw : string).

Definition jwt_encode (payload : gmap string jwt_value) (key algorithm : string) : jwt :=
  Signed payload key algorithm.

(** [jwt.decode(token, key, algorithms=...)]: algorithm and signature, then
    the registered claims [exp] (expired once [exp <= now]) and [iat]
    (refused while [iat > now]). *)
Definition jwt_decode (token : jwt) (key : string) (algorithms : list string) (now : Q)
  : result (gmap string jwt_value) :=
  match token with
  | Malformed _ => Raise InvalidTokenError
  | Signed payload k a =>
      if negb (str_in a algorithms) then Raise InvalidTokenError
      else if negb (String.eqb k key) then Raise InvalidTokenError
      else
        match payload !! "exp" with
        | Some (JI exp) =>
            if negb (Qltb now (inject_Z exp)) then Raise ExpiredSignatureError
            else
              match payload !! "iat" with
              | Some (JI iat) =>
                  if Qltb now (inject_Z iat) then Raise InvalidTokenError else Ok payload
              | Some _ => Raise InvalidTokenError
              | None => Ok payload
              end
        | Some _ => Raise InvalidTokenError
        | None =>
            match payload !! "iat" with
            | Some (JI iat) =>
                if Qltb now (inject_Z iat) then Raise InvalidTokenError else Ok payload
            | Some _ => Raise InvalidTokenError
            | None => Ok payload
            end
        end
  end.

(** [claims.dict()] *)
Definition claims_dict (c : UserClaims.t) : gmap string jwt_value :=
  <["user_id" := JS (UserClaims.user_id c)]>
  (<["email" := JS (UserClaims.email c)]>
  (<["role" := JS (UserClaims.role c)]>
  (<["tenant_id" := JS (UserClaims.tenant_id c)]>
  (<["tenant_name" := JS (UserClaims.tenant_name c)]>
  (<["permissions" := JL (UserClaims.permissions c)]>
  (<["session_id" := JS (UserClaims.session_id c)]>
  (<["exp" := JI (UserClaims.exp c)]>
  (<["iat" := JI (UserClaims.iat c)]> ∅)))))))).

(** [UserClaims] from the payload's keys as keyword arguments: every field
    but [permissions] is required and must have its type; unknown keys are
    ignored. *)
Definition UserClaims_of (payload : gmap string jwt_value) : result UserClaims.t :=
  match payload !! "user_id", payload !! "email", payload !! "role",
        payload !! "tenant_id", payload !! "tenant_name", payload !! "session_id",
        payload !! "exp", payload !! "iat" with
  | Some (JS user_id), Some (JS email), Some (JS role), Some (JS tenant_id),
    Some (JS tenant_name), Some (JS session_id), Some (JI exp), Some (JI iat) =>
      match payload !! "permissions" with
      | Some (JL permissions) =>
          Ok (UserClaims.mk user_id email role tenant_id tenant_name permissions
                session_id exp iat)
      | None =>
          Ok (UserClaims.mk user_id email role tenant_id tenant_name []
                session_id exp iat)
      | Some _ => Raise ValidationError
      end
  | _, _, _, _, _, _, _, _ => Raise ValidationError
  end.

Record AuthenticationResult := mk_result {
  success : bool;
  user_claims : option UserClaims.t;
  token : option jwt;
  refresh_token : option jwt;
  error_message : option string;
  rate_limit_remaining : option Z
}.

Definition failure (msg : string) : AuthenticationResult :=
  mk_result false None None None (Some msg) None.

Record SecurityEvent := mk_event {
  event_type : string;
  event_user_id : option string;
  event_tenant_id : option string;
  ip_address : string;
  user_agent : string;
  details : list (string * string);
  event_timestamp : Q;
  severity : string
}.

(** ** The SQLite tables, as far as the queries read them. *)

Module UserRow.
Record t := mk {
  id : string;
  email : string;
  password_hash : string;
  first_name : string;
  last_name : string;
  role : string;
  institution_id : option string;
  is_active : option Z
}.
End UserRow.

(** The [settings] column by what [json.loads] makes of it, and the
    [created_at] column by what [datetime.fromisoformat] makes of it. *)
Inductive settings_column :=
| SettingsNull
| SettingsObject (features : option (list string))
                 (rate_limits : option (list (string * Z)))
                 (security : option (list (string * string)))
| SettingsInvalid.

Module InstitutionRow.
Record t := mk {
  id : string;
  name : string;
  domain : string;
  subscription_plan : option string;
  max_students : option Z;
  settings : settings_column;
  created_at : option Q;
  is_active : option Z
}.
End InstitutionRow.

Record database := mk_db {
  reachable : bool;
  users : list UserRow.t;
  institutions : list InstitutionRow.t
}.

(** [is_active = 1] and [(is_active IS NULL OR is_active = 1)] *)
Definition is_one (v : option Z) : bool :=
  match v with Some 1 => true | _ => false end.
Definition null_or_one (v : option Z) : bool :=
  match v with None => true | Some 1 => true | _ => false end.

Definition opt_eqb (a : option string) (b : string) : bool :=
  match a with Some a => String.eqb a b | None => false end.

(** [MultiTenantAuthService].  [entropy] and [drawn] stand for [uuid.uuid4]:
    the n-th identifier drawn is [entropy n]. *)
Record service := mk_service {
  db : database;
  redis_client : option Redis.conn;
  jwt_secret : string;
  jwt_algorithm : string;
  access_token_expire_minutes : Z;
  refresh_token_expire_days : Z;
  tenant_cache : gmap string TenantConfig.t;
  permission_cache : gmap string (list string);
  security_log : list SecurityEvent;
  entropy : nat -> string;
  drawn : nat
}.

Definition with_db (self : service) (d : database) : service :=
  mk_service d (redis_client self) (jwt_secret self) (jwt_algorithm self)
    (access_token_expire_minutes self) (refresh_token_expire_days self)
    (tenant_cache self) (permission_cache self) (security_log self)
    (entropy self) (drawn self).

Definition with_redis (self : service) (d : gmap string Redis.entry) : service :=
  mk_service (db self)
    (option_map (fun c => Redis.mk_conn (Redis.alive c) d) (redis_client self))
    (jwt_secret self) (jwt_algorithm self)
    (access_token_expire_minutes self) (refresh_token_expire_days self)
    (tenant_cache self) (permission_cache self) (security_log self)
    (entropy self) (drawn self).

(** The service with [client] for Redis client. *)
Definition with_client (self : service) (client : option Redis.conn) : service :=
  mk_service (db self) client (jwt_secret self) (jwt_algorithm self)
    (access_token_expire_minutes self) (refresh_token_expire_days self)
    (tenant_cache self) (permission_cache self) (security_log self)
    (entropy self) (drawn self).

Definition with_tenant_cache (self : service) (c : gmap string TenantConfig.t) : service :=
  mk_service (db self) (redis_client self) (jwt_secret self) (jwt_algorithm self)
    (access_token_expire_minutes self) (refresh_token_expire_days self)
    c (permission_cache self) (security_log self) (entropy self) (drawn self).

Definition with_permission_cache (self : service) (c : gmap string (list string)) : service :=
  mk_service (db self) (redis_client self) (jwt_secret self) (jwt_algorithm self)
    (access_token_expire_minutes self) (refresh_token_expire_days self)
    (tenant_cache self) c (security_log self) (entropy self) (drawn self).

Definition with_log (self : service) (l : list SecurityEvent) : service :=
  mk_service (db self) (redis_client self) (jwt_secret self) (jwt_algorithm self)
    (access_token_expire_minutes self) (refresh_token_expire_days self)
    (tenant_cache self) (permission_cache self) l (entropy self) (drawn self).

(** [str(uuid.uuid4())] *)
Definition uuid4 (self : service) : string * service :=
  (entropy self (drawn self),
   mk_service (db self) (redis_client self) (jwt_secret self) (jwt_algorithm self)
     (access_token_expire_minutes self) (refresh_token_expire_days self)
     (tenant_cache self) (permission_cache self) (security_log self)
     (entropy self) (S (drawn self))).

(** The [TenantConfig(...)] built from a row; an exception on the way
    ([json.loads], [fromisoformat], validation) gives [None]. *)
Definition tenant_config_of_row (row : InstitutionRow.t) : option TenantConfig.t :=
  match InstitutionRow.settings row, InstitutionRow.subscription_plan row,
        InstitutionRow.max_students row, InstitutionRow.created_at row with
  | SettingsInvalid, _, _, _ => None
  | s, Some plan, Some max_students, Some created =>
      let '(f, r, sec) :=
        match s with
        | SettingsObject f r sec => (f, r, sec)
        | _ => (None, None, None)
        end in
      Some (TenantConfig.mk (InstitutionRow.id row) (InstitutionRow.name row)
              (InstitutionRow.domain row) plan max_students
              (default ["basic_learning"; "progress_tracking"] f)
              (default [("api_calls_per_minute", 1000); ("ai_requests_per_hour", 100)] r)
              (default [("require_2fa", "False"); ("password_policy", "standard");
                        ("session_timeout_minutes", "60")] sec)
              created
              (null_or_one (InstitutionRow.is_active row)))
  | _, _, _, _ => None
  end.

(** get_tenant_config *)
Definition get_tenant_config (self : service) (tenant_id : string)
  : option TenantConfig.t * service :=
  match tenant_cache self !! tenant_id with
  | Some config => (Some config, self)
  | None =>
      if negb (reachable (db self)) then (None, self) else
      match List.find (fun r => String.eqb (InstitutionRow.id r) tenant_id)
                      (institutions (db self)) with
      | Some row =>
          match tenant_config_of_row row with
          | Some config =>
              (Some config,
               with_tenant_cache self (<[tenant_id := config]> (tenant_cache self)))
          | None => (None, self)
          end
      | None => (None, self)
      end
  end.

(** get_tenant_by_domain *)
Definition get_tenant_by_domain (self : service) (domain : string)
  : option TenantConfig.t * service :=
  if negb (reachable (db self)) then (None, self) else
  match List.find (fun r => String.eqb (InstitutionRow.domain r) domain
                            && null_or_one (InstitutionRow.is_active r))
                  (institutions (db self)) with
  | Some row => get_tenant_config self (InstitutionRow.id row)
  | None => (None, self)
  end.

(** _get_user_info *)
Definition _get_user_info (self : service) (user_id tenant_id : string)
  : option UserRow.t :=
  if negb (reachable (db self)) then None else
  List.find (fun r => String.eqb (UserRow.id r) user_id
                      && opt_eqb (UserRow.institution_id r) tenant_id
                      && is_one (UserRow.is_active r))
            (users (db self)).

Definition base_permissions (role : string) : option (list string) :=
  if String.eqb role "student" then
    Some ["course:read"; "course:enroll"; "progress:read";
          "assessment:take"; "content:view"; "profile:edit"]
  else if String.eqb role "instructor" then
    Some ["course:read"; "course:create"; "course:edit"; "course:delete";
          "content:create"; "content:edit"; "assessment:create";
          "student:view"; "analytics:view"]
  else if String.eqb role "admin" then
    Some ["course:*"; "user:*"; "content:*"; "assessment:*";
          "analytics:*"; "system:configure"]
  else if String.eqb role "institution_admin" then
    Some ["tenant:manage"; "user:manage"; "course:manage";
          "analytics:full"; "billing:manage"; "security:manage"]
  else None.

(** _get_user_permissions *)
Definition _get_user_permissions (self : service) (user_id role tenant_id : string)
  : list string * service :=
  let cache_key := user_id +:+ ":" +:+ tenant_id +:+ ":" +:+ role in
  match permission_cache self !! cache_key with
  | Some permissions => (permissions, self)
  | None =>
      let permissions := default ["course:read"] (base_permissions role) in
      (permissions,
       with_permission_cache self (<[cache_key := permissions]> (permission_cache self)))
  end.

Definition session_key (session_id : string) : string := "auth:session:" +:+ session_id.

(** The claims [create_access_token] builds and the token it signs. *)
Definition issue (self : service) (claims : UserClaims.t) : jwt :=
  jwt_encode (claims_dict claims) (jwt_secret self) (jwt_algorithm self).

(** create_access_token *)
Definition create_access_token (self : service) (user_id tenant_id : string) (now : Q)
  : result (jwt * UserClaims.t) * service :=
  match _get_user_info self user_id tenant_id with
  | None => (Raise (HTTPException 404 "User not found"), self)
  | Some user_info =>
      let '(tenant_config, self1) := get_tenant_config self tenant_id in
      match tenant_config with
      | None => (Raise (HTTPException 404 "Invalid or inactive tenant"), self1)
      | Some tenant_config =>
          if negb (TenantConfig.is_active tenant_config)
          then (Raise (HTTPException 404 "Invalid or inactive tenant"), self1)
          else
            let '(permissions, self2) :=
              _get_user_permissions self1 user_id (UserRow.role user_info) tenant_id in
            let '(session_id, self3) := uuid4 self2 in
            let expires := (now + inject_Z (access_token_expire_minutes self * 60))%Q in
            let claims :=
              UserClaims.mk user_id (UserRow.email user_info) (UserRow.role user_info)
                tenant_id (TenantConfig.name tenant_config) permissions session_id
                (py_int expires) (py_int now) in
            let token := issue self claims in
            match redis_client self3 with
            | Some c =>
                if Redis.alive c then
                  let session_data :=
                    Redis.SJson [("user_id", Redis.JStr user_id);
                                 ("tenant_id", Redis.JStr tenant_id);
                                 ("created_at", Redis.JNum now);
                                 ("last_activity", Redis.JNum now)] in
                  match Redis.setex (Redis.data c) (session_key session_id)
                          (inject_Z (access_token_expire_minutes self * 60))
                          session_data now with
                  | (Ok _, d) => (Ok (token, claims), with_redis self3 d)
                  | (Raise e, _) => (Raise e, self3)
                  end
                else (Raise RedisError, self3)
            | None => (Ok (token, claims), self3)
            end
      end
  end.

Fixpoint set_json_field (k : string) (v : Redis.jval) (fields : list (string * Redis.jval))
  : list (string * Redis.jval) :=
  match fields with
  | [] => [(k, v)]
  | (k', v') :: rest =>
      if String.eqb k k' then (k, v) :: rest else (k', v') :: set_json_field k v rest
  end.

(** verify_token, the body of the [try]. *)
Definition verify_token_try (self : service) (token : jwt) (now : Q)
  : result UserClaims.t * service :=
  match jwt_decode token (jwt_secret self) [jwt_algorithm self] now with
  | Raise e => (Raise e, self)
  | Ok payload =>
      match UserClaims_of payload with
      | Raise e => (Raise e, self)
      | Ok claims =>
          let session_step : result unit * service :=
            match redis_client self with
            | None => (Ok tt, self)
            | Some c =>
                if negb (Redis.alive c) then (Raise RedisError, self) else
                match Redis.get (Redis.data c) (session_key (UserClaims.session_id claims)) now with
                | Raise e => (Raise e, self)
                | Ok None => (Raise (HTTPException 401 "Session expired"), self)
                | Ok (Some session_data) =>
                    if negb (Redis.nonempty session_data)
                    then (Raise (HTTPException 401 "Session expired"), self)
                    else
                      match session_data with
                      | Redis.SJson session_info =>
                          match Redis.setex (Redis.data c)
                                  (session_key (UserClaims.session_id claims))
                                  (inject_Z (access_token_expire_minutes self * 60))
                                  (Redis.SJson (set_json_field "last_activity"
                                                  (Redis.JNum now) session_info))
                                  now with
                          | (Ok _, d) => (Ok tt, with_redis self d)
                          | (Raise e, _) => (Raise e, self)
                          end
                      | _ => (Raise ValueError, self)
                      end
                end
            end in
          match session_step with
          | (Raise e, self1) => (Raise e, self1)
          | (Ok _, self1) =>
              let '(tenant_config, self2) :=
                get_tenant_config self1 (UserClaims.tenant_id claims) in
              match tenant_config with
              | None => (Raise (HTTPException 401 "Tenant inactive"), self2)
              | Some tenant_config =>
                  if negb (TenantConfig.is_active tenant_config)
                  then (Raise (HTTPException 401 "Tenant inactive"), self2)
                  else (Ok claims, self2)
              end
          end
      end
  end.

(** verify_token: the [except] clauses, in their order.  [HTTPException] is
    an [Exception], so the last clause also catches the ones raised inside
    the [try]. *)
Definition verify_token (self : service) (token : jwt) (now : Q)
  : result UserClaims.t * service :=
  match verify_token_try self token now with
  | (Ok claims, self') => (Ok claims, self')
  | (Raise ExpiredSignatureError, self') =>
      (Raise (HTTPException 401 "Token expired"), self')
  | (Raise InvalidTokenError, self') =>
      (Raise (HTTPException 401 "Invalid token"), self')
  | (Raise _, self') =>
      (Raise (HTTPException 401 "Authentication failed"), self')
  end.

(** _create_refresh_token *)
Definition _create_refresh_token (self : service) (user_id tenant_id : string) (now : Q)
  : jwt :=
  jwt_encode
    (<["user_id" := JS user_id]>
     (<["tenant_id" := JS tenant_id]>
     (<["type" := JS "refresh"]>
     (<["exp" := JI (py_int (now + inject_Z (refresh_token_expire_days self * 86400))%Q)]>
        ∅))))
    (jwt_secret self) (jwt_algorithm self).

(** _log_security_event: the log line is written first; a failing Redis is
    swallowed.  The date in the key is the day number. *)
Definition _log_security_event (self : service) (event_type : string)
  (user_id tenant_id : option string) (details : list (string * string))
  (severity : string) (now : Q) : service :=
  let event :=
    mk_event event_type user_id tenant_id "unknown" "unknown" details now severity in
  let self1 := with_log self (security_log self ++ [event]) in
  match redis_client self1 with
  | Some c =>
      let '(u, self2) := uuid4 self1 in
      if Redis.alive c then
        let event_key :=
          "security:events:" +:+ pretty (py_int now / 86400) +:+ ":" +:+ u in
        with_redis self2
          (snd (Redis.setex (Redis.data c) event_key 86400
                  (Redis.SJson [("event_type", Redis.JStr event_type);
                                ("user_id", from_option Redis.JStr Redis.JNull user_id);
                                ("tenant_id", from_option Redis.JStr Redis.JNull tenant_id);
                                ("ip_address", Redis.JStr "unknown");
                                ("user_agent", Redis.JStr "unknown");
                                ("details", Redis.JObj details);
                                ("timestamp", Redis.JNum now);
                                ("severity", Redis.JStr severity)])
                  now))
      else self2
  | None => self1
  end.

(** authenticate_user, the two SELECTs for the user row: by e-mail, within
    the tenant when one was resolved, active users only. *)
Definition find_active_user (d : database) (email : string)
  (tenant_config : option TenantConfig.t) : option UserRow.t :=
  match tenant_config with
  | Some tc =>
      List.find (fun r => String.eqb (UserRow.email r) email
                          && opt_eqb (UserRow.institution_id r) (TenantConfig.tenant_id tc)
                          && is_one (UserRow.is_active r))
                (users d)
  | None =>
      List.find (fun r => String.eqb (UserRow.email r) email
                          && is_one (UserRow.is_active r))
                (users d)
  end.

Section Passwords.

(** [hashlib.sha256(s.encode()).hexdigest()] *)
Variable sha256_hex : string -> string.

(** _verify_password *)
Definition _verify_password (plain_password hashed_password : string) : bool :=
  String.eqb (sha256_hex plain_password) hashed_password.

(** authenticate_user, the body of the [try]. *)
Definition authenticate_user_try (self : service) (email password : string)
  (tenant_domain : option string) (now : Q) : result AuthenticationResult * service :=
  let '(tenant_config, self1) :=
    if truthy_opt tenant_domain
    then get_tenant_by_domain self (default "" tenant_domain)
    else (None, self) in
  if truthy_opt tenant_domain && negb (bool_decide (is_Some tenant_config))
  then (Ok (failure "Invalid tenant domain"), self1)
  else if negb (reachable (db self1)) then (Raise OperationalError, self1)
  else
    let user_row := find_active_user (db self1) email tenant_config in
    match user_row with
    | None => (Ok (failure "Invalid credentials"), self1)
    | Some user_row =>
        if negb (_verify_password password (UserRow.password_hash user_row)) then
          (Ok (failure "Invalid credentials"),
           _log_security_event self1 "failed_login" (Some (UserRow.id user_row))
             (UserRow.institution_id user_row)
             [("reason", "invalid_password"); ("email", email)] "warning" now)
        else
          let '(tenant_config, self2) :=
            match tenant_config with
            | Some tc => (Some tc, self1)
            | None =>
                if truthy_opt (UserRow.institution_id user_row)
                then get_tenant_config self1 (default "" (UserRow.institution_id user_row))
                else (None, self1)
            end in
          match tenant_config with
          | None => (Ok (failure "No valid tenant found"), self2)
          | Some tc =>
              match create_access_token self2 (UserRow.id user_row)
                      (TenantConfig.tenant_id tc) now with
              | (Raise e, self3) => (Raise e, self3)
              | (Ok (access_token, claims), self3) =>
                  let refresh_token :=
                    _create_refresh_token self3 (UserRow.id user_row)
                      (TenantConfig.tenant_id tc) now in
                  (Ok (mk_result true (Some claims) (Some access_token)
                         (Some refresh_token) None None),
                   _log_security_event self3 "successful_login"
                     (Some (UserRow.id user_row)) (Some (TenantConfig.tenant_id tc))
                     [("email", email); ("role", UserRow.role user_row)] "info" now)
              end
          end
    end.

(** authenticate_user: [except Exception] turns whatever the body raised
    into one more failed result. *)
Definition authenticate_user (self : service) (email password : string)
  (tenant_domain : option string) (now : Q) : AuthenticationResult * service :=
  match authenticate_user_try self email password tenant_domain now with
  | (Ok r, self') => (r, self')
  | (Raise _, self') => (failure "Authentication system error", self')
  end.

End Passwords.

(** require_permission(permission), the inner dependency *)
Definition require_permission (permission : string) (current_user : UserClaims.t)
  : result UserClaims.t :=
  if negb (str_in permission (UserClaims.permissions current_user))
     && negb (str_in "*" (UserClaims.permissions current_user))
  then Raise (HTTPException 403 ("Permission required: " +:+ permission))
  else Ok current_user.

(** require_role(allowed_roles), the inner dependency *)
Definition require_role (allowed_roles : list string) (current_user : UserClaims.t)
  : result UserClaims.t :=
  if negb (str_in (UserClaims.role current_user) allowed_roles)
  then Raise (HTTPException 403 ("Role required: " +:+ String.concat ", " allowed_roles))
  else Ok current_user.

(** RateLimiter.check_rate_limit *)
Definition check_rate_limit (redis_client : option Redis.conn) (key : string)
  (limit window_seconds : Z) (now : Q) : (bool * Z) * option Redis.conn :=
  match redis_client with
  | None => ((true, limit), redis_client)
  | Some c =>
      if negb (Redis.alive c) then ((true, limit), redis_client) else
      match Redis.get (Redis.data c) key now with
      | Raise _ => ((true, limit), redis_client)
      | Ok None =>
          match Redis.setex (Redis.data c) key (inject_Z window_seconds)
                  (Redis.SInt 1) now with
          | (Ok _, d) => ((true, limit - 1), Some (Redis.mk_conn true d))
          | (Raise _, _) => ((true, limit), redis_client)
          end
      | Ok (Some current) =>
          match Redis.int_of current with
          | Raise _ => ((true, limit), redis_client)
          | Ok current =>
              if limit <=? current then ((false, 0), redis_client)
              else
                match Redis.incr (Redis.data c) key now with
                | (Raise _, d1) => ((true, limit), Some (Redis.mk_conn true d1))
                | (Ok _, d1) => ((true, limit - current - 1), Some (Redis.mk_conn true d1))
                end
          end
      end
  end.

(** get_current_user *)
Definition get_current_user (self : service) (credentials : jwt) (now : Q)
  : result UserClaims.t * service :=
  verify_token self credentials now.

(** get_current_tenant *)
Definition get_current_tenant (self : service) (current_user : UserClaims.t)
  : result TenantConfig.t * service :=
  match get_tenant_config self (UserClaims.tenant_id current_user) with
  | (Some tenant_config, self1) => (Ok tenant_config, self1)
  | (None, self1) => (Raise (HTTPException 404 "Tenant not found"), self1)
  end.

(** rate_limit(requests_per_minute), the inner dependency, on the module's
    [rate_limiter]. *)
Definition rate_limit_dependency (rate_limiter : option Redis.conn)
  (requests_per_minute : Z) (current_user : UserClaims.t) (now : Q)
  : result Z * option Redis.conn :=
  let rate_key :=
    "rate_limit:" +:+ UserClaims.tenant_id current_user +:+ ":"
      +:+ UserClaims.user_id current_user +:+ ":" +:+ pretty (Qfloor (now / 60)) in
  let '((allowed, remaining), rate_limiter1) :=
    check_rate_limit rate_limiter rate_key requests_per_minute 60 now in
  if negb allowed then (Raise (HTTPException 429 "Rate limit exceeded"), rate_limiter1)
  else (Ok remaining, rate_limiter1).

(** [RateLimiter.check_rate_limit] called once at each of [times]. *)
Fixpoint check_rate_limit_at (redis_client : option Redis.conn) (key : string)
  (limit window_seconds : Z) (times : list Q) : list (bool * Z) :=
  match times with
  | [] => []
  | now :: times =>
      let '(r, redis_client1) := check_rate_limit redis_client key limit window_seconds now in
      r :: check_rate_limit_at redis_client1 key limit window_seconds times
  end.

(** The dependency of [rate_limit(requests_per_minute)] called once at each
    of [times] for one user. *)
Fixpoint rate_limit_at (rate_limiter : option Redis.conn) (requests_per_minute : Z)
  (current_user : UserClaims.t) (times : list Q) : list (result Z) :=
  match times with
  | [] => []
  | now :: times =>
      let '(r, rate_limiter1) :=
        rate_limit_dependency rate_limiter requests_per_minute current_user now in
      r :: rate_limit_at rate_limiter1 requests_per_minute current_user times
  end.

End Auth.

(** ** shared/auth_routes.py *)

Module Routes.
Import Py Auth.
Local Open Scope Z_scope.

Definition is_refresh (v : option jwt_value) : bool :=
  match v with Some (JS s) => String.eqb s "refresh" | _ => false end.

(** POST /auth/refresh, the body of the handler, run once the dependencies
    of the route have passed ([post_refresh]).  Only the two PyJWT exceptions
    are caught; the [HTTPException]s and a [KeyError] leave the route.
    [None]: the payload's ids are not JSON strings, which the text-keyed
    tables of the embedding do not cover. *)
Definition refresh_token (self : service) (refresh_token : jwt) (now : Q)
  : option (result jwt * service) :=
  match jwt_decode refresh_token (jwt_secret self) [jwt_algorithm self] now with
  | Raise ExpiredSignatureError =>
      Some (Raise (HTTPException 401 "Refresh token expired"), self)
  | Raise InvalidTokenError =>
      Some (Raise (HTTPException 401 "Invalid refresh token"), self)
  | Raise e => Some (Raise e, self)
  | Ok payload =>
      if negb (is_refresh (payload !! "type"))
      then Some (Raise (HTTPException 401 "Invalid refresh token"), self)
      else
        match payload !! "user_id" with
        | None => Some (Raise KeyError, self)
        | Some user_id =>
            match payload !! "tenant_id" with
            | None => Some (Raise KeyError, self)
            | Some tenant_id =>
                match user_id, tenant_id with
                | JS user_id, JS tenant_id =>
                    match create_access_token self user_id tenant_id now with
                    | (Ok (access_token, _), self1) => Some (Ok access_token, self1)
                    | (Raise e, self1) => Some (Raise e, self1)
                    end
                | _, _ => None
                end
            end
        end
  end.

(** POST /auth/refresh as the router serves it, for a request with bearer
    [credentials]: the route declares [Depends(rate_limit(20))], whose
    dependency declares [Depends(get_current_user)], so the bearer token is
    verified first, then the caller's slot among the 20 per minute is taken,
    and only then the body runs on the [refresh_token] of the request.  The
    module's [rate_limiter] is [RateLimiter(auth_service.redis_client)]: it
    works on the Redis client of the service. *)
Definition post_refresh (self : service) (credentials refresh : jwt) (now : Q)
  : option (result jwt * service) :=
  match get_current_user self credentials now with
  | (Raise e, self1) => Some (Raise e, self1)
  | (Ok current_user, self1) =>
      match rate_limit_dependency (redis_client self1) 20 current_user now with
      | (Raise e, client) => Some (Raise e, with_client self1 client)
      | (Ok _, client) => refresh_token (with_client self1 client) refresh now
      end
  end.

(** POST /auth/logout, once [get_current_user] has produced [current_user].
    The background task that logs the event runs after the response. *)
Definition logout (self : service) (current_user : UserClaims.t) (now : Q)
  : result unit * service :=
  let log (s : service) :=
    _log_security_event s "user_logout" (Some (UserClaims.user_id current_user))
      (Some (UserClaims.tenant_id current_user))
      [("email", UserClaims.email current_user)] "info" now in
  match redis_client self with
  | Some c =>
      if Redis.alive c then
        (Ok tt,
         log (with_redis self
                (Redis.delete (Redis.data c)
                   (session_key (UserClaims.session_id current_user)))))
      else (Raise RedisError, self)
  | None => (Ok tt, log self)
  end.

End Routes.

(** ** shared/rate_limiting_middleware.py *)

Module RateLimiting.
Import Py.
Local Open Scope Z_scope.

Record RateLimitConfig := mk_limits {
  requests_per_minute : Z;
  requests_per_hour : Z;
  requests_per_day : Z;
  burst_capacity : Z;
  concurrent_requests : Z;
  expensive_endpoints_rpm : Z;
  standard_endpoints_rpm : Z;
  auth_endpoints_rpm : Z
}.

Definition starter : RateLimitConfig :=
  mk_limits 100 3000 50000 20 10 10 60 20.
Definition professional : RateLimitConfig :=
  mk_limits 500 15000 300000 100 50 50 300 100.
Definition enterprise : RateLimitConfig :=
  mk_limits 2000 60000 1200000 500 200 200 1200 400.
Definition system_admin : RateLimitConfig :=
  mk_limits 10000 300000 5000000 2000 1000 1000 6000 2000.

Definition SUBSCRIPTION_LIMITS : list (string * RateLimitConfig) :=
  [("starter", starter); ("professional", professional);
   ("enterprise", enterprise); ("system_admin", system_admin)].

Definition ENDPOINT_CATEGORIES : list (string * list string) :=
  [("expensive",
    ["/api/ai-tutor/generate"; "/api/ai-tutor/analyze"; "/api/analytics/report";
     "/api/analytics/export"; "/api/recommendations/generate"; "/api/admin/backup";
     "/api/monitoring/export"]);
   ("auth",
    ["/api/auth/login"; "/api/auth/register"; "/api/auth/refresh";
     "/api/auth/reset-password"; "/api/auth/verify-email"]);
   ("standard",
    ["/api/courses"; "/api/progress"; "/api/content"; "/api/users/profile";
     "/api/admin/users"; "/api/admin/tenants"])].

(** A [dict] with string keys, as an association list (first match wins). *)
Fixpoint assoc {A : Type} (k : string) (l : list (string * A)) : option A :=
  match l with
  | [] => None
  | (k', v) :: l => if String.eqb k k' then Some v else assoc k l
  end.

(** One slot of the in-memory fallback: [{'count': n, 'timestamp': t}]. *)
Record slot := mk_slot { count : Z; timestamp : Q }.

(** [EnterpriseRateLimiter]: [redis_client] is [None] when Redis was down at
    construction, and only then does the attribute [memory_store] exist. *)
Record limiter := mk_limiter {
  redis_client : option Redis.conn;
  memory_store : option (gmap string slot)
}.

Definition with_redis (self : limiter) (d : gmap string Redis.entry) : limiter :=
  {| redis_client := option_map (fun c => Redis.mk_conn (Redis.alive c) d) (redis_client self);
     memory_store := memory_store self |}.

(** What the code reads off a Flask or FastAPI request object. *)
Record request := mk_request {
  headers : list (string * string);
  client_host : option string;
  remote_addr : option string;
  url_path : option string;
  as_str : string
}.

(** [s.split(',')[0]] and [s.strip()] *)
Fixpoint before_comma (s : string) : string :=
  match s with
  | EmptyString => EmptyString
  | String c r => if Ascii.eqb c "," then EmptyString else String c (before_comma r)
  end.

Fixpoint lstrip (s : string) : string :=
  match s with
  | EmptyString => EmptyString
  | String c r => if Ascii.is_space c then lstrip r else s
  end.

Definition strip (s : string) : string := String.rev (lstrip (String.rev (lstrip s))).

(** _get_client_ip *)
Definition _get_client_ip (request : request) : string :=
  match assoc "X-Forwarded-For" (headers request) with
  | Some forwarded_for =>
      if truthy forwarded_for then strip (before_comma forwarded_for)
      else
        match assoc "X-Real-IP" (headers request) with
        | Some real_ip =>
            if truthy real_ip then real_ip
            else match client_host request with
                 | Some h => h
                 | None => default "127.0.0.1" (remote_addr request)
                 end
        | None =>
            match client_host request with
            | Some h => h
            | None => default "127.0.0.1" (remote_addr request)
            end
        end
  | None =>
      match assoc "X-Real-IP" (headers request) with
      | Some real_ip =>
          if truthy real_ip then real_ip
          else match client_host request with
               | Some h => h
               | None => default "127.0.0.1" (remote_addr request)
               end
      | None =>
          match client_host request with
          | Some h => h
          | None => default "127.0.0.1" (remote_addr request)
          end
      end
  end.

(** _get_client_id *)
Definition _get_client_id (request : request) (user_id tenant_id : option string)
  : string :=
  if truthy_opt user_id then "user:" +:+ default "" user_id
  else if truthy_opt tenant_id then "tenant:" +:+ default "" tenant_id
  else "ip:" +:+ _get_client_ip request.

(** _get_endpoint_category *)
Definition _get_endpoint_category (endpoint : string) : string :=
  match List.find (fun ce => existsb (fun ep => String.prefix ep endpoint) (snd ce))
                  ENDPOINT_CATEGORIES with
  | Some ce => fst ce
  | None => "standard"
  end.

(** _get_rate_limit_config *)
Definition _get_rate_limit_config (subscription_plan : string) : RateLimitConfig :=
  default starter (assoc subscription_plan SUBSCRIPTION_LIMITS).

(** _get_redis_key *)
Definition _get_redis_key (client_id window : string) (endpoint : option string)
  (now : Q) : string :=
  let timestamp := py_int now in
  let window_start :=
    if String.eqb window "minute" then timestamp / 60
    else if String.eqb window "hour" then timestamp / 3600
    else if String.eqb window "day" then timestamp / 86400
    else timestamp in
  if truthy_opt endpoint then
    "rate_limit:" +:+ client_id +:+ ":" +:+ window +:+ ":" +:+ pretty window_start
      +:+ ":" +:+ default "" endpoint
  else
    "rate_limit:" +:+ client_id +:+ ":" +:+ window +:+ ":" +:+ pretty window_start.

(** _fallback_increment *)
Definition _fallback_increment (self : limiter) (key : string) (now : Q)
  : result Z * limiter :=
  match memory_store self with
  | None => (Raise AttributeError, self)
  | Some store =>
      let cutoff_time := (now - 86400)%Q in
      let kept := filter (fun kv => Qltb cutoff_time (timestamp (snd kv)) = true) store in
      let store1 :=
        match kept !! key with
        | Some _ => kept
        | None => <[key := mk_slot 0 now]> kept
        end in
      let store2 := alter (fun s => mk_slot (count s + 1) (timestamp s)) key store1 in
      (match store2 !! key with
       | Some s => Ok (count s)
       | None => Raise KeyError
       end,
       {| redis_client := redis_client self; memory_store := Some store2 |})
  end.

(** _increment_counter: the pipeline runs INCR and EXPIRE, then raises if
    one of them failed. *)
Definition _increment_counter (self : limiter) (key : string) (ttl : Z) (now : Q)
  : result Z * limiter :=
  match redis_client self with
  | Some c =>
      if Redis.alive c then
        let '(r, d1) := Redis.incr (Redis.data c) key now in
        let d2 := Redis.expire d1 key (inject_Z ttl) now in
        match r with
        | Ok n => (Ok n, with_redis self d2)
        | Raise _ => _fallback_increment (with_redis self d2) key now
        end
      else _fallback_increment self key now
  | None => _fallback_increment self key now
  end.

Definition bucket_key (client_id : string) : string := "burst_bucket:" +:+ client_id.

(** _get_burst_tokens.  Only [redis.RedisError] is caught; a [ValueError]
    from [int] or [float] leaves the function.  The refill
    [time_passed * (requests_per_minute / 60)] is the exact product; the
    float product of the code is within a factor of [(1 +- 2^-53)^3] of it,
    which [int] can tell apart only when the exact product is that close to
    a whole number. *)
Definition _get_burst_tokens (self : limiter) (client_id : string)
  (config : RateLimitConfig) (now : Q) : result Z * limiter :=
  match redis_client self with
  | Some c =>
      if Redis.alive c then
        match Redis.hgetall (Redis.data c) (bucket_key client_id) now with
        | Raise _ => (Ok (burst_capacity config / 2), self)
        | Ok bucket_data =>
            if bool_decide (bucket_data = ∅) then
              match Redis.hset (Redis.data c) (bucket_key client_id)
                      [("tokens", Redis.SInt (burst_capacity config));
                       ("last_refill", Redis.SFloat now)] now with
              | (Raise _, d1) => (Ok (burst_capacity config / 2), with_redis self d1)
              | (Ok _, d1) =>
                  (Ok (burst_capacity config),
                   with_redis self (Redis.expire d1 (bucket_key client_id) 3600 now))
              end
            else
              match Redis.int_of (default (Redis.SInt 0) (bucket_data !! "tokens")) with
              | Raise e => (Raise e, self)
              | Ok tokens =>
                  match Redis.float_of
                          (default (Redis.SFloat now) (bucket_data !! "last_refill")) with
                  | Raise e => (Raise e, self)
                  | Ok last_refill =>
                      let time_passed := (now - last_refill)%Q in
                      let tokens_to_add :=
                        py_int (time_passed * (inject_Z (requests_per_minute config) / 60))%Q in
                      let tokens := Z.min (burst_capacity config) (tokens + tokens_to_add) in
                      match Redis.hset (Redis.data c) (bucket_key client_id)
                              [("tokens", Redis.SInt tokens);
                               ("last_refill", Redis.SFloat now)] now with
                      | (Raise _, d1) => (Ok (burst_capacity config / 2), with_redis self d1)
                      | (Ok _, d1) => (Ok tokens, with_redis self d1)
                      end
                  end
              end
        end
      else (Ok (burst_capacity config / 2), self)
  | None => (Ok (burst_capacity config / 2), self)
  end.

(** _consume_burst_token *)
Definition _consume_burst_token (self : limiter) (client_id : string) (now : Q)
  : result bool * limiter :=
  match redis_client self with
  | Some c =>
      if Redis.alive c then
        match Redis.hget (Redis.data c) (bucket_key client_id) "tokens" now with
        | Raise _ => (Ok true, self)
        | Ok None => (Ok false, self)
        | Ok (Some tokens) =>
            if Redis.nonempty tokens then
              match Redis.int_of tokens with
              | Raise e => (Raise e, self)
              | Ok n =>
                  if 0 <? n then
                    match Redis.hincrby (Redis.data c) (bucket_key client_id) "tokens" (-1) now with
                    | (_, d1) => (Ok true, with_redis self d1)
                    end
                  else (Ok false, self)
              end
            else (Ok false, self)
        end
      else (Ok true, self)
  | None => (Ok true, self)
  end.

(** The local variables of [check_rate_limit] once the three ceilings have
    been checked. *)
Record verdict := mk_verdict {
  client_id : string;
  config : RateLimitConfig;
  endpoint_category : string;
  rpm_limit : Z;
  minute_count : Z;
  hour_count : Z;
  day_count : Z;
  burst_tokens : Z;
  allowed : bool;
  limit_exceeded : option string
}.

(** check_rate_limit, [if not endpoint: endpoint = ...] *)
Definition effective_endpoint (request : request) (endpoint : option string) : string :=
  if truthy_opt endpoint then default "" endpoint
  else default (as_str request) (url_path request).

(** check_rate_limit, the endpoint-specific per-minute limit. *)
Definition endpoint_limit (config : RateLimitConfig) (endpoint_category : string) : Z :=
  if String.eqb endpoint_category "expensive" then expensive_endpoints_rpm config
  else if String.eqb endpoint_category "auth" then auth_endpoints_rpm config
  else standard_endpoints_rpm config.

(** check_rate_limit, up to the ceilings. *)
Definition check_rate_limit_verdict (self : limiter) (request : request)
  (user_id tenant_id : option string) (subscription_plan : string)
  (endpoint : option string) (now : Q) : result verdict * limiter :=
  let client_id := _get_client_id request user_id tenant_id in
  let config := _get_rate_limit_config subscription_plan in
  let endpoint := effective_endpoint request endpoint in
  let endpoint_category := _get_endpoint_category endpoint in
  let rpm_limit := endpoint_limit config endpoint_category in
  let minute_key := _get_redis_key client_id "minute" (Some endpoint) now in
  let hour_key := _get_redis_key client_id "hour" None now in
  let day_key := _get_redis_key client_id "day" None now in
  match _increment_counter self minute_key 60 now with
  | (Raise e, self1) => (Raise e, self1)
  | (Ok minute_count, self1) =>
  match _increment_counter self1 hour_key 3600 now with
  | (Raise e, self2) => (Raise e, self2)
  | (Ok hour_count, self2) =>
  match _increment_counter self2 day_key 86400 now with
  | (Raise e, self3) => (Raise e, self3)
  | (Ok day_count, self3) =>
  match _get_burst_tokens self3 client_id config now with
  | (Raise e, self4) => (Raise e, self4)
  | (Ok burst_tokens, self4) =>
      let minute_check :=
        if rpm_limit <? minute_count then
          if 0 <? burst_tokens then
            match _consume_burst_token self4 client_id now with
            | (Raise e, self5) => (Raise e, self5)
            | (Ok _, self5) => (Ok (true, None), self5)
            end
          else (Ok (false, Some "minute"), self4)
        else (Ok (true, None), self4) in
      match minute_check with
      | (Raise e, self5) => (Raise e, self5)
      | (Ok (allowed, limit_exceeded), self5) =>
          let '(allowed, limit_exceeded) :=
            if requests_per_hour config <? hour_count
            then (false, Some "hour") else (allowed, limit_exceeded) in
          let '(allowed, limit_exceeded) :=
            if requests_per_day config <? day_count
            then (false, Some "day") else (allowed, limit_exceeded) in
          (Ok (mk_verdict client_id config endpoint_category rpm_limit minute_count
                 hour_count day_count burst_tokens allowed limit_exceeded),
           self5)
      end
  end end end end.

(** check_rate_limit, the response headers. *)
Definition rate_limit_headers (v : verdict) (now : Q) : list (string * string) :=
  let current_time := py_int now in
  let minute_reset := (current_time / 60 + 1) * 60 in
  let hour_reset := (current_time / 3600 + 1) * 3600 in
  let day_reset := (current_time / 86400 + 1) * 86400 in
  [("X-RateLimit-Limit-Minute", pretty (rpm_limit v));
   ("X-RateLimit-Limit-Hour", pretty (requests_per_hour (config v)));
   ("X-RateLimit-Limit-Day", pretty (requests_per_day (config v)));
   ("X-RateLimit-Remaining-Minute", pretty (Z.max 0 (rpm_limit v - minute_count v)));
   ("X-RateLimit-Remaining-Hour",
    pretty (Z.max 0 (requests_per_hour (config v) - hour_count v)));
   ("X-RateLimit-Remaining-Day",
    pretty (Z.max 0 (requests_per_day (config v) - day_count v)));
   ("X-RateLimit-Reset-Minute", pretty minute_reset);
   ("X-RateLimit-Reset-Hour", pretty hour_reset);
   ("X-RateLimit-Reset-Day", pretty day_reset);
   ("X-RateLimit-Burst-Capacity", pretty (burst_capacity (config v)));
   ("X-RateLimit-Burst-Remaining", pretty (burst_tokens v));
   ("X-RateLimit-Client-ID", client_id v);
   ("X-RateLimit-Endpoint-Category", endpoint_category v)]
  ++ (if allowed v then []
      else [("X-RateLimit-Limit-Exceeded", default "None" (limit_exceeded v));
            ("Retry-After", pretty (minute_reset - current_time))]).

(** check_rate_limit *)
Definition check_rate_limit (self : limiter) (request : request)
  (user_id tenant_id : option string) (subscription_plan : string)
  (endpoint : option string) (now : Q)
  : result (bool * list (string * string)) * limiter :=
  match check_rate_limit_verdict self request user_id tenant_id subscription_plan
          endpoint now with
  | (Ok v, self') => (Ok (allowed v, rate_limit_headers v now), self')
  | (Raise e, self') => (Raise e, self')
  end.

(** A client calling [check_rate_limit] once at each of [times]. *)
Fixpoint serve (self : limiter) (request : request)
  (user_id tenant_id : option string) (subscription_plan : string)
  (endpoint : option string) (times : list Q)
  : list (result (bool * list (string * string))) :=
  match times with
  | [] => []
  | now :: times =>
      let '(r, self') :=
        check_rate_limit self request user_id tenant_id subscription_plan endpoint now in
      r :: serve self' request user_id tenant_id subscription_plan endpoint times
  end.

Definition whitelist_key (client_id : string) : string :=
  "rate_limit:whitelist:" +:+ client_id.

(** whitelist_client, on the module's [rate_limiter]. *)
Definition whitelist_client (self : limiter) (client_id : string) (duration_hours : Z)
  (now : Q) : bool * limiter :=
  match redis_client self with
  | None => (false, self)
  | Some c =>
      if negb (Redis.alive c) then (false, self)
      else
        match Redis.setex (Redis.data c) (whitelist_key client_id)
                (inject_Z (duration_hours * 3600)) (Redis.SText "whitelisted") now with
        | (Ok _, d) => (true, with_redis self d)
        | (Raise _, _) => (false, self)
        end
  end.

(** is_whitelisted: the answer of EXISTS (1 or 0) as a truth value. *)
Definition is_whitelisted (self : limiter) (client_id : string) (now : Q) : bool :=
  match redis_client self with
  | None => false
  | Some c =>
      if negb (Redis.alive c) then false
      else Redis.exists_key (Redis.data c) (whitelist_key client_id) now
  end.

(** A string with none of the characters a KEYS pattern reads as a
    wildcard. *)
Definition glob_char (c : ascii) : bool :=
  Ascii.eqb c "*" || Ascii.eqb c "?" || Ascii.eqb c "[" || Ascii.eqb c "\".

Fixpoint glob_free (s : string) : bool :=
  match s with
  | EmptyString => true
  | String c r => negb (glob_char c) && glob_free r
  end.

(** reset_rate_limit, on the module's [rate_limiter].  [None]: the client id
    or the window holds a wildcard character, so that the KEYS pattern is
    more than a prefix followed by a star. *)
Definition reset_rate_limit (self : limiter) (client_id window : string) (now : Q)
  : option (bool * limiter) :=
  if negb (glob_free client_id && glob_free window) then None
  else
    Some
      match redis_client self with
      | None => (false, self)
      | Some c =>
          if negb (Redis.alive c) then (false, self)
          else
            let keys :=
              if String.eqb window "all"
              then Redis.keys (Redis.data c) ("rate_limit:" +:+ client_id +:+ ":") now
              else Redis.keys (Redis.data c)
                     ("rate_limit:" +:+ client_id +:+ ":" +:+ window +:+ ":") now in
            match keys with
            | [] => (false, self)
            | _ => (true, with_redis self (Redis.delete_all (Redis.data c) keys))
            end
      end.

End RateLimiting.

(** ** shared/advanced_throttling.py *)

Module Throttling.
Import Py.
Local Open Scope Q_scope.

Inductive ThrottleStrategy := FIXED | ADAPTIVE | CIRCUIT_BREAKER | INTELLIGENT.

Inductive SystemLoadLevel := LOW | MEDIUM | HIGH | CRITICAL.

Record SystemMetrics := mk_metrics {
  cpu_percent : Q;
  memory_percent : Q;
  disk_io_percent : Q;
  network_io_percent : Q;
  active_connections : Z;
  response_time_avg : Q;
  error_rate : Q;
  timestamp : Q
}.

(** SystemMetrics.get_load_level *)
Definition get_load_level (self : SystemMetrics) : SystemLoadLevel :=
  if Qltb 90 (cpu_percent self) || Qltb 95 (memory_percent self) then CRITICAL
  else if Qltb 70 (cpu_percent self) || Qltb 80 (memory_percent self) then HIGH
  else if Qltb 30 (cpu_percent self) || Qltb 50 (memory_percent self) then MEDIUM
  else LOW.

Record ThrottleConfig := mk_config {
  strategy : ThrottleStrategy;
  base_limits : list (string * Z);
  load_multipliers : SystemLoadLevel -> Q;
  burst_multiplier : Q;
  circuit_breaker_threshold : Q;
  circuit_breaker_duration : Z;
  adaptive_window : Z;
  whitelist_patterns : list string;
  blacklist_patterns : list string
}.

(** The configuration built by [AdvancedThrottlingEngine.__init__]. *)
Definition default_config : ThrottleConfig := {|
  strategy := INTELLIGENT;
  base_limits := [("expensive", 10); ("standard", 60); ("auth", 20); ("admin", 100)]%Z;
  load_multipliers := fun l =>
    match l with LOW => 1.2 | MEDIUM => 1.0 | HIGH => 0.7 | CRITICAL => 0.3 end;
  burst_multiplier := 1.5;
  circuit_breaker_threshold := 0.15;
  circuit_breaker_duration := 60%Z;
  adaptive_window := 300%Z;
  whitelist_patterns := ["/health"; "/metrics"; "/api/auth/logout"];
  blacklist_patterns := ["/api/admin/backup"; "/api/analytics/export"]
|}.

Record engine := mk_engine {
  redis_client : option Redis.conn;
  system_metrics_cache : option SystemMetrics;
  config : ThrottleConfig
}.

(** What [psutil] reports at one sampling; [None] when it raises. *)
Record psutil_sample := mk_sample {
  ps_cpu : Q;
  ps_memory : Q;
  ps_disk_read : Z;
  ps_disk_write : Z;
  ps_net_sent : Z;
  ps_net_recv : Z
}.

Definition with_redis (self : engine) (d : gmap string Redis.entry) : engine :=
  {| redis_client := option_map (fun c => Redis.mk_conn (Redis.alive c) d) (redis_client self);
     system_metrics_cache := system_metrics_cache self;
     config := config self |}.

(** _get_active_connections *)
Definition _get_active_connections (self : engine) (now : Q) : Z :=
  match redis_client self with
  | Some c =>
      if Redis.alive c then Z.of_nat (length (Redis.keys (Redis.data c) "session:" now))
      else 100%Z
  | None => 100%Z
  end.

Fixpoint sum_floats (l : list Redis.scalar) : result Q :=
  match l with
  | [] => Ok 0%Q
  | v :: l =>
      match Redis.float_of v, sum_floats l with
      | Ok q, Ok s => Ok (q + s)%Q
      | Raise e, _ => Raise e
      | _, Raise e => Raise e
      end
  end.

(** _get_avg_response_time *)
Definition _get_avg_response_time (self : engine) (now : Q) : Q :=
  match redis_client self with
  | Some c =>
      if Redis.alive c then
        match Redis.lrange0 (Redis.data c) "response_times" 99%nat now with
        | Ok [] => 100.0
        | Ok times =>
            match sum_floats times with
            | Ok s => (s / inject_Z (Z.of_nat (length times)))%Q
            | Raise _ => 100.0
            end
        | Raise _ => 100.0
        end
      else 100.0
  | None => 100.0
  end.

(** [int(client.get(key) or dflt)] *)
Definition int_or (r : option Redis.scalar) (dflt : Z) : result Z :=
  match r with
  | Some v => if Redis.nonempty v then Redis.int_of v else Ok dflt
  | None => Ok dflt
  end.

(** _get_error_rate *)
Definition _get_error_rate (self : engine) (now : Q) : Q :=
  match redis_client self with
  | Some c =>
      if Redis.alive c then
        match Redis.get (Redis.data c) "error_count" now with
        | Ok e =>
            match int_or e 0%Z with
            | Ok errors =>
                match Redis.get (Redis.data c) "request_count" now with
                | Ok r =>
                    match int_or r 1%Z with
                    | Ok requests =>
                        if (0 <? requests)%Z
                        then (inject_Z errors / inject_Z requests)%Q
                        else 0.0
                    | Raise _ => 0.05
                    end
                | Raise _ => 0.05
                end
            | Raise _ => 0.05
            end
        | Raise _ => 0.05
        end
      else 0.05
  | None => 0.05
  end.

Definition two_pow_30 : Q := inject_Z (1024 ^ 3).

(** get_system_metrics *)
Definition get_system_metrics (self : engine) (sample : option psutil_sample)
  (now : Q) : SystemMetrics * engine :=
  match sample with
  | Some s =>
      let metrics := {|
        cpu_percent := ps_cpu s;
        memory_percent := ps_memory s;
        disk_io_percent :=
          py_min 100 (inject_Z (ps_disk_read s + ps_disk_write s) / two_pow_30);
        network_io_percent :=
          py_min 100 (inject_Z (ps_net_sent s + ps_net_recv s) / two_pow_30);
        active_connections := _get_active_connections self now;
        response_time_avg := _get_avg_response_time self now;
        error_rate := _get_error_rate self now;
        timestamp := now
      |} in
      (metrics,
       {| redis_client := redis_client self;
          system_metrics_cache := Some metrics;
          config := config self |})
  | None =>
      ({| cpu_percent := 50.0; memory_percent := 60.0; disk_io_percent := 30.0;
          network_io_percent := 20.0; active_connections := 100%Z;
          response_time_avg := 100.0; error_rate := 0.05; timestamp := now |},
       self)
  end.

Definition circuit_key (endpoint : string) : string := "circuit_breaker:" +:+ endpoint.

Definition is_text (v : option Redis.scalar) (s : string) : bool :=
  match v with Some (Redis.SText t) => String.eqb t s | _ => false end.

(** _should_apply_circuit_breaker.  Every exception inside the [try] ends in
    [return False]; what was written to Redis before it stays written.
    [now - open_time] is the exact difference; the float difference of the
    code is the float nearest to it, and the same number whenever
    [open_time <= now <= 2 * open_time]. *)
Definition _should_apply_circuit_breaker (self : engine) (endpoint : string)
  (sample : option psutil_sample) (now : Q) : bool * engine :=
  match redis_client self with
  | None => (false, self)
  | Some c =>
      if negb (Redis.alive c) then (false, self) else
      match Redis.hgetall (Redis.data c) (circuit_key endpoint) now with
      | Raise _ => (false, self)
      | Ok circuit_state =>
          let check_open (_ : unit) :=
            let '(metrics, self1) := get_system_metrics self sample now in
            if Qltb (circuit_breaker_threshold (config self)) (error_rate metrics) then
              match Redis.hset (Redis.data c) (circuit_key endpoint)
                      [("state", Redis.SText "open");
                       ("open_time", Redis.SFloat now);
                       ("error_rate", Redis.SFloat (error_rate metrics))] now with
              | (Raise _, d1) => (false, with_redis self1 d1)
              | (Ok _, d1) =>
                  let d2 := Redis.expire d1 (circuit_key endpoint)
                              (inject_Z (circuit_breaker_duration (config self) * 2)) now in
                  (true, with_redis self1 d2)
              end
            else (false, self1) in
          if bool_decide (circuit_state = ∅) then check_open tt
          else if is_text (circuit_state !! "state") "open" then
            match Redis.float_of (default (Redis.SInt 0%Z) (circuit_state !! "open_time")) with
            | Raise _ => (false, self)
            | Ok open_time =>
                if Qltb (inject_Z (circuit_breaker_duration (config self))) (now - open_time)
                then
                  match Redis.hset (Redis.data c) (circuit_key endpoint)
                          [("state", Redis.SText "half_open")] now with
                  | (_, d1) => (false, with_redis self d1)
                  end
                else (true, self)
            end
          else if is_text (circuit_state !! "state") "half_open" then (false, self)
          else check_open tt
      end
  end.

(** reset_circuit_breaker *)
Definition reset_circuit_breaker (self : engine) (endpoint : string) (now : Q)
  : bool * engine :=
  match redis_client self with
  | None => (false, self)
  | Some c =>
      if negb (Redis.alive c) then (false, self) else
      match Redis.hset (Redis.data c) (circuit_key endpoint)
              [("state", Redis.SText "closed")] now with
      | (Ok _, d1) => (true, with_redis self d1)
      | (Raise _, d1) => (false, with_redis self d1)
      end
  end.

(** _get_tenant_behavior_multiplier *)
Definition _get_tenant_behavior_multiplier (self : engine) (tenant_id : string)
  (now : Q) : Q :=
  match redis_client self with
  | None => 1.0
  | Some c =>
      if negb (truthy tenant_id) then 1.0
      else if negb (Redis.alive c) then 1.0
      else
        match Redis.hgetall (Redis.data c) ("tenant_behavior:" +:+ tenant_id) now with
        | Raise _ => 1.0
        | Ok behavior_data =>
            if bool_decide (behavior_data = ∅) then 1.0 else
            match Redis.float_of (default (Redis.SInt 100%Z) (behavior_data !! "avg_response_time")),
                  Redis.float_of (default (Redis.SInt 0%Z) (behavior_data !! "error_rate")),
                  Redis.float_of (default (Redis.SInt 0%Z) (behavior_data !! "abuse_score")) with
            | Ok avg_response_time, Ok error_rate, Ok abuse_score =>
                if Qltb error_rate 0.01 && Qltb avg_response_time 200 && Qltb abuse_score 0.1
                then 1.2
                else if Qltb 0.05 error_rate || Qltb 0.5 abuse_score
                then 0.7
                else 1.0
            | _, _, _ => 1.0
            end
        end
  end.

Definition category_adjustments (endpoint_category : string) : option Q :=
  if String.eqb endpoint_category "expensive" then Some 0.8
  else if String.eqb endpoint_category "standard" then Some 1.0
  else if String.eqb endpoint_category "auth" then Some 1.1
  else if String.eqb endpoint_category "admin" then Some 0.9
  else None.

(** _calculate_adaptive_multiplier *)
Definition _calculate_adaptive_multiplier (self : engine) (endpoint_category : string)
  (tenant_id : string) (sample : option psutil_sample) (now : Q) : Q * engine :=
  let '(metrics, self1) := get_system_metrics self sample now in
  let load_level := get_load_level metrics in
  let base_multiplier := load_multipliers (config self1) load_level in
  let category_multiplier := default 1.0 (category_adjustments endpoint_category) in
  let tenant_multiplier := _get_tenant_behavior_multiplier self1 tenant_id now in
  let final_multiplier := (base_multiplier * category_multiplier * tenant_multiplier)%Q in
  (py_max 0.1 (py_min 2.0 final_multiplier), self1).

(** [pattern in s] for strings: [pattern] occurs somewhere in [s]. *)
Fixpoint str_contains (pattern s : string) : bool :=
  String.prefix pattern s
  || match s with
     | EmptyString => false
     | String _ rest => str_contains pattern rest
     end.

(** _is_endpoint_whitelisted *)
Definition _is_endpoint_whitelisted (self : engine) (endpoint : string) : bool :=
  existsb (fun pattern => str_contains pattern endpoint) (whitelist_patterns (config self)).

(** _is_endpoint_blacklisted *)
Definition _is_endpoint_blacklisted (self : engine) (endpoint : string) : bool :=
  existsb (fun pattern => str_contains pattern endpoint) (blacklist_patterns (config self)).

(** The pipeline [_update_tenant_behavior] queues. *)
Definition behavior_pipeline (tenant_id : string) (response_time : Q) (had_error : bool)
  : list Redis.command :=
  let behavior_key := "tenant_behavior:" +:+ tenant_id in
  [Redis.LPUSH (behavior_key +:+ ":response_times") (Redis.SFloat response_time);
   Redis.LTRIM0 (behavior_key +:+ ":response_times") 99]
  ++ (if had_error then [Redis.INCR (behavior_key +:+ ":errors")] else [])
  ++ [Redis.INCR (behavior_key +:+ ":requests");
      Redis.EXPIRE behavior_key 86400;
      Redis.EXPIRE (behavior_key +:+ ":response_times") 86400;
      Redis.EXPIRE (behavior_key +:+ ":errors") 86400;
      Redis.EXPIRE (behavior_key +:+ ":requests") 86400].

(** _update_tenant_behavior: what [execute] raises is logged and dropped. *)
Definition _update_tenant_behavior (self : engine) (tenant_id : string)
  (response_time : Q) (had_error : bool) (now : Q) : engine :=
  match redis_client self with
  | None => self
  | Some c =>
      if negb (truthy tenant_id) then self
      else if negb (Redis.alive c) then self
      else
        with_redis self
          (snd (Redis.execute (Redis.data c)
                  (behavior_pipeline tenant_id response_time had_error) now))
  end.

(** The pipeline [record_request_metrics] queues. *)
Definition metrics_pipeline (endpoint : string) (response_time : Q) (status_code : Z)
  : list Redis.command :=
  let endpoint_key := "endpoint_metrics:" +:+ endpoint in
  [Redis.LPUSH "response_times" (Redis.SFloat response_time);
   Redis.LTRIM0 "response_times" 999;
   Redis.INCR "request_count";
   Redis.EXPIRE "request_count" 3600]
  ++ (if (400 <=? status_code)%Z
      then [Redis.INCR "error_count"; Redis.EXPIRE "error_count" 3600]
      else [])
  ++ [Redis.HINCRBY endpoint_key "requests" 1;
      Redis.HINCRBYFLOAT endpoint_key "total_response_time" response_time]
  ++ (if (400 <=? status_code)%Z then [Redis.HINCRBY endpoint_key "errors" 1] else [])
  ++ [Redis.EXPIRE endpoint_key 3600].

(** record_request_metrics: when [execute] raises, the tenant's behaviour is
    not updated. *)
Definition record_request_metrics (self : engine) (tenant_id endpoint : string)
  (response_time : Q) (status_code : Z) (now : Q) : engine :=
  match redis_client self with
  | None => self
  | Some c =>
      if negb (Redis.alive c) then self
      else
        match Redis.execute (Redis.data c)
                (metrics_pipeline endpoint response_time status_code) now with
        | (Ok _, d) =>
            _update_tenant_behavior (with_redis self d) tenant_id response_time
              (400 <=? status_code)%Z now
        | (Raise _, d) => with_redis self d
        end
  end.

(** The dictionary [calculate_dynamic_limits] returns. *)
Record dynamic_limits := mk_dynamic {
  dyn_requests_per_minute : Z;
  dyn_burst_capacity : Z;
  dyn_concurrent_requests : Z
}.

(** calculate_dynamic_limits.  [psutil] is sampled once for the circuit
    breaker ([sample_cb]) and once more for the multiplier ([sample]). *)
Definition calculate_dynamic_limits (self : engine)
  (subscription_plan endpoint_category tenant_id endpoint : string)
  (sample_cb sample : option psutil_sample) (now : Q)
  : result dynamic_limits * engine :=
  if _is_endpoint_whitelisted self endpoint
  then (Ok (mk_dynamic 10000 1000 500), self)
  else
    match RateLimiting.assoc subscription_plan RateLimiting.SUBSCRIPTION_LIMITS with
    | None => (Raise KeyError, self)
    | Some base_config =>
        let '(blocked, self1) := _should_apply_circuit_breaker self endpoint sample_cb now in
        if blocked then (Ok (mk_dynamic 0 0 0), self1)
        else
          let '(multiplier, self2) :=
            match strategy (config self1) with
            | FIXED => (1.0, self1)
            | ADAPTIVE =>
                let '(metrics, self2) := get_system_metrics self1 sample now in
                (load_multipliers (config self2) (get_load_level metrics), self2)
            | INTELLIGENT =>
                _calculate_adaptive_multiplier self1 endpoint_category tenant_id sample now
            | CIRCUIT_BREAKER => (1.0, self1)
            end in
          let multiplier :=
            if _is_endpoint_blacklisted self2 endpoint then multiplier * 0.5
            else multiplier in
          let base_rpm := RateLimiting.endpoint_limit base_config endpoint_category in
          (Ok (mk_dynamic
                 (Z.max 1 (py_int (inject_Z base_rpm * multiplier)))
                 (Z.max 1 (py_int (inject_Z (RateLimiting.burst_capacity base_config)
                                   * multiplier * burst_multiplier (config self2))))
                 (Z.max 1 (py_int (inject_Z (RateLimiting.concurrent_requests base_config)
                                   * multiplier)))),
           self2)
    end.

(** One call of [record_request_metrics]: its arguments and the time. *)
Record recorded := mk_recorded {
  rec_tenant : string;
  rec_endpoint : string;
  rec_response_time : Q;
  rec_status : Z;
  rec_time : Q
}.

(** [record_request_metrics] called for each of [requests] in turn. *)
Definition record_all (self : engine) (requests : list recorded) : engine :=
  fold_left (fun s r => record_request_metrics s (rec_tenant r) (rec_endpoint r)
                          (rec_response_time r) (rec_status r) (rec_time r))
            requests self.

(** [_should_apply_circuit_breaker] called once at each of [times], [psutil]
    reporting [sample] throughout. *)
Fixpoint circuit_breaker_at (self : engine) (endpoint : string)
  (sample : option psutil_sample) (times : list Q) : list bool * engine :=
  match times with
  | [] => ([], self)
  | now :: times =>
      let '(blocked, self1) := _should_apply_circuit_breaker self endpoint sample now in
      let '(rest, self2) := circuit_breaker_at self1 endpoint sample times in
      (blocked :: rest, self2)
  end.

End Throttling.

(** * Properties *)

(** ** Floats, Redis *)

Section PyFacts.
Import Py.

Lemma Qltb_lt (a b : Q) : Qltb a b = true <-> (a < b)%Q.
Proof. unfold Qltb, Qlt. apply Z.ltb_lt. Qed.

Lemma Qltb_ge (a b : Q) : Qltb a b = false <-> (b <= a)%Q.
Proof. unfold Qltb, Qle. apply Z.ltb_ge. Qed.

Lemma Qltb_cases (a b : Q) :
  (Qltb a b = true /\ (a < b)%Q) \/ (Qltb a b = false /\ (b <= a)%Q).
Proof.
  destruct (Qltb a b) eqn:E.
  - left. split; [reflexivity | now apply Qltb_lt].
  - right. split; [reflexivity | now apply Qltb_ge].
Qed.

Lemma Qltb_flip (a b : Q) : ~ (a == b)%Q -> Qltb a b = negb (Qltb b a).
Proof.
  intros Hne.
  destruct (Qltb_cases a b) as [[-> H1] | [-> H1]];
    destruct (Qltb_cases b a) as [[-> H2] | [-> H2]]; try reflexivity; exfalso.
  - lra.
  - apply Hne. apply Qle_antisym; assumption.
Qed.

Lemma py_clamp_bounds (lo hi x : Q) :
  (lo <= hi)%Q -> (lo <= py_max lo (py_min hi x))%Q /\ (py_max lo (py_min hi x) <= hi)%Q.
Proof.
  intros Hlh. unfold py_max, py_min.
  destruct (Qltb_cases x hi) as [[-> Hx] | [-> Hx]];
    destruct (Qltb_cases lo x) as [[E1 H1] | [E1 H1]];
    destruct (Qltb_cases lo hi) as [[E2 H2] | [E2 H2]];
    rewrite ?E1, ?E2; split; lra.
Qed.

End PyFacts.

Section RedisFacts.
Import Py.
Local Open Scope Q_scope.

Lemma peek_insert_eq (d : gmap string Redis.entry) (k : string) (e : Redis.entry) (now : Q) :
  Redis.peek (<[k := e]> d) k now = if Redis.is_live now e then Some e else None.
Proof. unfold Redis.peek. now rewrite lookup_insert_eq. Qed.

Lemma peek_insert_ne (d : gmap string Redis.entry) (k k' : string) (e : Redis.entry) (now : Q) :
  k <> k' -> Redis.peek (<[k := e]> d) k' now = Redis.peek d k' now.
Proof. intros H. unfold Redis.peek. now rewrite lookup_insert_ne. Qed.

Lemma peek_live (d : gmap string Redis.entry) (k : string) (e : Redis.entry) (now : Q) :
  Redis.peek d k now = Some e -> Redis.is_live now e = true.
Proof.
  unfold Redis.peek. destruct (d !! k) as [e'|]; [|discriminate].
  destruct (Redis.is_live now e') eqn:E; [|discriminate].
  intros [= <-]. exact E.
Qed.

Lemma hgetall_insert_hash (d : gmap string Redis.entry) (k : string)
  (h : gmap string Redis.scalar) (x : option Q) (now : Q) :
  Redis.is_live now (Redis.mk_entry (Redis.RHash h) x) = true ->
  Redis.hgetall (<[k := Redis.mk_entry (Redis.RHash h) x]> d) k now = Ok h.
Proof. intros L. unfold Redis.hgetall. rewrite peek_insert_eq, L. reflexivity. Qed.

Lemma hset_after_hgetall (d : gmap string Redis.entry) (k : string)
  (h : gmap string Redis.scalar) (fields : list (string * Redis.scalar)) (now : Q) :
  Redis.hgetall d k now = Ok h ->
  exists x,
    Redis.is_live now (Redis.mk_entry (Redis.RHash (Redis.set_fields h fields)) x) = true /\
    Redis.hset d k fields now
    = (Ok tt, <[k := Redis.mk_entry (Redis.RHash (Redis.set_fields h fields)) x]> d).
Proof.
  unfold Redis.hgetall, Redis.hset.
  destruct (Redis.peek d k now) as [e|] eqn:Hp.
  - destruct e as [[v|h'|l] x]; cbn [Redis.value Redis.expiry]; try discriminate.
    intros [= ->]. exists x. split; [|reflexivity].
    exact (peek_live _ _ _ _ Hp).
  - intros [= <-]. exists None. split; reflexivity.
Qed.

Lemma expire_after_insert (d : gmap string Redis.entry) (k : string) (v : Redis.rvalue)
  (x : option Q) (ttl now : Q) :
  Redis.is_live now (Redis.mk_entry v x) = true ->
  Redis.expire (<[k := Redis.mk_entry v x]> d) k ttl now
  = <[k := Redis.mk_entry v (Some (now + ttl))]> d.
Proof.
  intros L. unfold Redis.expire. rewrite peek_insert_eq, L.
  cbn [Redis.value]. apply insert_insert_eq.
Qed.

Lemma setex_ok (d : gmap string Redis.entry) (k : string) (ttl : Q) (v : Redis.scalar)
  (now : Q) :
  0 < ttl ->
  Redis.setex d k ttl v now
  = (Ok tt, <[k := Redis.mk_entry (Redis.RStr v) (Some (now + ttl))]> d).
Proof. intros H. unfold Redis.setex. apply Qltb_lt in H. now rewrite H. Qed.

Lemma setex_refused (d : gmap string Redis.entry) (k : string) (ttl : Q) (v : Redis.scalar)
  (now : Q) :
  ttl <= 0 -> Redis.setex d k ttl v now = (Raise RedisError, d).
Proof. intros H. unfold Redis.setex. apply Qltb_ge in H. now rewrite H. Qed.

Lemma setex_cases (d : gmap string Redis.entry) (k : string) (ttl : Q) (v : Redis.scalar)
  (now : Q) :
  (0 < ttl /\ Redis.setex d k ttl v now
              = (Ok tt, <[k := Redis.mk_entry (Redis.RStr v) (Some (now + ttl))]> d)) \/
  (ttl <= 0 /\ Redis.setex d k ttl v now = (Raise RedisError, d)).
Proof.
  destruct (Qlt_le_dec 0 ttl) as [H|H]; [left | right]; (split; [exact H|]).
  - now apply setex_ok.
  - now apply setex_refused.
Qed.

Lemma inject_Z_pos (z : Z) : (0 < z)%Z -> 0 < inject_Z z.
Proof. intros H. change 0 with (inject_Z 0). now rewrite <- Zlt_Qlt. Qed.

Lemma inject_Z_pos_inv (z : Z) : 0 < inject_Z z -> (0 < z)%Z.
Proof. intros H. change 0 with (inject_Z 0) in H. now rewrite <- Zlt_Qlt in H. Qed.

Lemma live_until_later (v : Redis.rvalue) (ttl now : Q) :
  0 < ttl -> Redis.is_live now (Redis.mk_entry v (Some (now + ttl))) = true.
Proof. intros H. cbn. apply Qltb_lt. lra. Qed.

End RedisFacts.

(** ** System load level *)

Section LoadLevel.
Import Py Throttling.
Local Open Scope Q_scope.

(** The classification in the specification's words: low when cpu<30 and
    mem<50; medium when cpu<70 and mem<80; high when cpu<90 and mem<95;
    critical otherwise. *)
Definition stated_load_level (cpu mem : Q) : SystemLoadLevel :=
  if Qltb cpu 30 && Qltb mem 50 then LOW
  else if Qltb cpu 70 && Qltb mem 80 then MEDIUM
  else if Qltb cpu 90 && Qltb mem 95 then HIGH
  else CRITICAL.

Definition sample_at (cpu mem : Q) : SystemMetrics :=
  mk_metrics cpu mem 0 0 0 0 0 0.

(** C8, as stated, fails at the top thresholds: at cpu = 90 and at mem = 95
    the code reports high, as its own comment on the levels has it
    ("> 90% CPU, > 95% Memory" is critical), the stated thresholds
    critical. *)
Lemma load_level_boundary_counterexample :
  (get_load_level (sample_at 90 0) = HIGH /\ stated_load_level 90 0 = CRITICAL) /\
  (get_load_level (sample_at 0 95) = HIGH /\ stated_load_level 0 95 = CRITICAL).
Proof. repeat split; reflexivity. Qed.

(** C8, amended: critical iff cpu > 90 or mem > 95, so that 90 and 95 still
    count as high; below that the levels are as stated: low iff cpu < 30 and
    mem < 50; medium iff cpu < 70 and mem < 80 and not low; high iff
    cpu <= 90 and mem <= 95 and not medium or low.  The readings cpu = 30,
    cpu = 70, mem = 50 and mem = 80 are left out: there the code reports the
    lower level, against its own comment for 30 and 50 ("LOW: < 30% CPU,
    < 50% Memory"). *)
Theorem load_level_thresholds (m : SystemMetrics) :
  let cpu := cpu_percent m in
  let mem := memory_percent m in
  ~ cpu == 30 -> ~ mem == 50 -> ~ cpu == 70 -> ~ mem == 80 ->
  (get_load_level m = LOW <-> cpu < 30 /\ mem < 50) /\
  (get_load_level m = MEDIUM <->
     (cpu < 70 /\ mem < 80) /\ ~ (cpu < 30 /\ mem < 50)) /\
  (get_load_level m = HIGH <->
     (cpu <= 90 /\ mem <= 95) /\ ~ (cpu < 70 /\ mem < 80)) /\
  (get_load_level m = CRITICAL <-> (90 < cpu \/ 95 < mem)).
Proof.
  intros cpu mem c30 m50 c70 m80. unfold get_load_level. fold cpu mem.
  destruct (Qltb_cases 90 cpu) as [[-> H90] | [-> H90]];
    destruct (Qltb_cases 95 mem) as [[-> H95] | [-> H95]];
    destruct (Qltb_cases 70 cpu) as [[-> H70] | [-> H70]];
    destruct (Qltb_cases 80 mem) as [[-> H80] | [-> H80]];
    destruct (Qltb_cases 30 cpu) as [[-> H30] | [-> H30]];
    destruct (Qltb_cases 50 mem) as [[-> H50] | [-> H50]];
    cbn [orb];
    assert (K30 : cpu <= 30 -> cpu < 30)
      by (intros L; destruct (Qle_lt_or_eq _ _ L); [assumption | contradiction]);
    assert (K50 : mem <= 50 -> mem < 50)
      by (intros L; destruct (Qle_lt_or_eq _ _ L); [assumption | contradiction]);
    assert (K70 : cpu <= 70 -> cpu < 70)
      by (intros L; destruct (Qle_lt_or_eq _ _ L); [assumption | contradiction]);
    assert (K80 : mem <= 80 -> mem < 80)
      by (intros L; destruct (Qle_lt_or_eq _ _ L); [assumption | contradiction]);
    repeat split;
    try discriminate; try reflexivity; try lra; auto;
    try (intros [[? ?] ?]; lra);
    try (intros [? | ?]; lra);
    try (intros [? ?]; lra);
    try (intros _; intros [? ?]; lra);
    try (left; lra); try (right; lra).
Qed.

Lemma load_level_thresholds_witness :
  (get_load_level (sample_at 90 60) = LOW <-> 90 < 30 /\ 60 < 50) /\
  (get_load_level (sample_at 90 60) = MEDIUM <->
     (90 < 70 /\ 60 < 80) /\ ~ (90 < 30 /\ 60 < 50)) /\
  (get_load_level (sample_at 90 60) = HIGH <->
     (90 <= 90 /\ 60 <= 95) /\ ~ (90 < 70 /\ 60 < 80)) /\
  (get_load_level (sample_at 90 60) = CRITICAL <-> (90 < 90 \/ 95 < 60)).
Proof.
  apply (load_level_thresholds (sample_at 90 60));
    intros H; vm_compute in H; discriminate H.
Defined.

(** Away from the six boundary values the code and the stated thresholds
    agree. *)
Lemma load_level_agrees_off_boundary (m : SystemMetrics) :
  ~ (cpu_percent m == 30) -> ~ (cpu_percent m == 70) -> ~ (cpu_percent m == 90) ->
  ~ (memory_percent m == 50) -> ~ (memory_percent m == 80) -> ~ (memory_percent m == 95) ->
  get_load_level m = stated_load_level (cpu_percent m) (memory_percent m).
Proof.
  intros c30 c70 c90 m50 m80 m95. unfold get_load_level, stated_load_level.
  rewrite (Qltb_flip 90 (cpu_percent m)), (Qltb_flip 70 (cpu_percent m)),
    (Qltb_flip 30 (cpu_percent m)), (Qltb_flip 95 (memory_percent m)),
    (Qltb_flip 80 (memory_percent m)), (Qltb_flip 50 (memory_percent m))
    by (intros E; symmetry in E; contradiction).
  destruct (Qltb_cases (cpu_percent m) 30) as [[-> ?] | [-> ?]];
    destruct (Qltb_cases (cpu_percent m) 70) as [[-> ?] | [-> ?]];
    destruct (Qltb_cases (cpu_percent m) 90) as [[-> ?] | [-> ?]];
    destruct (Qltb_cases (memory_percent m) 50) as [[-> ?] | [-> ?]];
    destruct (Qltb_cases (memory_percent m) 80) as [[-> ?] | [-> ?]];
    destruct (Qltb_cases (memory_percent m) 95) as [[-> ?] | [-> ?]];
    cbn [orb andb negb]; first [reflexivity | exfalso; lra].
Qed.

Lemma load_level_agrees_off_boundary_witness :
  get_load_level (sample_at 45 60) = stated_load_level 45 60.
Proof.
  apply (load_level_agrees_off_boundary (sample_at 45 60));
    intros H; vm_compute in H; discriminate.
Defined.

End LoadLevel.

(** ** Adaptive multiplier *)

Section AdaptiveMultiplier.
Import Py Throttling.
Local Open Scope Q_scope.

Lemma tenant_behavior_multiplier_values (self : engine) (tenant_id : string) (now : Q) :
  let t := _get_tenant_behavior_multiplier self tenant_id now in
  t = 1.2 \/ t = 0.7 \/ t = 1.0.
Proof.
  cbv zeta. unfold _get_tenant_behavior_multiplier.
  repeat match goal with
  | |- context [match ?x with _ => _ end] => destruct x
  | |- context [if ?b then _ else _] => destruct b
  end; auto.
Qed.

Lemma category_adjustment_values (endpoint_category : string) :
  let c := default 1.0 (category_adjustments endpoint_category) in
  c = 0.8 \/ c = 1.0 \/ c = 1.1 \/ c = 0.9.
Proof.
  cbv zeta. unfold category_adjustments.
  repeat match goal with
  | |- context [if ?b then _ else _] => destruct b
  end; cbn [default]; auto.
Qed.

(** C6: whatever the sampled load, the endpoint category, the tenant's
    recorded behaviour and the engine's configuration, the multiplier that
    [_calculate_adaptive_multiplier] returns lies in [0.1, 2.0]. *)
Theorem adaptive_multiplier_bounds (self : engine) (endpoint_category tenant_id : string)
  (sample : option psutil_sample) (now : Q) :
  let m := fst (_calculate_adaptive_multiplier self endpoint_category tenant_id sample now) in
  0.1 <= m /\ m <= 2.0.
Proof.
  cbv zeta. unfold _calculate_adaptive_multiplier.
  destruct (get_system_metrics self sample now) as [metrics self1].
  cbn [fst]. apply py_clamp_bounds. lra.
Qed.

(** With the multiplier tables of the constructor the product of the three
    factors already lies in [0.168, 1.584]: the clamp never changes it. *)
Lemma adaptive_multiplier_is_product (r : option Redis.conn) (cache : option SystemMetrics)
  (endpoint_category tenant_id : string) (sample : option psutil_sample) (now : Q) :
  let self := mk_engine r cache default_config in
  let load := get_load_level (fst (get_system_metrics self sample now)) in
  fst (_calculate_adaptive_multiplier self endpoint_category tenant_id sample now)
  = load_multipliers default_config load
    * default 1.0 (category_adjustments endpoint_category)
    * _get_tenant_behavior_multiplier (snd (get_system_metrics self sample now)) tenant_id now.
Proof.
  cbv zeta. unfold _calculate_adaptive_multiplier.
  destruct (get_system_metrics (mk_engine r cache default_config) sample now)
    as [metrics self1] eqn:E.
  assert (Hc : config self1 = default_config).
  { unfold get_system_metrics in E. destruct sample; inversion E; reflexivity. }
  cbn [fst snd]. rewrite Hc.
  destruct (tenant_behavior_multiplier_values self1 tenant_id now) as [-> | [-> | ->]];
    destruct (category_adjustment_values endpoint_category) as [-> | [-> | [-> | ->]]];
    destruct (get_load_level metrics); reflexivity.
Qed.

End AdaptiveMultiplier.

(** ** Circuit breaker *)

Section CircuitBreaker.
Import Py Throttling.
Local Open Scope Q_scope.

Inductive breaker := closed | open | half_open.

(** The state a stored hash stands for: [cb_data.get('state', 'closed')],
    where only 'open' and 'half_open' are ever tested for. *)
Definition breaker_of (h : gmap string Redis.scalar) : breaker :=
  if is_text (h !! "state") "open" then open
  else if is_text (h !! "state") "half_open" then half_open
  else closed.

(** The breaker of [endpoint] as the engine sees it at [now]; a missing or
    expired key is a closed breaker. *)
Definition circuit_state (self : engine) (endpoint : string) (now : Q) : breaker :=
  match redis_client self with
  | Some c =>
      match Redis.hgetall (Redis.data c) (circuit_key endpoint) now with
      | Ok h => breaker_of h
      | Raise _ => closed
      end
  | None => closed
  end.

(** The transitions the specification permits. *)
Definition permitted (s s' : breaker) : bool :=
  match s, s' with
  | closed, open | open, half_open | half_open, closed | half_open, open => true
  | _, _ => false
  end.

Lemma is_text_open_not_half (v : option Redis.scalar) :
  is_text v "open" = true -> is_text v "half_open" = false.
Proof.
  destruct v as [[| |t|]|]; cbn; try discriminate.
  intros H. apply String.eqb_eq in H. now subst.
Qed.

Lemma breaker_of_set_state (h : gmap string Redis.scalar) (t : string)
  (rest : list (string * Redis.scalar)) :
  Forall (fun fv => fst fv <> "state") rest ->
  (Redis.set_fields h (("state", Redis.SText t) :: rest)) !! "state" = Some (Redis.SText t).
Proof.
  unfold Redis.set_fields. cbn [fold_left fst snd].
  generalize (<["state" := Redis.SText t]> h) (lookup_insert_eq h "state" (Redis.SText t)).
  induction rest as [|[f v] rest IH]; intros g Hg Hall; cbn [fold_left fst snd].
  - exact Hg.
  - inversion Hall as [|? ? Hf Hrest]; subst. apply IH; [|exact Hrest].
    rewrite lookup_insert_ne; [exact Hg | exact Hf].
Qed.

(** The engine of the running example: Redis up, 50 errors in 100 requests
    recorded, nothing else stored. *)
Definition storm_engine : engine :=
  mk_engine
    (Some (Redis.mk_conn true
       (<["error_count" := Redis.mk_entry (Redis.RStr (Redis.SInt 50)) None]>
          (<["request_count" := Redis.mk_entry (Redis.RStr (Redis.SInt 100)) None]> ∅))))
    None default_config.

Definition calm_sample : option psutil_sample := Some (mk_sample 10 10 0 0 0 0).

Definition after_calls (self : engine) (endpoint : string) (times : list Q) : engine :=
  fold_left (fun e t => snd (_should_apply_circuit_breaker e endpoint calm_sample t)) times self.

(** C2, as stated, fails on the trace trip at t=1000, calls at t=1061 and
    t=1062, and a manual reset at t=1010: the reset moves an open breaker
    to closed, which is not among the permitted transitions, and is what
    [reset_circuit_breaker] is for.  The trace also shows the half_open
    branch at work: the second call in half_open is let through as well and
    the breaker stays half_open although the error rate is still 50%; there
    the code does less than its own comment ("Allow limited requests to test
    if service recovered"). *)
Lemma circuit_breaker_counterexample :
  let ep := "/api/courses" in
  let e1 := after_calls storm_engine ep [1000] in
  let e2 := after_calls storm_engine ep [1000; 1061] in
  let e3 := after_calls storm_engine ep [1000; 1061; 1062] in
  (circuit_state storm_engine ep 1000 = closed /\
   fst (_should_apply_circuit_breaker storm_engine ep calm_sample 1000) = true /\
   circuit_state e1 ep 1000 = open) /\
  (fst (_should_apply_circuit_breaker e1 ep calm_sample 1061) = false /\
   circuit_state e2 ep 1061 = half_open) /\
  (Qltb (circuit_breaker_threshold (config e2))
        (error_rate (fst (get_system_metrics e2 calm_sample 1062))) = true /\
   fst (_should_apply_circuit_breaker e2 ep calm_sample 1062) = false /\
   circuit_state e3 ep 1062 = half_open) /\
  (circuit_state e1 ep 1010 = open /\
   fst (reset_circuit_breaker e1 ep 1010) = true /\
   circuit_state (snd (reset_circuit_breaker e1 ep 1010)) ep 1010 = closed /\
   permitted open closed = false).
Proof. cbv zeta. repeat split; vm_compute; reflexivity. Qed.

Lemma get_system_metrics_keeps (self : engine) (sample : option psutil_sample) (now : Q) :
  redis_client (snd (get_system_metrics self sample now)) = redis_client self.
Proof. unfold get_system_metrics. destruct sample; reflexivity. Qed.

Lemma breaker_of_empty : breaker_of ∅ = closed.
Proof. reflexivity. Qed.

Lemma reset_leaves_closed (self : engine) (endpoint : string) (now : Q) :
  fst (reset_circuit_breaker self endpoint now) = true ->
  circuit_state (snd (reset_circuit_breaker self endpoint now)) endpoint now = closed.
Proof.
  unfold reset_circuit_breaker, circuit_state.
  destruct (redis_client self) as [c|] eqn:Hc; [|discriminate].
  destruct (Redis.alive c); cbn [negb]; [|discriminate].
  destruct (Redis.hgetall (Redis.data c) (circuit_key endpoint) now) as [h|e] eqn:Hh.
  - destruct (hset_after_hgetall _ _ _ [("state", Redis.SText "closed")] _ Hh)
      as (x & L & ->).
    intros _. cbn [fst snd]. unfold with_redis. rewrite Hc.
    cbn [redis_client option_map Redis.data].
    rewrite (hgetall_insert_hash _ _ _ _ _ L).
    unfold breaker_of. rewrite breaker_of_set_state by constructor. reflexivity.
  - unfold Redis.hgetall in Hh. unfold Redis.hset.
    destruct (Redis.peek (Redis.data c) (circuit_key endpoint) now) as [[[v|h|l] x]|];
      cbn [Redis.value] in *; try discriminate.
Qed.

(** [float(circuit_state.get('open_time', 0))] of the stored breaker. *)
Definition stored_open_time (self : engine) (endpoint : string) (now : Q) : result Q :=
  match redis_client self with
  | Some c =>
      match Redis.hgetall (Redis.data c) (circuit_key endpoint) now with
      | Ok h => Redis.float_of (default (Redis.SInt 0%Z) (h !! "open_time"))
      | Raise e => Raise e
      end
  | None => Raise AttributeError
  end.

(** The four things a call can do. *)
Inductive cb_outcome (self : engine) (endpoint : string) (sample : option psutil_sample)
  (now : Q) (s s' : breaker) (blocked : bool) : Prop :=
| cb_pass : s' = s -> blocked = false -> cb_outcome self endpoint sample now s s' blocked
| cb_tripped :
    s = closed -> s' = open -> blocked = true ->
    circuit_breaker_threshold (config self)
      < error_rate (fst (get_system_metrics self sample now)) ->
    cb_outcome self endpoint sample now s s' blocked
| cb_blocked t :
    s = open -> s' = open -> blocked = true ->
    stored_open_time self endpoint now = Ok t ->
    now - t <= inject_Z (circuit_breaker_duration (config self)) ->
    cb_outcome self endpoint sample now s s' blocked
| cb_probe t :
    s = open -> s' = half_open -> blocked = false ->
    stored_open_time self endpoint now = Ok t ->
    inject_Z (circuit_breaker_duration (config self)) < now - t ->
    cb_outcome self endpoint sample now s s' blocked.

Lemma trip_block (self : engine) (c : Redis.conn) (endpoint : string)
  (sample : option psutil_sample) (now : Q) (h : gmap string Redis.scalar) :
  (0 < circuit_breaker_duration (config self))%Z ->
  redis_client self = Some c ->
  Redis.hgetall (Redis.data c) (circuit_key endpoint) now = Ok h ->
  breaker_of h = closed ->
  let r :=
    let '(metrics, self1) := get_system_metrics self sample now in
    if Qltb (circuit_breaker_threshold (config self)) (error_rate metrics) then
      match Redis.hset (Redis.data c) (circuit_key endpoint)
              [("state", Redis.SText "open");
               ("open_time", Redis.SFloat now);
               ("error_rate", Redis.SFloat (error_rate metrics))] now with
      | (Raise _, d1) => (false, with_redis self1 d1)
      | (Ok _, d1) =>
          let d2 := Redis.expire d1 (circuit_key endpoint)
                      (inject_Z (circuit_breaker_duration (config self) * 2)) now in
          (true, with_redis self1 d2)
      end
    else (false, self1) in
  cb_outcome self endpoint sample now closed (circuit_state (snd r) endpoint now) (fst r).
Proof.
  intros Hdur Hc Hh Hcl. cbv zeta.
  pose proof (get_system_metrics_keeps self sample now) as Hk.
  destruct (get_system_metrics self sample now) as [metrics self1] eqn:Hm.
  cbn [snd] in Hk.
  destruct (Qltb_cases (circuit_breaker_threshold (config self)) (error_rate metrics))
    as [[-> Hlt] | [-> Hge]].
  - destruct (hset_after_hgetall _ _ _
                [("state", Redis.SText "open"); ("open_time", Redis.SFloat now);
                 ("error_rate", Redis.SFloat (error_rate metrics))] _ Hh)
      as (x & L & ->).
    cbn [fst snd]. apply cb_tripped; try reflexivity.
    + unfold circuit_state, with_redis. rewrite Hk, Hc.
      cbn [redis_client option_map Redis.data].
      rewrite expire_after_insert by exact L.
      rewrite hgetall_insert_hash.
      * unfold breaker_of. rewrite breaker_of_set_state; [reflexivity|].
        repeat constructor; discriminate.
      * apply live_until_later. change 0 with (inject_Z 0). rewrite <- Zlt_Qlt. lia.
    + rewrite Hm. exact Hlt.
  - cbn [fst snd]. apply cb_pass; [|reflexivity].
    unfold circuit_state. rewrite Hk, Hc, Hh. exact Hcl.
Qed.

Lemma circuit_breaker_cases (self : engine) (endpoint : string)
  (sample : option psutil_sample) (now : Q) :
  (0 < circuit_breaker_duration (config self))%Z ->
  let r := _should_apply_circuit_breaker self endpoint sample now in
  cb_outcome self endpoint sample now
    (circuit_state self endpoint now) (circuit_state (snd r) endpoint now) (fst r).
Proof.
  intros Hdur. cbv zeta.
  unfold _should_apply_circuit_breaker.
  destruct (redis_client self) as [c|] eqn:Hc; [|now apply cb_pass].
  destruct (Redis.alive c) eqn:Ha; cbn [negb]; [|now apply cb_pass].
  destruct (Redis.hgetall (Redis.data c) (circuit_key endpoint) now) as [h|e] eqn:Hh;
    [|now apply cb_pass].
  assert (Hs : circuit_state self endpoint now = breaker_of h).
  { unfold circuit_state. now rewrite Hc, Hh. }
  rewrite Hs.
  destruct (bool_decide (h = ∅)) eqn:He.
  { apply bool_decide_eq_true in He. subst h. rewrite breaker_of_empty.
    now apply (trip_block self c endpoint sample now ∅). }
  unfold breaker_of.
  destruct (is_text (h !! "state") "open") eqn:Eo.
  - assert (Ht : stored_open_time self endpoint now
                 = Redis.float_of (default (Redis.SInt 0%Z) (h !! "open_time"))).
    { unfold stored_open_time. now rewrite Hc, Hh. }
    destruct (Redis.float_of (default (Redis.SInt 0%Z) (h !! "open_time")))
      as [open_time|] eqn:Ef.
    + destruct (Qltb_cases (inject_Z (circuit_breaker_duration (config self)))
                  (now - open_time)) as [[-> Hlt] | [-> Hge]].
      * destruct (hset_after_hgetall _ _ _ [("state", Redis.SText "half_open")] _ Hh)
          as (x & L & ->).
        cbn [fst snd]. apply (cb_probe _ _ _ _ _ _ _ open_time); try reflexivity;
          [|exact Ht|exact Hlt].
        unfold circuit_state, with_redis. rewrite Hc.
        cbn [redis_client option_map Redis.data].
        rewrite (hgetall_insert_hash _ _ _ _ _ L).
        unfold breaker_of. rewrite breaker_of_set_state by constructor. reflexivity.
      * cbn [fst snd]. apply (cb_blocked _ _ _ _ _ _ _ open_time); try reflexivity;
          [|exact Ht|exact Hge].
        rewrite Hs. unfold breaker_of. now rewrite Eo.
    + cbn [fst snd]. apply cb_pass; [|reflexivity].
      rewrite Hs. unfold breaker_of. now rewrite Eo.
  - destruct (is_text (h !! "state") "half_open") eqn:Eh.
    + cbn [fst snd]. apply cb_pass; [|reflexivity].
      rewrite Hs. unfold breaker_of. now rewrite Eo, Eh.
    + apply (trip_block self c endpoint sample now h); try assumption.
      unfold breaker_of. now rewrite Eo, Eh.
Qed.

(** Redis answers and the breaker's key can be read. *)
Definition breaker_readable (self : engine) (endpoint : string) (now : Q) : Prop :=
  exists c h,
    redis_client self = Some c /\ Redis.alive c = true /\
    Redis.hgetall (Redis.data c) (circuit_key endpoint) now = Ok h.

Lemma closed_breaker_trips (self : engine) (endpoint : string)
  (sample : option psutil_sample) (now : Q) :
  (0 < circuit_breaker_duration (config self))%Z ->
  breaker_readable self endpoint now ->
  circuit_state self endpoint now = closed ->
  circuit_breaker_threshold (config self)
    < error_rate (fst (get_system_metrics self sample now)) ->
  let r := _should_apply_circuit_breaker self endpoint sample now in
  fst r = true /\ circuit_state (snd r) endpoint now = open.
Proof.
  intros Hdur (c & h & Hc & Ha & Hh) Hcl Hrate. cbv zeta.
  unfold circuit_state in Hcl. rewrite Hc, Hh in Hcl.
  unfold _should_apply_circuit_breaker. rewrite Hc, Ha, Hh. cbn [negb].
  assert (Hopen :
    let r :=
      let '(metrics, self1) := get_system_metrics self sample now in
      if Qltb (circuit_breaker_threshold (config self)) (error_rate metrics) then
        match Redis.hset (Redis.data c) (circuit_key endpoint)
                [("state", Redis.SText "open");
                 ("open_time", Redis.SFloat now);
                 ("error_rate", Redis.SFloat (error_rate metrics))] now with
        | (Raise _, d1) => (false, with_redis self1 d1)
        | (Ok _, d1) =>
            let d2 := Redis.expire d1 (circuit_key endpoint)
                        (inject_Z (circuit_breaker_duration (config self) * 2)) now in
            (true, with_redis self1 d2)
        end
      else (false, self1) in
    fst r = true /\ circuit_state (snd r) endpoint now = open).
  { cbv zeta.
    pose proof (get_system_metrics_keeps self sample now) as Hk.
    destruct (get_system_metrics self sample now) as [metrics self1]. cbn [fst snd] in *.
    apply Qltb_lt in Hrate. rewrite Hrate.
    destruct (hset_after_hgetall _ _ _
                [("state", Redis.SText "open"); ("open_time", Redis.SFloat now);
                 ("error_rate", Redis.SFloat (error_rate metrics))] _ Hh)
      as (x & L & ->).
    cbn [fst snd]. split; [reflexivity|].
    unfold circuit_state, with_redis. rewrite Hk, Hc.
    cbn [redis_client option_map Redis.data].
    rewrite expire_after_insert by exact L.
    rewrite hgetall_insert_hash.
    - unfold breaker_of. rewrite breaker_of_set_state; [reflexivity|].
      repeat constructor; discriminate.
    - apply live_until_later. change 0 with (inject_Z 0). rewrite <- Zlt_Qlt. lia. }
  cbv zeta in Hopen.
  destruct (bool_decide (h = ∅)); [exact Hopen|].
  unfold breaker_of in Hcl.
  destruct (is_text (h !! "state") "open"); [discriminate|].
  destruct (is_text (h !! "state") "half_open"); [discriminate|].
  exact Hopen.
Qed.

Lemma open_breaker_step (self : engine) (endpoint : string)
  (sample : option psutil_sample) (now t : Q) :
  breaker_readable self endpoint now ->
  circuit_state self endpoint now = open ->
  stored_open_time self endpoint now = Ok t ->
  let r := _should_apply_circuit_breaker self endpoint sample now in
  let duration := inject_Z (circuit_breaker_duration (config self)) in
  (now - t <= duration -> fst r = true /\ circuit_state (snd r) endpoint now = open) /\
  (duration < now - t ->
   fst r = false /\ circuit_state (snd r) endpoint now = half_open).
Proof.
  intros (c & h & Hc & Ha & Hh) Hop Ht. cbv zeta.
  assert (Hs : circuit_state self endpoint now = breaker_of h).
  { unfold circuit_state. now rewrite Hc, Hh. }
  unfold stored_open_time in Ht. rewrite Hc, Hh in Ht.
  rewrite Hs in Hop. unfold breaker_of in Hop.
  destruct (is_text (h !! "state") "open") eqn:Eo.
  2:{ destruct (is_text (h !! "state") "half_open"); discriminate. }
  unfold _should_apply_circuit_breaker. rewrite Hc, Ha, Hh. cbn [negb].
  assert (Hne : bool_decide (h = ∅) = false).
  { apply bool_decide_eq_false. intros ->. cbn in Eo. discriminate. }
  rewrite Hne, Eo, Ht.
  split.
  - intros Hle. apply Qltb_ge in Hle. rewrite Hle. cbn [fst snd].
    split; [reflexivity|]. rewrite Hs. unfold breaker_of. now rewrite Eo.
  - intros Hlt. apply Qltb_lt in Hlt. rewrite Hlt.
    destruct (hset_after_hgetall _ _ _ [("state", Redis.SText "half_open")] _ Hh)
      as (x & L & ->).
    cbn [fst snd]. split; [reflexivity|].
    unfold circuit_state, with_redis. rewrite Hc.
    cbn [redis_client option_map Redis.data].
    rewrite (hgetall_insert_hash _ _ _ _ _ L).
    unfold breaker_of. rewrite breaker_of_set_state by constructor. reflexivity.
Qed.

(** C2, amended.  Every change of the stored state by one call of
    [_should_apply_circuit_breaker] (cooldown > 0) is one of the permitted
    transitions; the call answers "blocked" only with the breaker open
    afterwards; closed becomes open only when the sampled error rate exceeds
    the threshold, open becomes half_open only when more than the cooldown
    has passed since the stored [open_time], and that call is let through.
    And the transitions do happen: with Redis answering, a closed breaker
    whose sampled error rate exceeds the threshold is opened and the call
    blocked; an open breaker blocks and stays open while no more than the
    cooldown has passed, and once more has passed the next call moves it to
    half_open and is let through (for clock readings [t <= now <= 2 * t],
    where the subtraction of the two floats is exact).
    [reset_circuit_breaker], when it succeeds, leaves the breaker closed
    whatever it was, open included.  How many requests a half_open breaker
    lets through is left open. *)
Theorem circuit_breaker_transitions (self : engine) (endpoint : string)
  (sample : option psutil_sample) (now : Q) :
  (0 < circuit_breaker_duration (config self))%Z ->
  let r := _should_apply_circuit_breaker self endpoint sample now in
  let s := circuit_state self endpoint now in
  let s' := circuit_state (snd r) endpoint now in
  let duration := inject_Z (circuit_breaker_duration (config self)) in
  let rate := error_rate (fst (get_system_metrics self sample now)) in
  (s' = s \/ permitted s s' = true) /\
  (fst r = true -> s' = open) /\
  (s = closed -> s' = open ->
     fst r = true /\ circuit_breaker_threshold (config self) < rate) /\
  (s = open -> s' = half_open ->
     fst r = false /\
     exists t, stored_open_time self endpoint now = Ok t /\ duration < now - t) /\
  (breaker_readable self endpoint now -> s = closed ->
   circuit_breaker_threshold (config self) < rate ->
   fst r = true /\ s' = open) /\
  (forall t,
     breaker_readable self endpoint now -> s = open ->
     stored_open_time self endpoint now = Ok t ->
     (now - t <= duration -> fst r = true /\ s' = open) /\
     (t <= now -> now <= 2 * t -> duration < now - t ->
      fst r = false /\ s' = half_open)) /\
  (fst (reset_circuit_breaker self endpoint now) = true ->
     circuit_state (snd (reset_circuit_breaker self endpoint now)) endpoint now = closed).
Proof.
  intros Hdur. cbv zeta.
  pose proof (circuit_breaker_cases self endpoint sample now Hdur) as H. cbv zeta in H.
  split; [|split; [|split; [|split; [|split; [|split]]]]].
  - destruct H as [-> _ | -> -> _ _ | t -> -> _ _ _ | t -> -> _ _ _]; auto.
  - destruct H as [_ -> | _ E _ _ | t _ E _ _ _ | t _ _ -> _ _]; auto; discriminate.
  - destruct H as [-> _ | _ _ E Hlt | t -> _ _ _ _ | t -> _ _ _ _];
      intros E1 E2; try congruence; auto.
  - destruct H as [-> E | -> _ _ _ | t _ -> _ _ _ | t _ _ E Ht Hlt];
      intros E1 E2; try congruence.
    split; [exact E | exists t; auto].
  - intros Hr Hs Hrate.
    exact (closed_breaker_trips self endpoint sample now Hdur Hr Hs Hrate).
  - intros t Hr Hs Ht.
    pose proof (open_breaker_step self endpoint sample now t Hr Hs Ht) as [H1 H2].
    split; [exact H1 | intros _ _; exact H2].
  - apply reset_leaves_closed.
Qed.

Lemma circuit_breaker_transitions_witness :
  (0 < circuit_breaker_duration (config storm_engine))%Z /\
  let self := storm_engine in
  let endpoint := "/api/courses" in
  let r := _should_apply_circuit_breaker self endpoint calm_sample 1000 in
  let s := circuit_state self endpoint 1000 in
  let s' := circuit_state (snd r) endpoint 1000 in
  let duration := inject_Z (circuit_breaker_duration (config self)) in
  let rate := error_rate (fst (get_system_metrics self calm_sample 1000)) in
  (s' = s \/ permitted s s' = true) /\
  (fst r = true -> s' = open) /\
  (s = closed -> s' = open ->
     fst r = true /\ circuit_breaker_threshold (config self) < rate) /\
  (s = open -> s' = half_open ->
     fst r = false /\
     exists t, stored_open_time self endpoint 1000 = Ok t /\ duration < 1000 - t) /\
  (breaker_readable self endpoint 1000 -> s = closed ->
   circuit_breaker_threshold (config self) < rate ->
   fst r = true /\ s' = open) /\
  (forall t,
     breaker_readable self endpoint 1000 -> s = open ->
     stored_open_time self endpoint 1000 = Ok t ->
     (1000 - t <= duration -> fst r = true /\ s' = open) /\
     (t <= 1000 -> 1000 <= 2 * t -> duration < 1000 - t ->
      fst r = false /\ s' = half_open)) /\
  (fst (reset_circuit_breaker self endpoint 1000) = true ->
     circuit_state (snd (reset_circuit_breaker self endpoint 1000)) endpoint 1000 = closed).
Proof.
  split; [reflexivity|].
  apply (circuit_breaker_transitions storm_engine "/api/courses" calm_sample 1000).
  reflexivity.
Defined.

End CircuitBreaker.

(** ** Rate limiter: the burst boundary *)

Section TimeFacts.
Import Py.

Lemma py_int_floor (t : Q) : (0 <= t)%Q -> py_int t = Qfloor t.
Proof.
  intros H. unfold py_int. destruct t as [n d]. cbn.
  apply Z.quot_div_nonneg; [|lia].
  unfold Qle in H. cbn in H. lia.
Qed.

(** A time in the window of index [w] and length [len] lies in
    [len*w, len*w + len). *)
Lemma window_bounds (t : Q) (len w : Z) :
  (0 < len)%Z -> (0 <= t)%Q -> (py_int t / len)%Z = w ->
  (inject_Z (len * w) <= t)%Q /\ (t < inject_Z (len * w + len))%Q.
Proof.
  intros Hlen Ht Hw. rewrite py_int_floor in Hw by exact Ht.
  pose proof (Qfloor_le t) as Hlo. pose proof (Qlt_floor t) as Hhi.
  pose proof (Z.mul_div_le (Qfloor t) len Hlen) as H1.
  pose proof (Z.mul_succ_div_gt (Qfloor t) len Hlen) as H2.
  rewrite Hw in H1, H2.
  split.
  - eapply Qle_trans; [|exact Hlo]. rewrite <- Zle_Qle. exact H1.
  - eapply Qlt_le_trans; [exact Hhi|]. rewrite <- Zle_Qle. lia.
Qed.

Lemma py_int_zero (q : Q) : (0 <= q)%Q -> (q < 1)%Q -> py_int q = 0%Z.
Proof.
  intros H0 H1. rewrite py_int_floor by exact H0.
  pose proof (Qfloor_le q). pose proof (Qlt_floor q).
  assert (0 <= Qfloor q)%Z.
  { change 0%Z with (Qfloor 0). now apply Qfloor_resp_le. }
  assert (inject_Z (Qfloor q) < inject_Z 1)%Q by (change (inject_Z 1) with 1%Q; lra).
  rewrite <- Zlt_Qlt in *. lia.
Qed.

End TimeFacts.

Section LimiterFacts.
Import Py RateLimiting.
Local Open Scope Z_scope.

(** The limiter with Redis up and holding [d]. *)
Definition online (d : gmap string Redis.entry) (ms : option (gmap string slot)) : limiter :=
  mk_limiter (Some (Redis.mk_conn true d)) ms.

(** The number a counter key stands for; [None] when the key holds
    something INCR refuses. *)
Definition counter_view (d : gmap string Redis.entry) (k : string) (now : Q) : option Z :=
  match Redis.peek d k now with
  | None => Some 0
  | Some e =>
      match Redis.value e with
      | Redis.RStr (Redis.SInt z) => Some z
      | _ => None
      end
  end.

Definition counter_entry (n : Z) (x : Q) : Redis.entry :=
  Redis.mk_entry (Redis.RStr (Redis.SInt n)) (Some x).

Lemma increment_counter_online d ms k ttl now z :
  counter_view d k now = Some z ->
  _increment_counter (online d ms) k ttl now
  = (Ok (z + 1), online (<[k := counter_entry (z + 1) (now + inject_Z ttl)]> d) ms).
Proof.
  unfold counter_view, _increment_counter, online. cbn [redis_client Redis.alive Redis.data].
  unfold Redis.incr.
  destruct (Redis.peek d k now) as [e|] eqn:Hp.
  - destruct e as [[[z'| | |]| |] x]; cbn [Redis.value Redis.expiry]; try discriminate.
    intros [= ->].
    rewrite expire_after_insert by exact (peek_live _ _ _ _ Hp).
    reflexivity.
  - intros [= <-]. rewrite expire_after_insert by reflexivity. reflexivity.
Qed.

Definition bucket_entry (h : gmap string Redis.scalar) (x : option Q) : Redis.entry :=
  Redis.mk_entry (Redis.RHash h) x.

Lemma get_burst_tokens_fresh d ms cid cfg now :
  Redis.peek d (bucket_key cid) now = None ->
  _get_burst_tokens (online d ms) cid cfg now
  = (Ok (burst_capacity cfg),
     online (<[bucket_key cid :=
                 bucket_entry (<["last_refill" := Redis.SFloat now]>
                                 (<["tokens" := Redis.SInt (burst_capacity cfg)]> ∅))
                              (Some (now + 3600)%Q)]> d) ms).
Proof.
  intros Hp. unfold _get_burst_tokens, online. cbn [redis_client Redis.alive Redis.data].
  unfold Redis.hgetall, Redis.hset. rewrite Hp.
  rewrite bool_decide_eq_true_2 by reflexivity.
  rewrite expire_after_insert by reflexivity. reflexivity.
Qed.

Lemma get_burst_tokens_present d ms cid cfg now h x T t :
  Redis.peek d (bucket_key cid) now = Some (bucket_entry h x) ->
  h !! "tokens" = Some (Redis.SInt T) ->
  h !! "last_refill" = Some (Redis.SFloat t) ->
  forall T',
  Z.min (burst_capacity cfg)
        (T + py_int ((now - t) * (inject_Z (requests_per_minute cfg) / 60))%Q) = T' ->
  _get_burst_tokens (online d ms) cid cfg now
  = (Ok T',
     online (<[bucket_key cid :=
                 bucket_entry (<["last_refill" := Redis.SFloat now]>
                                 (<["tokens" := Redis.SInt T']> h)) x]> d) ms).
Proof.
  intros Hp Htok Hlast T' HT.
  unfold _get_burst_tokens, online. cbn [redis_client Redis.alive Redis.data].
  unfold Redis.hgetall, Redis.hset. rewrite Hp. cbn [Redis.value Redis.expiry bucket_entry].
  rewrite bool_decide_eq_false_2.
  2: { intros ->. rewrite lookup_empty in Htok. discriminate. }
  rewrite Htok, Hlast. cbn [from_option id Redis.int_of Redis.float_of].
  rewrite HT. reflexivity.
Qed.

Lemma consume_burst_token_present d ms cid now h x T :
  Redis.peek d (bucket_key cid) now = Some (bucket_entry h x) ->
  h !! "tokens" = Some (Redis.SInt T) ->
  0 < T ->
  _consume_burst_token (online d ms) cid now
  = (Ok true,
     online (<[bucket_key cid := bucket_entry (<["tokens" := Redis.SInt (T + -1)]> h) x]> d) ms).
Proof.
  intros Hp Htok HT.
  unfold _consume_burst_token, online. cbn [redis_client Redis.alive Redis.data].
  unfold Redis.hget, Redis.hgetall, Redis.hincrby. rewrite Hp.
  cbn [Redis.value Redis.expiry bucket_entry]. rewrite Htok.
  cbn [Redis.nonempty Redis.int_of].
  destruct (Z.ltb_spec 0 T); [reflexivity | lia].
Qed.

(** What a caller sees of one answer: the decision and the
    [X-RateLimit-Limit-Exceeded] header. *)
Definition outcome (r : result (bool * list (string * string)))
  : option (bool * option string) :=
  match r with
  | Ok (a, hs) => Some (a, assoc "X-RateLimit-Limit-Exceeded" hs)
  | Raise _ => None
  end.

End LimiterFacts.

Section BurstWindow.
Import Py RateLimiting.
Local Open Scope Z_scope.

Lemma plan_config_cases (plan : string) :
  let cfg := _get_rate_limit_config plan in
  cfg = starter \/ cfg = professional \/ cfg = enterprise \/ cfg = system_admin.
Proof.
  cbv zeta. unfold _get_rate_limit_config, SUBSCRIPTION_LIMITS. cbn [assoc].
  repeat match goal with
  | |- context [if ?b then _ else _] => destruct b
  end; cbn; auto.
Qed.

Lemma plan_config_burst (plan : string) :
  0 < burst_capacity (_get_rate_limit_config plan).
Proof.
  destruct (plan_config_cases plan) as [-> | [-> | [-> | ->]]]; reflexivity.
Qed.

Lemma plan_config_ceiling (plan category : string) :
  0 < endpoint_limit (_get_rate_limit_config plan) category.
Proof.
  unfold endpoint_limit.
  destruct (plan_config_cases plan) as [-> | [-> | [-> | ->]]];
    destruct (String.eqb category "expensive"), (String.eqb category "auth"); reflexivity.
Qed.

Lemma same_window_key (cid win : string) (e : option string) (t t' : Q) :
  py_int t / 60 = py_int t' / 60 ->
  win = "minute" \/ win = "hour" \/ win = "day" ->
  _get_redis_key cid win e t = _get_redis_key cid win e t'.
Proof.
  intros Hw Hwin. unfold _get_redis_key.
  assert (Hh : py_int t / 3600 = py_int t' / 3600).
  { change 3600 with (60 * 60). rewrite <- !Z.div_div by lia. now rewrite Hw. }
  assert (Hd : py_int t / 86400 = py_int t' / 86400).
  { change 86400 with (60 * 1440). rewrite <- !Z.div_div by lia. now rewrite Hw. }
  destruct Hwin as [-> | [-> | ->]]; cbn [String.eqb Ascii.eqb Bool.eqb];
    rewrite ?Hw, ?Hh, ?Hd; reflexivity.
Qed.

Lemma redis_keys_distinct (cid : string) (e : option string) (t : Q) :
  let mk := _get_redis_key cid "minute" e t in
  let hk := _get_redis_key cid "hour" None t in
  let dk := _get_redis_key cid "day" None t in
  let bk := bucket_key cid in
  mk <> hk /\ mk <> dk /\ mk <> bk /\ hk <> dk /\ hk <> bk /\ dk <> bk.
Proof.
  cbv zeta. unfold _get_redis_key, bucket_key.
  cbn [String.eqb Ascii.eqb Bool.eqb truthy_opt].
  destruct (truthy_opt e);
    repeat split; intros H; try discriminate H;
    apply (inj (String.app "rate_limit:")) in H;
    apply (inj (String.app cid)) in H; discriminate H.
Qed.

Lemma limit_exceeded_header (v : verdict) (now : Q) :
  assoc "X-RateLimit-Limit-Exceeded" (rate_limit_headers v now)
  = if allowed v then None else Some (default "None" (limit_exceeded v)).
Proof. unfold rate_limit_headers. destruct (allowed v); reflexivity. Qed.

End BurstWindow.

Section Window.
Import Py RateLimiting.
Local Open Scope Z_scope.

Variables (request : request) (user_id tenant_id : option string).
Variables (plan : string) (endpoint : option string).
Variable ms : option (gmap string slot).
Variable t1 : Q.
Variables h0 d0 : Z.

Local Abbreviation cid := (_get_client_id request user_id tenant_id).
Local Abbreviation cfg := (_get_rate_limit_config plan).
Local Abbreviation ep := (effective_endpoint request endpoint).
Local Abbreviation C := (endpoint_limit cfg (_get_endpoint_category ep)).
Local Abbreviation B := (burst_capacity cfg).
Local Abbreviation mk := (_get_redis_key cid "minute" (Some ep) t1).
Local Abbreviation hk := (_get_redis_key cid "hour" None t1).
Local Abbreviation dk := (_get_redis_key cid "day" None t1).
Local Abbreviation bk := (bucket_key cid).
Local Abbreviation wend := (inject_Z (60 * (py_int t1 / 60) + 60)).

(** Tokens in the bucket after [n] calls of the window. *)
Definition tokens_left (n : Z) : Z := Z.max 0 (B - Z.max 0 (n - C)).

(** A time to live that does not run out inside the window. *)
Definition outlives (x : option Q) : Prop :=
  match x with Some e => (wend <= e)%Q | None => True end.

(** The unit roundoff of the floats (binary64). *)
Definition float_unit : Q := 1 # (2 ^ 53).

(** No refill at a call at [t'] after one at [t]: the clock has not gone
    back, and [time_passed * (requests_per_minute / 60)] stays below 1 by
    more than its three float roundings (the subtraction, the division and
    the product, each within a factor of [1 +- float_unit]) can make up, so
    that the float product of the code is below 1 like the exact one and
    [int] of it is 0. *)
Definition no_refill (t t' : Q) : Prop :=
  (t <= t')%Q /\
  ((t' - t) * (inject_Z (requests_per_minute cfg) / 60) <= 1 - 4 * float_unit)%Q.

(** The bucket at the first call, at [t1]: none yet, or a full one that
    outlives the window and that this call does not refill. *)
Definition bucket_full (d : gmap string Redis.entry) : Prop :=
  Redis.peek d bk t1 = None \/
  exists h x t0,
    d !! bk = Some (bucket_entry h x) /\ outlives x /\
    h !! "tokens" = Some (Redis.SInt B) /\
    h !! "last_refill" = Some (Redis.SFloat t0) /\
    no_refill t0 t1.

(** Redis after [n >= 1] calls of the window, the last one at [t]. *)
Definition window_inv (n : Z) (t : Q) (d : gmap string Redis.entry) : Prop :=
  (exists x, d !! mk = Some (counter_entry n x) /\ (wend <= x)%Q) /\
  (exists x, d !! hk = Some (counter_entry (h0 + n) x) /\ (wend <= x)%Q) /\
  (exists x, d !! dk = Some (counter_entry (d0 + n) x) /\ (wend <= x)%Q) /\
  (exists h x, d !! bk = Some (bucket_entry h x) /\ outlives x /\
               h !! "tokens" = Some (Redis.SInt (tokens_left n)) /\
               h !! "last_refill" = Some (Redis.SFloat t)).

Lemma plan_config_rpm : 0 < requests_per_minute cfg.
Proof. destruct (plan_config_cases plan) as [-> | [-> | [-> | ->]]]; reflexivity. Qed.

Lemma no_refill_zero (t t' : Q) :
  no_refill t t' ->
  py_int ((t' - t) * (inject_Z (requests_per_minute cfg) / 60))%Q = 0.
Proof.
  intros [Hle Hq]. pose proof plan_config_rpm as Hr.
  assert (Hr' : (0 < inject_Z (requests_per_minute cfg))%Q).
  { change 0%Q with (inject_Z 0). now rewrite <- Zlt_Qlt. }
  assert (Hu : (0 < float_unit)%Q) by reflexivity.
  apply py_int_zero; [|lra].
  apply Qmult_le_0_compat; [lra|].
  apply Qle_shift_div_l; [reflexivity | lra].
Qed.

Lemma outlives_live (x : option Q) (h : gmap string Redis.scalar) (now : Q) :
  outlives x -> (now < wend)%Q -> Redis.is_live now (bucket_entry h x) = true.
Proof.
  intros Hx Hnow. unfold Redis.is_live. cbn [Redis.expiry bucket_entry].
  destruct x as [e|]; [|reflexivity]. cbn in Hx. apply Qltb_lt. lra.
Qed.

Lemma peek_bucket (d : gmap string Redis.entry) (k : string)
  (h : gmap string Redis.scalar) (x : option Q) (now : Q) :
  d !! k = Some (bucket_entry h x) -> outlives x -> (now < wend)%Q ->
  Redis.peek d k now = Some (bucket_entry h x).
Proof.
  intros Hd Hx Hnow. unfold Redis.peek. rewrite Hd.
  now rewrite (outlives_live x h now Hx Hnow).
Qed.

(** What the [n]-th call of the window must answer. *)
Definition expected (n : Z) : option (bool * option string) :=
  if n <=? C + B then Some (true, None) else Some (false, Some "minute").

Lemma peek_of_lookup (d : gmap string Redis.entry) (k : string) (e : Redis.entry)
  (x now : Q) :
  d !! k = Some e -> Redis.expiry e = Some x -> (now < x)%Q ->
  Redis.peek d k now = Some e.
Proof.
  intros Hd Hx Hlt. unfold Redis.peek. rewrite Hd. unfold Redis.is_live. rewrite Hx.
  apply Qltb_lt in Hlt. now rewrite Hlt.
Qed.

Lemma counter_view_lookup (d : gmap string Redis.entry) (k : string) (n : Z) (x now : Q) :
  d !! k = Some (counter_entry n x) -> (now < x)%Q -> counter_view d k now = Some n.
Proof.
  intros Hd Hlt. unfold counter_view.
  rewrite (peek_of_lookup d k _ x now Hd eq_refl Hlt). reflexivity.
Qed.

Ltac other_key := first [assumption | apply not_eq_sym; assumption].

Lemma window_step (n : Z) (t : Q) (d : gmap string Redis.entry) (t' : Q) :
  window_inv n t d ->
  1 <= n ->
  h0 + n + 1 <= requests_per_hour cfg ->
  d0 + n + 1 <= requests_per_day cfg ->
  (0 <= t')%Q ->
  py_int t' / 60 = py_int t1 / 60 ->
  py_int ((t' - t) * (inject_Z (requests_per_minute cfg) / 60))%Q = 0 ->
  exists r d',
    check_rate_limit (online d ms) request user_id tenant_id plan endpoint t'
    = (r, online d' ms) /\
    outcome r = expected (n + 1) /\
    window_inv (n + 1) t' d'.
Proof.
  intros ((xm & Hm & Hxm) & (xh & Hh & Hxh) & (xd & Hd & Hxd) &
          (h & xb & Hb & Hxb & Htok & Hlast)) Hn Hroomh Hroomd Ht' Hw Hrefill.
  destruct (window_bounds t' 60 _ eq_refl Ht' Hw) as [Hlo Hhi].
  destruct (redis_keys_distinct cid (Some ep) t1) as (Kmh & Kmd & Kmb & Khd & Khb & Kdb).
  pose proof (plan_config_burst plan) as HB.
  unfold check_rate_limit, check_rate_limit_verdict.
  rewrite (same_window_key cid "minute" (Some ep) t' t1) by auto.
  rewrite (same_window_key cid "hour" None t' t1) by auto.
  rewrite (same_window_key cid "day" None t' t1) by auto.
  fold (online d ms).
  rewrite (increment_counter_online d ms mk 60 t' n)
    by (apply (counter_view_lookup _ _ _ xm); [exact Hm | lra]).
  rewrite (increment_counter_online _ ms hk 3600 t' (h0 + n))
    by (apply (counter_view_lookup _ _ _ xh);
        [rewrite lookup_insert_ne by other_key; exact Hh | lra]).
  rewrite (increment_counter_online _ ms dk 86400 t' (d0 + n))
    by (apply (counter_view_lookup _ _ _ xd);
        [rewrite !lookup_insert_ne by other_key; exact Hd | lra]).
  rewrite (get_burst_tokens_present _ ms cid cfg t' h xb (tokens_left n) t)
    with (T' := tokens_left n);
    [ | apply peek_bucket;
        [rewrite !lookup_insert_ne by other_key; exact Hb | exact Hxb | lra]
      | exact Htok | exact Hlast
      | rewrite Hrefill, Z.add_0_r; apply Z.min_r; unfold tokens_left; lia ].
  rewrite (proj2 (Z.ltb_ge (requests_per_hour cfg) (h0 + n + 1))) by lia.
  rewrite (proj2 (Z.ltb_ge (requests_per_day cfg) (d0 + n + 1))) by lia.
  assert (Hend : (wend == inject_Z (60 * (py_int t1 / 60)) + 60)%Q).
  { rewrite inject_Z_plus. reflexivity. }
  assert (Hinv : forall d' h' T,
             d' !! mk = Some (counter_entry (n + 1) (t' + inject_Z 60)) ->
             d' !! hk = Some (counter_entry (h0 + n + 1) (t' + inject_Z 3600)) ->
             d' !! dk = Some (counter_entry (d0 + n + 1) (t' + inject_Z 86400)) ->
             d' !! bk = Some (bucket_entry h' xb) ->
             h' !! "tokens" = Some (Redis.SInt T) ->
             h' !! "last_refill" = Some (Redis.SFloat t') ->
             T = tokens_left (n + 1) ->
             window_inv (n + 1) t' d').
  { intros d' h' T Em Eh Ed Eb Ht Hl ->. unfold window_inv.
    rewrite !Z.add_assoc.
    split; [|split; [|split]].
    - eexists; split; [exact Em|]. change (inject_Z 60) with 60%Q. lra.
    - eexists; split; [exact Eh|]. change (inject_Z 3600) with 3600%Q. lra.
    - eexists; split; [exact Ed|]. change (inject_Z 86400) with 86400%Q. lra.
    - exists h', xb. auto. }
  destruct (Z.ltb_spec C (n + 1)) as [HC | HC].
  - destruct (Z.ltb_spec 0 (tokens_left n)) as [HT | HT].
    + erewrite (consume_burst_token_present _ ms cid t'
                  (<["last_refill" := Redis.SFloat t']>
                     (<["tokens" := Redis.SInt (tokens_left n)]> h))
                  xb (tokens_left n)).
      2: { rewrite peek_insert_eq.
           assert (L : forall hh, Redis.is_live t' (bucket_entry hh xb) = true)
             by (intros hh; apply outlives_live; [exact Hxb | lra]).
           rewrite L. reflexivity. }
      2: { rewrite lookup_insert_ne by discriminate. apply lookup_insert_eq. }
      2: exact HT.
      eexists _, _. split; [reflexivity|]. split.
      * unfold outcome. rewrite limit_exceeded_header. cbn [allowed].
        unfold expected. unfold tokens_left in HT.
        destruct (Z.leb_spec (n + 1) (C + B)); [reflexivity | lia].
      * eapply Hinv.
        -- rewrite !lookup_insert_ne by other_key. apply lookup_insert_eq.
        -- rewrite !lookup_insert_ne by other_key. apply lookup_insert_eq.
        -- rewrite !lookup_insert_ne by other_key. apply lookup_insert_eq.
        -- apply lookup_insert_eq.
        -- apply lookup_insert_eq.
        -- rewrite lookup_insert_ne by discriminate. apply lookup_insert_eq.
        -- unfold tokens_left in *. lia.
    + eexists _, _. split; [reflexivity|]. split.
      * unfold outcome. rewrite limit_exceeded_header. cbn [allowed limit_exceeded].
        unfold expected. unfold tokens_left in HT.
        destruct (Z.leb_spec (n + 1) (C + B)); [lia | reflexivity].
      * eapply Hinv.
        -- rewrite !lookup_insert_ne by other_key. apply lookup_insert_eq.
        -- rewrite !lookup_insert_ne by other_key. apply lookup_insert_eq.
        -- rewrite !lookup_insert_ne by other_key. apply lookup_insert_eq.
        -- apply lookup_insert_eq.
        -- rewrite lookup_insert_ne by discriminate. apply lookup_insert_eq.
        -- apply lookup_insert_eq.
        -- unfold tokens_left in *. lia.
  - eexists _, _. split; [reflexivity|]. split.
    + unfold outcome. rewrite limit_exceeded_header. cbn [allowed].
      unfold expected.
      destruct (Z.leb_spec (n + 1) (C + B)); [reflexivity | lia].
    + eapply Hinv.
      * rewrite !lookup_insert_ne by other_key. apply lookup_insert_eq.
      * rewrite !lookup_insert_ne by other_key. apply lookup_insert_eq.
      * rewrite !lookup_insert_ne by other_key. apply lookup_insert_eq.
      * apply lookup_insert_eq.
      * rewrite lookup_insert_ne by discriminate. apply lookup_insert_eq.
      * apply lookup_insert_eq.
      * unfold tokens_left in *. lia.
Qed.

Lemma first_bucket (d d3 : gmap string Redis.entry) :
  (0 <= t1)%Q ->
  bucket_full d ->
  d3 !! bk = d !! bk ->
  exists h x,
    _get_burst_tokens (online d3 ms) cid cfg t1
    = (Ok B, online (<[bk := bucket_entry h x]> d3) ms) /\
    outlives x /\
    h !! "tokens" = Some (Redis.SInt B) /\
    h !! "last_refill" = Some (Redis.SFloat t1).
Proof.
  intros Ht1 Hfull Hsame.
  destruct (window_bounds t1 60 _ eq_refl Ht1 eq_refl) as [Hlo Hhi].
  assert (Hend : (wend == inject_Z (60 * (py_int t1 / 60)) + 60)%Q).
  { rewrite inject_Z_plus. reflexivity. }
  destruct Hfull as [Pb | (h & x & t0 & Hb & Hx & Htok & Hlast & Hq)].
  - rewrite get_burst_tokens_fresh by (unfold Redis.peek in *; now rewrite Hsame).
    eexists _, _. split; [reflexivity|]. split; [cbn; lra|]. split.
    + rewrite lookup_insert_ne by discriminate. apply lookup_insert_eq.
    + apply lookup_insert_eq.
  - rewrite (get_burst_tokens_present d3 ms cid cfg t1 h x B t0) with (T' := B);
      [ | apply peek_bucket; [now rewrite Hsame | exact Hx | exact Hhi]
        | exact Htok | exact Hlast
        | rewrite (no_refill_zero t0 t1 Hq); lia ].
    eexists _, _. split; [reflexivity|]. split; [exact Hx|]. split.
    + rewrite lookup_insert_ne by discriminate. apply lookup_insert_eq.
    + apply lookup_insert_eq.
Qed.

Lemma window_first_call (d : gmap string Redis.entry) :
  (0 <= t1)%Q ->
  Redis.peek d mk t1 = None ->
  bucket_full d ->
  counter_view d hk t1 = Some h0 ->
  counter_view d dk t1 = Some d0 ->
  h0 + 1 <= requests_per_hour cfg ->
  d0 + 1 <= requests_per_day cfg ->
  exists r d',
    check_rate_limit (online d ms) request user_id tenant_id plan endpoint t1
    = (r, online d' ms) /\
    outcome r = expected 1 /\
    window_inv 1 t1 d'.
Proof.
  intros Ht1 Pm Pb Vh Vd Hroomh Hroomd.
  destruct (window_bounds t1 60 _ eq_refl Ht1 eq_refl) as [Hlo Hhi].
  destruct (redis_keys_distinct cid (Some ep) t1) as (Kmh & Kmd & Kmb & Khd & Khb & Kdb).
  pose proof (plan_config_burst plan) as HB.
  pose proof (plan_config_ceiling plan (_get_endpoint_category ep)) as HC.
  unfold check_rate_limit, check_rate_limit_verdict.
  fold (online d ms).
  rewrite (increment_counter_online d ms mk 60 t1 0)
    by (unfold counter_view; now rewrite Pm).
  rewrite (increment_counter_online _ ms hk 3600 t1 h0)
    by (unfold counter_view; rewrite peek_insert_ne by other_key; exact Vh).
  rewrite (increment_counter_online _ ms dk 86400 t1 d0)
    by (unfold counter_view; rewrite !peek_insert_ne by other_key; exact Vd).
  match goal with
  | |- context [_get_burst_tokens (online ?d3 ms) _ _ _] =>
      destruct (first_bucket d d3 Ht1 Pb) as (h & x & -> & Hx & Htok & Hlast);
        [rewrite !lookup_insert_ne by other_key; reflexivity|]
  end.
  rewrite (proj2 (Z.ltb_ge C (0 + 1))) by lia.
  rewrite (proj2 (Z.ltb_ge (requests_per_hour cfg) (h0 + 1))) by lia.
  rewrite (proj2 (Z.ltb_ge (requests_per_day cfg) (d0 + 1))) by lia.
  assert (Hend : (wend == inject_Z (60 * (py_int t1 / 60)) + 60)%Q).
  { rewrite inject_Z_plus. reflexivity. }
  eexists _, _. split; [reflexivity|]. split.
  - unfold outcome. rewrite limit_exceeded_header. cbn [allowed].
    unfold expected.
    destruct (Z.leb_spec 1 (C + B)); [reflexivity | lia].
  - unfold window_inv. split; [|split; [|split]].
    + eexists; split;
        [rewrite !lookup_insert_ne by other_key; apply lookup_insert_eq|].
      change (inject_Z 60) with 60%Q. lra.
    + eexists; split;
        [rewrite !lookup_insert_ne by other_key; apply lookup_insert_eq|].
      change (inject_Z 3600) with 3600%Q. lra.
    + eexists; split;
        [rewrite !lookup_insert_ne by other_key; apply lookup_insert_eq|].
      change (inject_Z 86400) with 86400%Q. lra.
    + exists h, x. split; [apply lookup_insert_eq|]. split; [exact Hx|]. split.
      * rewrite Htok. unfold tokens_left. do 2 f_equal. lia.
      * exact Hlast.
Qed.

(** The calls after the first: each one inside the window and too soon
    after the previous one for a token to be added. *)
Fixpoint quiet_calls (w : Z) (t : Q) (rest : list Q) : Prop :=
  match rest with
  | [] => True
  | t' :: rest =>
      (0 <= t')%Q /\ py_int t' / 60 = w /\ no_refill t t' /\ quiet_calls w t' rest
  end.

Lemma serve_window (rest : list Q) :
  forall (n : Z) (t : Q) (d : gmap string Redis.entry),
  window_inv n t d ->
  1 <= n ->
  h0 + n + Z.of_nat (length rest) <= requests_per_hour cfg ->
  d0 + n + Z.of_nat (length rest) <= requests_per_day cfg ->
  quiet_calls (py_int t1 / 60) t rest ->
  map outcome (serve (online d ms) request user_id tenant_id plan endpoint rest)
  = map (fun i => expected (n + Z.of_nat i)) (seq 1 (length rest)).
Proof.
  induction rest as [|t' rest IH]; intros n t d Hinv Hn Hh Hd Hq; [reflexivity|].
  destruct Hq as (Ht' & Hw & Hrefill & Hq).
  apply no_refill_zero in Hrefill.
  cbn [length] in Hh, Hd.
  destruct (window_step n t d t' Hinv Hn) as (r & d' & Hcall & Hout & Hinv');
    try assumption; try lia.
  cbn [serve length seq map]. rewrite Hcall. cbn [map].
  rewrite Hout. f_equal.
  rewrite (IH (n + 1) t' d' Hinv') by (try assumption; lia).
  rewrite <- (seq_shift (length rest) 1), map_map.
  apply map_ext. intros i. f_equal. lia.
Qed.

End Window.

Section BurstBoundary.
Import Py RateLimiting.
Local Open Scope Z_scope.

Lemma map_seq_const {A : Type} (f : nat -> A) (x : A) (n : nat) :
  forall s : nat, (forall i : nat, (s <= i < s + n)%nat -> f i = x) ->
  map f (seq s n) = repeat x n.
Proof.
  induction n as [|n IH]; intros s Hf; [reflexivity|].
  cbn [seq map repeat]. rewrite Hf by lia. f_equal.
  apply IH. intros i Hi. apply Hf. lia.
Qed.

Lemma expected_run (plan : string) (request : request) (endpoint : option string) (N : nat) :
  let cfg := _get_rate_limit_config plan in
  let C := endpoint_limit cfg (_get_endpoint_category (effective_endpoint request endpoint)) in
  let B := burst_capacity cfg in
  N = Z.to_nat (C + B) ->
  map (fun i => expected request plan endpoint (Z.of_nat i)) (seq 1 (S N))
  = repeat (Some (true, None)) N ++ [Some (false, Some "minute")].
Proof.
  intros cfg C B HN.
  pose proof (plan_config_burst plan). pose proof (plan_config_ceiling plan
    (_get_endpoint_category (effective_endpoint request endpoint))).
  rewrite seq_S, map_app. cbn [map]. f_equal.
  - apply map_seq_const. intros i Hi.
    unfold expected. fold cfg C B.
    destruct (Z.leb_spec (Z.of_nat i) (C + B)); [reflexivity | lia].
  - unfold expected. fold cfg C B.
    destruct (Z.leb_spec (Z.of_nat (1 + N)) (C + B)); [lia | reflexivity].
Qed.

(** C3: with Redis up, a client whose minute counter is not started and
    whose burst bucket is absent or full at the first call, and whose hour
    and day counts leave room, makes [C + B + 1] calls inside one minute
    window, none long enough after the previous one for the refill to add a
    token ([no_refill], which holds the exact product far enough below one
    token for the float product of the code to be below it as well): the
    first [C + B] are allowed and the last is denied with
    [limit_exceeded = "minute"], [C] being the minute ceiling of the
    endpoint's category and [B] the plan's burst capacity. *)
Theorem burst_boundary (d : gmap string Redis.entry) (ms : option (gmap string slot))
  (request : request) (user_id tenant_id : option string) (plan : string)
  (endpoint : option string) (t1 : Q) (rest : list Q) (h0 d0 : Z) :
  let cid := _get_client_id request user_id tenant_id in
  let cfg := _get_rate_limit_config plan in
  let ep := effective_endpoint request endpoint in
  let C := endpoint_limit cfg (_get_endpoint_category ep) in
  let B := burst_capacity cfg in
  (0 <= t1)%Q ->
  quiet_calls plan (py_int t1 / 60) t1 rest ->
  length rest = Z.to_nat (C + B) ->
  Redis.peek d (_get_redis_key cid "minute" (Some ep) t1) t1 = None ->
  bucket_full request user_id tenant_id plan t1 d ->
  counter_view d (_get_redis_key cid "hour" None t1) t1 = Some h0 ->
  counter_view d (_get_redis_key cid "day" None t1) t1 = Some d0 ->
  h0 + C + B + 1 <= requests_per_hour cfg ->
  d0 + C + B + 1 <= requests_per_day cfg ->
  map outcome (serve (online d ms) request user_id tenant_id plan endpoint (t1 :: rest))
  = repeat (Some (true, None)) (Z.to_nat (C + B)) ++ [Some (false, Some "minute")].
Proof.
  intros cid cfg ep C B Ht1 Hq Hlen Pm Pb Vh Vd Hroomh Hroomd.
  pose proof (plan_config_burst plan) as HB. fold cfg B in HB.
  pose proof (plan_config_ceiling plan (_get_endpoint_category ep)) as HC. fold cfg C in HC.
  destruct (window_first_call request user_id tenant_id plan endpoint ms t1 h0 d0 d)
    as (r & d' & Hcall & Hout & Hinv); try assumption; try (fold cfg C B; lia).
  cbn [serve]. rewrite Hcall. cbn [map]. rewrite Hout.
  rewrite (serve_window request user_id tenant_id plan endpoint ms t1 h0 d0 rest 1 t1 d')
    by (try assumption; fold cfg C B; lia).
  rewrite <- (expected_run plan request endpoint (Z.to_nat (C + B))) by reflexivity.
  cbn [seq map]. rewrite Hlen. f_equal.
  rewrite <- (seq_shift (Z.to_nat (C + B)) 1), map_map.
  apply map_ext. intros i. f_equal. lia.
Qed.

Definition plain_request : request := mk_request [] None None None "".

(** Eighty-one calls by user [u1] on the starter plan to [/api/courses]
    (ceiling 60, burst 20), half a second apart from t = 0, on an empty
    Redis. *)
Definition half_seconds (n : nat) : list Q :=
  map (fun i => inject_Z (Z.of_nat i) / 2)%Q (seq 1 n).

Lemma burst_boundary_witness :
  map outcome (serve (online ∅ None) plain_request (Some "u1") None "starter"
                 (Some "/api/courses") (0%Q :: half_seconds 80))
  = repeat (Some (true, None)) 80 ++ [Some (false, Some "minute")].
Proof.
  apply (burst_boundary ∅ None plain_request (Some "u1") None "starter"
           (Some "/api/courses") 0%Q (half_seconds 80) 0 0);
    try reflexivity; try (vm_compute; discriminate); try (left; reflexivity).
  vm_compute. repeat split; discriminate.
Defined.

Example burst_boundary_run :
  map outcome (serve (online ∅ None) plain_request (Some "u1") None "starter"
                 (Some "/api/courses") (0%Q :: half_seconds 80))
  = repeat (Some (true, None)) 80 ++ [Some (false, Some "minute")].
Proof. vm_compute. reflexivity. Qed.

End BurstBoundary.

(** ** Rate limiter: hard ceilings and the fallback *)

Section HardCeilings.
Import Py RateLimiting.
Local Open Scope Z_scope.

(** What the locals of a finished check were computed from. *)
Lemma verdict_origin self request user_id tenant_id plan endpoint now v self' :
  check_rate_limit_verdict self request user_id tenant_id plan endpoint now = (Ok v, self') ->
  let cid := _get_client_id request user_id tenant_id in
  let ep := effective_endpoint request endpoint in
  client_id v = cid /\
  config v = _get_rate_limit_config plan /\
  rpm_limit v = endpoint_limit (config v) (_get_endpoint_category ep) /\
  exists s1 s2 s3,
    _increment_counter self (_get_redis_key cid "minute" (Some ep) now) 60 now
      = (Ok (minute_count v), s1) /\
    _increment_counter s1 (_get_redis_key cid "hour" None now) 3600 now
      = (Ok (hour_count v), s2) /\
    _increment_counter s2 (_get_redis_key cid "day" None now) 86400 now
      = (Ok (day_count v), s3).
Proof.
  unfold check_rate_limit_verdict.
  destruct (_increment_counter self _ 60 now) as [[mc|e] s1] eqn:E1; [|discriminate].
  destruct (_increment_counter s1 _ 3600 now) as [[hc|e] s2] eqn:E2; [|discriminate].
  destruct (_increment_counter s2 _ 86400 now) as [[dc|e] s3] eqn:E3; [|discriminate].
  destruct (_get_burst_tokens s3 _ _ now) as [[bt|e] s4]; [|discriminate].
  intros H. cbv zeta.
  assert (exists a l s5,
    (Ok (mk_verdict (_get_client_id request user_id tenant_id)
           (_get_rate_limit_config plan)
           (_get_endpoint_category (effective_endpoint request endpoint))
           (endpoint_limit (_get_rate_limit_config plan)
              (_get_endpoint_category (effective_endpoint request endpoint)))
           mc hc dc bt a l), s5) = (Ok v, self')) as (a & l & s5 & E).
  { repeat match type of H with
    | context [if ?b then _ else _] => destruct b
    | context [match ?x with _ => _ end] => destruct x
    end; try discriminate; eauto. }
  inversion E; subst. cbn [client_id config rpm_limit minute_count hour_count day_count].
  repeat split. exists s1, s2, s3. auto.
Qed.

(** C7: whenever the hour count of a request exceeds the plan's hourly
    ceiling, or its day count the daily ceiling, [check_rate_limit] denies it
    and names that window, whatever the minute check and the burst bucket
    did. *)
Theorem hour_day_ceilings_override_burst (self : limiter) (request : request)
  (user_id tenant_id : option string) (plan : string) (endpoint : option string)
  (now : Q) (v : verdict) (self' : limiter) :
  check_rate_limit_verdict self request user_id tenant_id plan endpoint now = (Ok v, self') ->
  requests_per_hour (config v) < hour_count v \/ requests_per_day (config v) < day_count v ->
  allowed v = false /\
  (limit_exceeded v = Some "hour" \/ limit_exceeded v = Some "day") /\
  (requests_per_day (config v) < day_count v -> limit_exceeded v = Some "day") /\
  exists headers,
    check_rate_limit self request user_id tenant_id plan endpoint now
      = (Ok (false, headers), self') /\
    assoc "X-RateLimit-Limit-Exceeded" headers = limit_exceeded v.
Proof.
  intros Hv Hover.
  assert (Hcore : allowed v = false /\
                  (limit_exceeded v = Some "hour" \/ limit_exceeded v = Some "day") /\
                  (requests_per_day (config v) < day_count v -> limit_exceeded v = Some "day")).
  { revert Hv Hover. unfold check_rate_limit_verdict.
    destruct (_increment_counter self _ 60 now) as [[mc|e] s1]; [|discriminate].
    destruct (_increment_counter s1 _ 3600 now) as [[hc|e] s2]; [|discriminate].
    destruct (_increment_counter s2 _ 86400 now) as [[dc|e] s3]; [|discriminate].
    destruct (_get_burst_tokens s3 _ _ now) as [[bt|e] s4]; [|discriminate].
    cbv zeta.
    match goal with
    | |- context [match (if ?b then ?x else ?y) with _ => _ end] =>
        destruct (if b then x else y) as [[[a l]|e] s5]; [|discriminate]
    end.
    destruct (Z.ltb_spec (requests_per_hour (_get_rate_limit_config plan)) hc);
      destruct (Z.ltb_spec (requests_per_day (_get_rate_limit_config plan)) dc);
      intros [= <- <-]; cbn [allowed limit_exceeded config hour_count day_count];
      intros [?|?]; try lia; repeat split; auto; intros; lia. }
  destruct Hcore as (Ha & Hl & Hd). repeat split; try assumption.
  unfold check_rate_limit. rewrite Hv, Ha. eexists. split; [reflexivity|].
  rewrite limit_exceeded_header, Ha.
  destruct Hl as [-> | ->]; reflexivity.
Qed.

(** A Redis in which user [u1] has used up the minute ceiling of
    [/api/courses] and the hourly ceiling of the starter plan, with five
    burst tokens left. *)
Definition busy_redis : gmap string Redis.entry :=
  <[_get_redis_key "user:u1" "minute" (Some "/api/courses") 10 := counter_entry 60 65]>
  (<[_get_redis_key "user:u1" "hour" None 10 := counter_entry 3000 3605]>
  (<[_get_redis_key "user:u1" "day" None 10 := counter_entry 3000 86405]>
  (<[bucket_key "user:u1" :=
       bucket_entry (<["last_refill" := Redis.SFloat 10]> (<["tokens" := Redis.SInt 5]> ∅))
                    (Some 3605%Q)]> ∅))).

Lemma hour_day_ceilings_witness :
  exists v self',
    check_rate_limit_verdict (online busy_redis None) plain_request (Some "u1") None
      "starter" (Some "/api/courses") 10 = (Ok v, self') /\
    (rpm_limit v < minute_count v /\ 0 < burst_tokens v) /\
    requests_per_hour (config v) < hour_count v /\
    Redis.hget (from_option Redis.data ∅ (redis_client self')) (bucket_key "user:u1")
      "tokens" 10 = Ok (Some (Redis.SInt 4)) /\
    allowed v = false /\ limit_exceeded v = Some "hour".
Proof.
  eassert (E : check_rate_limit_verdict (online busy_redis None) plain_request (Some "u1")
                 None "starter" (Some "/api/courses") 10 = (Ok _, _))
    by (vm_compute; reflexivity).
  destruct (hour_day_ceilings_override_burst _ _ _ _ _ _ _ _ _ E) as (Ha & Hl & _).
  { left. reflexivity. }
  eexists _, _. split; [exact E|].
  split; [split; reflexivity|]. split; [reflexivity|]. split; [vm_compute; reflexivity|].
  split; [exact Ha|]. reflexivity.
Defined.

End HardCeilings.

Section Fallback.
Import Py RateLimiting.
Local Open Scope Z_scope.

(** The limiter as constructed while Redis is down. *)
Definition offline (store : gmap string slot) : limiter := mk_limiter None (Some store).

(** The count the in-memory store holds for [key], slots older than a day
    counting for nothing. *)
Definition fresh_count (store : gmap string slot) (key : string) (now : Q) : Z :=
  match store !! key with
  | Some s => if Qltb (now - 86400) (timestamp s) then count s else 0
  | None => 0
  end.

Lemma fallback_increment_offline (store : gmap string slot) (key : string) (now : Q) :
  exists store',
    _fallback_increment (offline store) key now
    = (Ok (fresh_count store key now + 1), offline store') /\
    (forall k', k' <> key -> fresh_count store' k' now = fresh_count store k' now) /\
    fresh_count store' key now = fresh_count store key now + 1.
Proof.
  unfold _fallback_increment, offline. cbn [memory_store redis_client].
  set (P := fun kv : string * slot => Qltb (now - 86400) (timestamp (snd kv)) = true).
  assert (Hf : forall k, filter P store !! k
                         = match store !! k with
                           | Some s => if Qltb (now - 86400) (timestamp s) then Some s else None
                           | None => None
                           end).
  { intros k. destruct (store !! k) as [s|] eqn:Hk.
    - destruct (Qltb (now - 86400) (timestamp s)) eqn:Hs.
      + apply map_lookup_filter_Some. split; [exact Hk | exact Hs].
      + apply map_lookup_filter_None. right. intros s' Hs'. rewrite Hk in Hs'.
        injection Hs' as <-. unfold P. cbn. rewrite Hs. discriminate.
    - apply map_lookup_filter_None. left. exact Hk. }
  assert (Hother : forall (m : gmap string slot) k',
             (forall k, k <> key -> m !! k = filter P store !! k) ->
             k' <> key -> fresh_count m k' now = fresh_count store k' now).
  { intros m k' Hm Hne. unfold fresh_count. rewrite (Hm k' Hne), Hf.
    destruct (store !! k') as [s|]; [|reflexivity].
    destruct (Qltb (now - 86400) (timestamp s)) eqn:Hs; [|reflexivity].
    now rewrite Hs. }
  assert (Hnow : Qltb (now - 86400) now = true) by (apply Qltb_lt; lra).
  destruct (filter P store !! key) as [s|] eqn:Hkey.
  - assert (Hs : store !! key = Some s /\ Qltb (now - 86400) (timestamp s) = true).
    { rewrite Hf in Hkey. destruct (store !! key) as [s0|]; [|discriminate].
      destruct (Qltb (now - 86400) (timestamp s0)) eqn:E; [|discriminate].
      injection Hkey as <-. auto. }
    destruct Hs as [Hs Hfresh].
    eexists. split; [|split].
    + rewrite lookup_alter_eq, Hkey. cbn [fmap option_fmap option_map count].
      do 3 f_equal. unfold fresh_count. now rewrite Hs, Hfresh.
    + intros k' Hne. apply Hother; [|exact Hne].
      intros k Hk. now rewrite lookup_alter_ne by auto.
    + unfold fresh_count. rewrite lookup_alter_eq, Hkey, Hs.
      cbn [fmap option_fmap option_map count timestamp]. now rewrite Hfresh.
  - assert (Hz : fresh_count store key now = 0).
    { unfold fresh_count. rewrite Hf in Hkey.
      destruct (store !! key) as [s0|]; [|reflexivity].
      destruct (Qltb (now - 86400) (timestamp s0)); [discriminate | reflexivity]. }
    eexists. split; [|split].
    + rewrite lookup_alter_eq, lookup_insert_eq. cbn [fmap option_fmap option_map count].
      now rewrite Hz.
    + intros k' Hne. apply Hother; [|exact Hne].
      intros k Hk. rewrite lookup_alter_ne by auto. now rewrite lookup_insert_ne by auto.
    + rewrite Hz. unfold fresh_count. rewrite lookup_alter_eq, lookup_insert_eq.
      cbn [fmap option_fmap option_map count timestamp]. now rewrite Hnow.
Qed.

Lemma plan_config_half_burst (plan : string) :
  0 < burst_capacity (_get_rate_limit_config plan) / 2.
Proof.
  destruct (plan_config_cases plan) as [-> | [-> | [-> | ->]]]; reflexivity.
Qed.

Lemma remaining_minute_header (v : verdict) (now : Q) :
  assoc "X-RateLimit-Remaining-Minute" (rate_limit_headers v now)
  = Some (pretty (Z.max 0 (rpm_limit v - minute_count v))).
Proof. reflexivity. Qed.

(** With Redis down from the start the limiter keeps counting in memory:
    the minute ceiling never denies (the fallback bucket always reports half
    the burst capacity), the hour and day ceilings still do. *)
Lemma offline_check (store : gmap string slot) (request : request)
  (user_id tenant_id : option string) (plan : string) (endpoint : option string) (now : Q) :
  let cid := _get_client_id request user_id tenant_id in
  let ep := effective_endpoint request endpoint in
  exists v store',
    check_rate_limit_verdict (offline store) request user_id tenant_id plan endpoint now
      = (Ok v, offline store') /\
    config v = _get_rate_limit_config plan /\
    rpm_limit v = endpoint_limit (config v) (_get_endpoint_category ep) /\
    minute_count v = fresh_count store (_get_redis_key cid "minute" (Some ep) now) now + 1 /\
    hour_count v = fresh_count store (_get_redis_key cid "hour" None now) now + 1 /\
    day_count v = fresh_count store (_get_redis_key cid "day" None now) now + 1 /\
    burst_tokens v = burst_capacity (config v) / 2 /\
    allowed v = negb ((requests_per_hour (config v) <? hour_count v)
                      || (requests_per_day (config v) <? day_count v)) /\
    limit_exceeded v
    = (if requests_per_day (config v) <? day_count v then Some "day"
       else if requests_per_hour (config v) <? hour_count v then Some "hour"
       else None) /\
    fresh_count store' (_get_redis_key cid "hour" None now) now
    = fresh_count store (_get_redis_key cid "hour" None now) now + 1 /\
    fresh_count store' (_get_redis_key cid "day" None now) now
    = fresh_count store (_get_redis_key cid "day" None now) now + 1.
Proof.
  cbv zeta.
  destruct (redis_keys_distinct (_get_client_id request user_id tenant_id)
              (Some (effective_endpoint request endpoint)) now)
    as (Kmh & Kmd & _ & Khd & _ & _).
  unfold check_rate_limit_verdict.
  unfold _increment_counter at 1. cbn [redis_client offline].
  fold (offline store).
  destruct (fallback_increment_offline store
              (_get_redis_key (_get_client_id request user_id tenant_id) "minute"
                 (Some (effective_endpoint request endpoint)) now) now)
    as (s1 & -> & H1 & _).
  unfold _increment_counter at 1. cbn [redis_client offline]. fold (offline s1).
  destruct (fallback_increment_offline s1
              (_get_redis_key (_get_client_id request user_id tenant_id) "hour" None now) now)
    as (s2 & -> & H2 & G2).
  unfold _increment_counter at 1. cbn [redis_client offline]. fold (offline s2).
  destruct (fallback_increment_offline s2
              (_get_redis_key (_get_client_id request user_id tenant_id) "day" None now) now)
    as (s3 & -> & H3 & G3).
  unfold _get_burst_tokens, _consume_burst_token. cbn [redis_client offline].
  pose proof (plan_config_half_burst plan) as HB.
  rewrite (proj2 (Z.ltb_lt 0 _) HB).
  assert (Gh : fresh_count s3 (_get_redis_key (_get_client_id request user_id tenant_id)
                                 "hour" None now) now
               = fresh_count store (_get_redis_key (_get_client_id request user_id tenant_id)
                                      "hour" None now) now + 1)
    by (rewrite (H3 _ Khd), G2, (H1 _ (not_eq_sym Kmh)); reflexivity).
  assert (Gd : fresh_count s3 (_get_redis_key (_get_client_id request user_id tenant_id)
                                 "day" None now) now
               = fresh_count store (_get_redis_key (_get_client_id request user_id tenant_id)
                                      "day" None now) now + 1)
    by (rewrite G3, (H2 _ (not_eq_sym Khd)), (H1 _ (not_eq_sym Kmd)); reflexivity).
  rewrite (H1 _ (not_eq_sym Kmh)), (H2 _ (not_eq_sym Khd)), (H1 _ (not_eq_sym Kmd)).
  destruct (endpoint_limit _ _ <? _), (requests_per_hour _ <? _) eqn:Eh,
    (requests_per_day _ <? _) eqn:Ed;
    eexists _, s3; (split; [reflexivity|]);
    cbn [config rpm_limit minute_count hour_count day_count burst_tokens allowed
         limit_exceeded];
    rewrite ?Eh, ?Ed; repeat split; try reflexivity; assumption.
Qed.

(** What a limiter that counts in memory answers at hour count [hc] and day
    count [dc]. *)
Definition offline_answer (cfg : RateLimitConfig) (hc dc : Z)
  : option (bool * option string) :=
  if requests_per_day cfg <? dc then Some (false, Some "day")
  else if requests_per_hour cfg <? hc then Some (false, Some "hour")
  else Some (true, None).

(** A run of [n] calls at one instant, Redis down: the [i]-th answer is the
    one for the stored hour and day counts plus [i]. *)
Lemma offline_run (request : request) (user_id tenant_id : option string)
  (plan : string) (endpoint : option string) (now : Q) (n : nat) :
  forall store : gmap string slot,
  let cid := _get_client_id request user_id tenant_id in
  let h := fresh_count store (_get_redis_key cid "hour" None now) now in
  let d := fresh_count store (_get_redis_key cid "day" None now) now in
  map outcome (serve (offline store) request user_id tenant_id plan endpoint (repeat now n))
  = map (fun i => offline_answer (_get_rate_limit_config plan)
                    (h + Z.of_nat i) (d + Z.of_nat i)) (seq 1 n).
Proof.
  induction n as [|n IH]; intros store; [reflexivity|]. cbv zeta.
  destruct (offline_check store request user_id tenant_id plan endpoint now)
    as (v & store' & Hv & Hc & _ & _ & Hh & Hd & _ & Ha & Hl & Gh & Gd).
  cbn [repeat serve seq map]. unfold check_rate_limit. rewrite Hv. cbn [map].
  f_equal.
  - unfold outcome. rewrite limit_exceeded_header, Ha, Hl, Hh, Hd, Hc.
    unfold offline_answer. change (Z.of_nat 1) with 1.
    repeat match goal with
    | |- context [Z.ltb ?a ?b] => destruct (Z.ltb a b)
    end; reflexivity.
  - rewrite IH. cbv zeta. rewrite Gh, Gd.
    rewrite <- (seq_shift n 1), map_map.
    apply map_ext. intros i. f_equal; lia.
Qed.

Definition burst_of_calls (n : nat) : list Q := repeat 0%Q n.

(** C5, as stated, fails for [EnterpriseRateLimiter] with Redis down: the
    very first answer already reports 59 of 60 per-minute requests as
    remaining, and of 3001 calls arriving in one hour window the last one is
    denied with the hour ceiling. *)
Lemma redis_down_counterexample :
  let first :=
    fst (check_rate_limit (offline ∅) plain_request (Some "u1") None "starter"
           (Some "/api/courses") 0) in
  (exists headers,
     first = Ok (true, headers) /\
     assoc "X-RateLimit-Limit-Minute" headers = Some "60" /\
     assoc "X-RateLimit-Remaining-Minute" headers = Some "59") /\
  List.last (map outcome (serve (offline ∅) plain_request (Some "u1") None "starter"
                            (Some "/api/courses") (burst_of_calls 3001))) None
  = Some (false, Some "hour").
Proof.
  cbv zeta. split.
  - eexists. split; [vm_compute; reflexivity|]. split; reflexivity.
  - unfold burst_of_calls. rewrite offline_run.
    rewrite (seq_S 3000 1), map_app. cbn [map]. rewrite last_last. reflexivity.
Qed.

(** C5, amended: with no Redis client, and with a client whose server does
    not answer, [RateLimiter.check_rate_limit] of auth_middleware allows
    every call and reports the whole limit as remaining, as claimed.
    [EnterpriseRateLimiter.check_rate_limit] built while Redis
    was down never raises and keeps counting in its in-memory store: each
    count is the stored count of the window plus one, the minute ceiling
    never denies (the fallback bucket always reports half the burst
    capacity), the call is denied exactly when the hour or the day count
    exceeds its ceiling, and the remaining-minute header is the ceiling minus
    the count, never the whole limit. *)
Theorem redis_down_policy :
  (forall (key : string) (limit window_seconds : Z) (now : Q),
     Auth.check_rate_limit None key limit window_seconds now = ((true, limit), None)) /\
  (forall (c : Redis.conn) (key : string) (limit window_seconds : Z) (now : Q),
     Redis.alive c = false ->
     Auth.check_rate_limit (Some c) key limit window_seconds now
     = ((true, limit), Some c)) /\
  (forall (store : gmap string slot) (request : request)
          (user_id tenant_id : option string) (plan : string)
          (endpoint : option string) (now : Q),
     let cid := _get_client_id request user_id tenant_id in
     let ep := effective_endpoint request endpoint in
     exists v store',
       check_rate_limit (offline store) request user_id tenant_id plan endpoint now
         = (Ok (allowed v, rate_limit_headers v now), offline store') /\
       config v = _get_rate_limit_config plan /\
       rpm_limit v = endpoint_limit (config v) (_get_endpoint_category ep) /\
       minute_count v = fresh_count store (_get_redis_key cid "minute" (Some ep) now) now + 1 /\
       hour_count v = fresh_count store (_get_redis_key cid "hour" None now) now + 1 /\
       day_count v = fresh_count store (_get_redis_key cid "day" None now) now + 1 /\
       allowed v = negb ((requests_per_hour (config v) <? hour_count v)
                         || (requests_per_day (config v) <? day_count v)) /\
       assoc "X-RateLimit-Remaining-Minute" (rate_limit_headers v now)
         = Some (pretty (Z.max 0 (rpm_limit v - minute_count v)))).
Proof.
  split; [reflexivity|].
  split.
  { intros c key limit window_seconds now Hdown.
    unfold Auth.check_rate_limit. now rewrite Hdown. }
  intros store request user_id tenant_id plan endpoint now. cbv zeta.
  destruct (offline_check store request user_id tenant_id plan endpoint now)
    as (v & store' & Hv & Hc & Hr & Hm & Hh & Hd & _ & Ha & _).
  exists v, store'. unfold check_rate_limit. rewrite Hv.
  repeat split; try assumption.
Qed.

Lemma redis_down_policy_witness :
  Auth.check_rate_limit (Some (Redis.mk_conn false ∅)) "rate_limit:t1:u1:16" 20 60 1000
  = ((true, 20), Some (Redis.mk_conn false ∅)).
Proof.
  exact (proj1 (proj2 redis_down_policy) (Redis.mk_conn false ∅) "rate_limit:t1:u1:16"
           20 60 1000%Q eq_refl).
Defined.

End Fallback.

(** ** Permissions *)

Section Permissions.
Import Py Auth.
Local Open Scope Z_scope.

Lemma str_in_In (x : string) (xs : list string) : str_in x xs = true <-> In x xs.
Proof.
  unfold str_in. rewrite existsb_exists. split.
  - intros (y & Hy & E). apply String.eqb_eq in E. now subst.
  - intros H. exists x. split; [exact H | apply String.eqb_refl].
Qed.

(** C10: [require_permission p] lets a user through exactly when [p] itself
    or the bare string "*" is among the user's permissions, and answers 403
    "Permission required: p" otherwise; a scoped wildcard such as "course:*"
    counts only as that literal string, so the admin role, which holds
    "course:*" but neither "course:read" nor "*", is refused "course:read". *)
Theorem require_permission_exact :
  (forall (permission : string) (current_user : UserClaims.t),
     (require_permission permission current_user = Ok current_user <->
        In permission (UserClaims.permissions current_user)
        \/ In "*" (UserClaims.permissions current_user)) /\
     (~ (In permission (UserClaims.permissions current_user)
         \/ In "*" (UserClaims.permissions current_user)) ->
      require_permission permission current_user
        = Raise (HTTPException 403 ("Permission required: " +:+ permission)))) /\
  (forall current_user : UserClaims.t,
     In "course:*" (UserClaims.permissions current_user) ->
     ~ In "course:read" (UserClaims.permissions current_user) ->
     ~ In "*" (UserClaims.permissions current_user) ->
     require_permission "course:read" current_user
       = Raise (HTTPException 403 "Permission required: course:read")) /\
  (forall (self : service) (user_id tenant_id email tenant_name session_id : string)
          (exp iat : Z),
     let permissions :=
       fst (_get_user_permissions (with_permission_cache self ∅) user_id "admin" tenant_id) in
     let admin :=
       UserClaims.mk user_id email "admin" tenant_id tenant_name permissions
         session_id exp iat in
     In "course:*" permissions /\ ~ In "course:read" permissions /\ ~ In "*" permissions /\
     require_permission "course:read" admin
       = Raise (HTTPException 403 "Permission required: course:read")).
Proof.
  assert (Hiff : forall (permission : string) (current_user : UserClaims.t),
     (require_permission permission current_user = Ok current_user <->
        In permission (UserClaims.permissions current_user)
        \/ In "*" (UserClaims.permissions current_user)) /\
     (~ (In permission (UserClaims.permissions current_user)
         \/ In "*" (UserClaims.permissions current_user)) ->
      require_permission permission current_user
        = Raise (HTTPException 403 ("Permission required: " +:+ permission)))).
  { intros permission current_user. unfold require_permission.
    destruct (str_in permission (UserClaims.permissions current_user)) eqn:E1;
      destruct (str_in "*" (UserClaims.permissions current_user)) eqn:E2;
      cbn [negb andb]; (split; [split|]); intros H;
      try reflexivity; try discriminate H;
      try (left; now apply str_in_In); try (right; now apply str_in_In);
      try (exfalso; apply H; left; now apply str_in_In);
      try (exfalso; apply H; right; now apply str_in_In);
      try (destruct H as [H | H]; apply str_in_In in H; congruence). }
  split; [exact Hiff|]. split.
  - intros current_user _ Hread Hstar.
    apply (proj2 (Hiff "course:read" current_user)). tauto.
  - intros self user_id tenant_id email tenant_name session_id exp iat. cbv zeta.
    unfold _get_user_permissions. cbn [permission_cache with_permission_cache].
    rewrite lookup_empty. cbn [fst].
    assert (Hperms : default ["course:read"] (base_permissions "admin")
                     = ["course:*"; "user:*"; "content:*"; "assessment:*";
                        "analytics:*"; "system:configure"]) by reflexivity.
    rewrite Hperms.
    split; [cbn; auto|]. split; [|split].
    + cbn. intros H. repeat destruct H as [H | H]; try discriminate H. exact H.
    + cbn. intros H. repeat destruct H as [H | H]; try discriminate H. exact H.
    + reflexivity.
Qed.

End Permissions.

(** ** Login failures *)

Section LoginFailures.
Import Py Auth.
Local Open Scope Z_scope.

(** A stand-in for SHA-256 in the examples. *)
Definition toy_digest (s : string) : string := "sha256(" +:+ s +:+ ")".

(** A store with an active tenant (Alice), a user without institution (Bob)
    and a deactivated tenant (Carol). *)
Definition campus_db : database :=
  mk_db true
    [UserRow.mk "u1" "alice@acme.edu" (toy_digest "correct horse") "Alice" "Adams"
       "student" (Some "t1") (Some 1);
     UserRow.mk "u2" "bob@nowhere.org" (toy_digest "hunter2") "Bob" "Brown"
       "student" None (Some 1);
     UserRow.mk "u3" "carol@closed.edu" (toy_digest "tr0ub4dor") "Carol" "Clark"
       "admin" (Some "t2") (Some 1)]
    [InstitutionRow.mk "t1" "Acme University" "acme.edu" (Some "starter") (Some 100)
       SettingsNull (Some 0%Q) (Some 1);
     InstitutionRow.mk "t2" "Closed College" "closed.edu" (Some "starter") (Some 100)
       SettingsNull (Some 0%Q) (Some 0)].

Definition campus : service :=
  mk_service campus_db (Some (Redis.mk_conn true ∅)) "secret" "HS256" 60 30 ∅ ∅ []
    (fun n => "uuid-" +:+ pretty n) 0.

Definition login (email password : string) (tenant_domain : option string)
  : AuthenticationResult :=
  fst (authenticate_user toy_digest campus email password tenant_domain 1000).







End LoginFailures.

(** ** Tokens *)

Section Tokens.
Import Py Auth.
Local Open Scope Z_scope.

Lemma claims_round_trip (c : UserClaims.t) : UserClaims_of (claims_dict c) = Ok c.
Proof. destruct c. reflexivity. Qed.

Lemma claims_dict_exp (c : UserClaims.t) : claims_dict c !! "exp" = Some (JI (UserClaims.exp c)).
Proof. reflexivity. Qed.

Lemma claims_dict_iat (c : UserClaims.t) : claims_dict c !! "iat" = Some (JI (UserClaims.iat c)).
Proof. reflexivity. Qed.

(** [jwt.decode] of a token issued under the same secret and algorithm,
    between [iat] and [exp]. *)
Lemma decode_issued (self : service) (c : UserClaims.t) (now : Q) :
  (inject_Z (UserClaims.iat c) <= now)%Q ->
  (now < inject_Z (UserClaims.exp c))%Q ->
  jwt_decode (issue self c) (jwt_secret self) [jwt_algorithm self] now = Ok (claims_dict c).
Proof.
  intros Hiat Hexp. unfold issue, jwt_encode, jwt_decode, str_in.
  cbn [existsb]. rewrite !String.eqb_refl. cbn [orb negb].
  rewrite claims_dict_exp, claims_dict_iat.
  apply Qltb_lt in Hexp. apply Qltb_ge in Hiat. now rewrite Hexp, Hiat.
Qed.

Lemma get_tenant_config_with_redis (self : service) (d : gmap string Redis.entry)
  (tenant_id : string) :
  get_tenant_config (with_redis self d) tenant_id
  = (fst (get_tenant_config self tenant_id),
     with_redis (snd (get_tenant_config self tenant_id)) d).
Proof.
  unfold get_tenant_config. cbn [tenant_cache db with_redis].
  destruct (tenant_cache self !! tenant_id); [reflexivity|].
  destruct (reachable (db self)); [|reflexivity]. cbn [negb].
  destruct (List.find _ _) as [row|]; [|reflexivity].
  destruct (tenant_config_of_row row); reflexivity.
Qed.

(** The session entry of [session_id] is live: there is no Redis client, or
    Redis is up and holds the session's JSON, not yet expired. *)
Definition session_live (self : service) (session_id : string) (now : Q) : Prop :=
  match redis_client self with
  | None => True
  | Some c =>
      Redis.alive c = true /\
      exists fields,
        Redis.get (Redis.data c) (session_key session_id) now
        = Ok (Some (Redis.SJson fields))
  end.

(** The service can renew a session entry: it has no Redis client, or its
    access tokens have a positive lifetime (SETEX refuses any other). *)
Definition renewable (self : service) : Prop :=
  match redis_client self with
  | None => True
  | Some _ => 0 < access_token_expire_minutes self
  end.

(** [get_tenant_config] finds the tenant, and active. *)
Definition tenant_active (self : service) (tenant_id : string) : Prop :=
  exists config,
    fst (get_tenant_config self tenant_id) = Some config /\
    TenantConfig.is_active config = true.

(** The checks of [verify_token] after the decoding: the session, then the
    tenant. *)
Lemma verify_decoded (self : service) (token : jwt) (claims : UserClaims.t) (now : Q) :
  jwt_decode token (jwt_secret self) [jwt_algorithm self] now = Ok (claims_dict claims) ->
  session_live self (UserClaims.session_id claims) now ->
  renewable self ->
  tenant_active self (UserClaims.tenant_id claims) ->
  fst (verify_token self token now) = Ok claims.
Proof.
  intros Hdec Hsession Hrenew (config & Hcfg & Hactive).
  unfold verify_token, verify_token_try.
  rewrite Hdec, claims_round_trip.
  unfold session_live in Hsession. unfold renewable in Hrenew.
  destruct (redis_client self) as [c|] eqn:Hc.
  - destruct Hsession as (Halive & fields & Hget).
    rewrite Halive, Hget. cbn [negb Redis.nonempty].
    rewrite setex_ok by (apply inject_Z_pos; lia).
    rewrite get_tenant_config_with_redis, Hcfg, Hactive. reflexivity.
  - destruct (get_tenant_config self (UserClaims.tenant_id claims)) as [cfg s2].
    cbn [fst] in Hcfg. rewrite Hcfg, Hactive. reflexivity.
Qed.

(** C9: for a service whose access tokens have a positive lifetime, a token
    issued for any claims, verified under the same secret and algorithm
    between [iat] and [exp], with the session entry live and the tenant
    active, gives back exactly those claims. *)
Theorem token_round_trip (self : service) (claims : UserClaims.t) (now : Q) :
  0 < access_token_expire_minutes self ->
  (inject_Z (UserClaims.iat claims) <= now)%Q ->
  (now < inject_Z (UserClaims.exp claims))%Q ->
  session_live self (UserClaims.session_id claims) now ->
  tenant_active self (UserClaims.tenant_id claims) ->
  fst (verify_token self (issue self claims) now) = Ok claims.
Proof.
  intros Hmin Hiat Hexp Hsession Htenant.
  apply verify_decoded; [|exact Hsession | | exact Htenant].
  - apply decode_issued; assumption.
  - unfold renewable. now destruct (redis_client self).
Qed.

(** Alice's token, issued at t = 1000 by the service of the login example. *)
Definition alice_issued : result (jwt * UserClaims.t) * service :=
  create_access_token campus "u1" "t1" 1000.

Definition alice_claims : UserClaims.t :=
  UserClaims.mk "u1" "alice@acme.edu" "student" "t1" "Acme University"
    ["course:read"; "course:enroll"; "progress:read";
     "assessment:take"; "content:view"; "profile:edit"]
    "uuid-0" 4600 1000.

Lemma alice_issued_claims :
  fst alice_issued = Ok (issue campus alice_claims, alice_claims).
Proof. vm_compute. reflexivity. Qed.

Lemma token_round_trip_witness :
  fst (verify_token (snd alice_issued) (issue (snd alice_issued) alice_claims) 1010)
  = Ok alice_claims.
Proof.
  apply (token_round_trip (snd alice_issued) alice_claims 1010).
  - reflexivity.
  - vm_compute. discriminate.
  - reflexivity.
  - split; [reflexivity|]. eexists. vm_compute. reflexivity.
  - eexists. split; vm_compute; reflexivity.
Defined.

Lemma get_tenant_config_cached (self : service) (tenant_id : string)
  (config : TenantConfig.t) :
  tenant_cache self !! tenant_id = Some config ->
  get_tenant_config self tenant_id = (Some config, self).
Proof. intros H. unfold get_tenant_config. now rewrite H. Qed.

Lemma py_int_below (q now : Q) :
  (0 <= now)%Q -> (now < inject_Z (py_int q))%Q -> (now < q)%Q.
Proof.
  intros Hnow Hlt.
  destruct (Qlt_le_dec q 0) as [Hneg | Hpos].
  - exfalso. assert (py_int q <= 0).
    { unfold py_int. apply Z.quot_le_upper_bound; [reflexivity|].
      destruct q as [n d]. unfold Qlt in Hneg. cbn in *. lia. }
    assert (inject_Z (py_int q) <= inject_Z 0)%Q by (rewrite <- Zle_Qle; assumption).
    change (inject_Z 0) with 0%Q in *. lra.
  - rewrite (py_int_floor q Hpos) in Hlt. pose proof (Qfloor_le q). lra.
Qed.

(** A token made by [create_access_token] verifies, with the claims it was
    made for, at any time from its issue until [exp]: the session entry it
    stored outlives [exp], and the tenant it checked sits in the cache. *)
Lemma issued_token_verifies (self : service) (user_id tenant_id : string) (t0 now : Q)
  (token : jwt) (claims : UserClaims.t) (self' : service) :
  create_access_token self user_id tenant_id t0 = (Ok (token, claims), self') ->
  (0 <= t0)%Q -> (t0 <= now)%Q -> (now < inject_Z (UserClaims.exp claims))%Q ->
  fst (verify_token self' token now) = Ok claims.
Proof.
  unfold create_access_token.
  destruct (_get_user_info self user_id tenant_id) as [user_info|]; [|discriminate].
  destruct (get_tenant_config self tenant_id) as [[tc|] s1] eqn:Ht; [|discriminate].
  destruct (TenantConfig.is_active tc) eqn:Hactive; cbn [negb]; [|discriminate].
  assert (H1 : tenant_cache s1 !! tenant_id = Some tc /\
               jwt_secret s1 = jwt_secret self /\ jwt_algorithm s1 = jwt_algorithm self /\
               redis_client s1 = redis_client self /\
               access_token_expire_minutes s1 = access_token_expire_minutes self).
  { revert Ht. unfold get_tenant_config.
    destruct (tenant_cache self !! tenant_id) as [c|] eqn:Hc.
    - intros [= <- <-]. auto.
    - destruct (reachable (db self)); cbn [negb]; [|discriminate].
      destruct (List.find _ _) as [row|]; [|discriminate].
      destruct (tenant_config_of_row row); [|discriminate].
      intros [= <- <-]. cbn. rewrite lookup_insert_eq. auto. }
  destruct H1 as (Hcache & Hsec & Halg & Hredis & Hmin1).
  destruct (_get_user_permissions s1 user_id (UserRow.role user_info) tenant_id)
    as [permissions s2] eqn:Hp.
  assert (H2 : tenant_cache s2 = tenant_cache s1 /\
               jwt_secret s2 = jwt_secret s1 /\ jwt_algorithm s2 = jwt_algorithm s1 /\
               redis_client s2 = redis_client s1 /\
               access_token_expire_minutes s2 = access_token_expire_minutes s1).
  { revert Hp. unfold _get_user_permissions.
    destruct (permission_cache s1 !! _); intros [= <- <-]; auto. }
  destruct H2 as (Hcache2 & Hsec2 & Halg2 & Hredis2 & Hmin2).
  unfold uuid4. cbn [redis_client].
  intros Hmk Ht0 Hnow Hexp.
  set (ttl := inject_Z (access_token_expire_minutes self * 60)) in *.
  assert (Hissue : forall s c, jwt_secret s = jwt_secret self ->
                               jwt_algorithm s = jwt_algorithm self ->
                               issue self c = issue s c).
  { intros s c E1 E2. unfold issue. now rewrite E1, E2. }
  destruct (redis_client s2) as [conn|] eqn:Hconn.
  - destruct (Redis.alive conn) eqn:Halive; [|discriminate].
    match type of Hmk with
    | context [Redis.setex ?d ?k ?x ?v ?n] =>
        destruct (setex_cases d k x v n) as [[Hpos Hset] | [_ Hset]];
          rewrite Hset in Hmk; [|discriminate]
    end.
    injection Hmk as <- <- <-.
    erewrite Hissue; [apply verify_decoded; [apply decode_issued| | |]| |].
    + cbn [UserClaims.iat]. rewrite (py_int_floor t0 Ht0).
      pose proof (Qfloor_le t0). lra.
    + exact Hexp.
    + unfold session_live. cbn [redis_client with_redis option_map UserClaims.session_id].
      cbn [option_map Redis.alive Redis.data]. split; [exact Halive|].
      eexists. unfold Redis.get. rewrite peek_insert_eq.
      cbn [Redis.is_live Redis.expiry UserClaims.exp] in *.
      assert (L : (now < t0 + ttl)%Q) by (apply py_int_below; [lra | exact Hexp]).
      apply Qltb_lt in L. rewrite L. reflexivity.
    + unfold renewable. cbn. rewrite Hmin2, Hmin1.
      apply inject_Z_pos_inv in Hpos. lia.
    + exists tc. split; [|exact Hactive].
      rewrite get_tenant_config_cached with (config := tc); [reflexivity|].
      cbn [tenant_cache with_redis UserClaims.tenant_id]. now rewrite Hcache2.
    + cbn. congruence.
    + cbn. congruence.
  - injection Hmk as <- <- <-.
    erewrite Hissue; [apply verify_decoded; [apply decode_issued| | |]| |].
    + cbn [UserClaims.iat]. rewrite (py_int_floor t0 Ht0).
      pose proof (Qfloor_le t0). lra.
    + exact Hexp.
    + unfold session_live. cbn [redis_client]. exact I.
    + unfold renewable. cbn. exact I.
    + exists tc. split; [|exact Hactive].
      rewrite get_tenant_config_cached with (config := tc); [reflexivity|].
      cbn [tenant_cache UserClaims.tenant_id]. now rewrite Hcache2.
    + cbn. congruence.
    + cbn. congruence.
Qed.

Lemma issued_token_verifies_witness :
  fst (verify_token (snd alice_issued) (issue campus alice_claims) 1010) = Ok alice_claims.
Proof.
  apply (issued_token_verifies campus "u1" "t1" 1000 1010
           (issue campus alice_claims) alice_claims (snd alice_issued)).
  - vm_compute. reflexivity.
  - vm_compute. discriminate.
  - vm_compute. discriminate.
  - reflexivity.
Defined.

(** ** Tenant deactivation *)

(** UPDATE institutions SET is_active = 0 WHERE id = tenant_id *)
Definition deactivate_tenant (d : database) (tenant_id : string) : database :=
  mk_db (reachable d) (users d)
    (map (fun r =>
            if String.eqb (InstitutionRow.id r) tenant_id
            then InstitutionRow.mk (InstitutionRow.id r) (InstitutionRow.name r)
                   (InstitutionRow.domain r) (InstitutionRow.subscription_plan r)
                   (InstitutionRow.max_students r) (InstitutionRow.settings r)
                   (InstitutionRow.created_at r) (Some 0)
            else r)
         (institutions d)).

(** While a tenant sits in [tenant_cache], [verify_token] never looks at the
    store: whatever the store has become, the answer is the same. *)
Lemma verify_token_uses_cached_tenant (self : service) (d : database)
  (claims : UserClaims.t) (config : TenantConfig.t) (now : Q) :
  tenant_cache self !! UserClaims.tenant_id claims = Some config ->
  fst (verify_token (with_db self d) (issue self claims) now)
  = fst (verify_token self (issue self claims) now).
Proof.
  intros Hcache. unfold verify_token, verify_token_try.
  cbn [with_db jwt_secret jwt_algorithm redis_client access_token_expire_minutes].
  destruct (jwt_decode (issue self claims) (jwt_secret self) [jwt_algorithm self] now)
    as [payload|e] eqn:Hdec; [|destruct e; reflexivity].
  destruct (UserClaims_of payload) as [c|e] eqn:Hc; [|destruct e; reflexivity].
  assert (c = claims) as ->.
  { revert Hdec Hc. unfold issue, jwt_encode, jwt_decode.
    repeat match goal with
    | |- context [if ?b then _ else _] => destruct b
    | |- context [match ?x with _ => _ end] => destruct x
    end; try discriminate; intros [= <-]; rewrite claims_round_trip; congruence. }
  destruct (redis_client self) as [conn|].
  - destruct (Redis.alive conn); cbn [negb]; [|reflexivity].
    destruct (Redis.get _ _ now) as [[v|]|e]; [|reflexivity|destruct e; reflexivity].
    destruct (Redis.nonempty v); cbn [negb]; [|reflexivity].
    destruct v; try reflexivity.
    destruct (Redis.setex _ _ _ _ now) as [[u|e] d1]; [|destruct e; reflexivity].
    rewrite !(get_tenant_config_cached _ _ config) by exact Hcache.
    destruct (TenantConfig.is_active config); reflexivity.
  - rewrite !(get_tenant_config_cached _ _ config) by exact Hcache.
    destruct (TenantConfig.is_active config); reflexivity.
Qed.

Lemma verify_token_uses_cached_tenant_witness :
  fst (verify_token
         (with_db (snd alice_issued) (deactivate_tenant (db (snd alice_issued)) "t1"))
         (issue (snd alice_issued) alice_claims) 1010)
  = fst (verify_token (snd alice_issued) (issue (snd alice_issued) alice_claims) 1010).
Proof.
  eapply (verify_token_uses_cached_tenant (snd alice_issued)
            (deactivate_tenant (db (snd alice_issued)) "t1") alice_claims).
  vm_compute. reflexivity.
Defined.

(** No path through [verify_token] ends in 401 "Tenant inactive": the
    exception raised for an inactive tenant is caught by the last [except]
    of the same [try] and leaves as "Authentication failed". *)
Lemma verify_token_never_says_tenant_inactive (self : service) (token : jwt) (now : Q) :
  fst (verify_token self token now) <> Raise (HTTPException 401 "Tenant inactive").
Proof.
  unfold verify_token.
  destruct (verify_token_try self token now) as [[c|e] s]; [discriminate|].
  destruct e; discriminate.
Qed.

(** C1 on the code: Alice's token is issued at t = 1000; then the store
    deactivates her tenant.  With the configuration cached at issue the token
    still verifies at t = 1010; and once the cache entry is gone the failure
    is 401 "Authentication failed", not "Tenant inactive". *)
Theorem deactivated_tenant_token_still_verifies :
  let token := issue campus alice_claims in
  let issued := snd alice_issued in
  let deactivated := with_db issued (deactivate_tenant (db issued) "t1") in
  fst alice_issued = Ok (token, alice_claims) /\
  option_map TenantConfig.is_active
    (fst (get_tenant_config (with_tenant_cache deactivated ∅) "t1")) = Some false /\
  fst (verify_token deactivated token 1010) = Ok alice_claims /\
  fst (verify_token (with_tenant_cache deactivated ∅) token 1010)
    = Raise (HTTPException 401 "Authentication failed").
Proof. cbv zeta. repeat split; vm_compute; reflexivity. Qed.

End Tokens.

(** ** Tokens: what [verify_token] accepts and refuses *)

Section TokenChecks.
Import Py Auth.
Local Open Scope Z_scope.

Lemma str_in_singleton (a b : string) : str_in a [b] = true -> a = b.
Proof.
  unfold str_in. cbn [existsb]. rewrite orb_false_r. apply String.eqb_eq.
Qed.

Lemma UserClaims_of_exp_iat (payload : gmap string jwt_value) (claims : UserClaims.t) :
  UserClaims_of payload = Ok claims ->
  payload !! "exp" = Some (JI (UserClaims.exp claims)) /\
  payload !! "iat" = Some (JI (UserClaims.iat claims)).
Proof.
  unfold UserClaims_of.
  destruct (payload !! "user_id") as [[]|]; try discriminate.
  destruct (payload !! "email") as [[]|]; try discriminate.
  destruct (payload !! "role") as [[]|]; try discriminate.
  destruct (payload !! "tenant_id") as [[]|]; try discriminate.
  destruct (payload !! "tenant_name") as [[]|]; try discriminate.
  destruct (payload !! "session_id") as [[]|]; try discriminate.
  destruct (payload !! "exp") as [[]|]; try discriminate.
  destruct (payload !! "iat") as [[]|]; try discriminate.
  destruct (payload !! "permissions") as [[]|]; try discriminate;
    intros [= <-]; auto.
Qed.

(** What [jwt.decode] has checked when it returns a payload. *)
Lemma jwt_decode_ok (token : jwt) (key : string) (alg : string) (now : Q)
  (payload : gmap string jwt_value) :
  jwt_decode token key [alg] now = Ok payload ->
  token = Signed payload key alg /\
  (forall exp, payload !! "exp" = Some (JI exp) -> (now < inject_Z exp)%Q) /\
  (forall iat, payload !! "iat" = Some (JI iat) -> (inject_Z iat <= now)%Q).
Proof.
  unfold jwt_decode. destruct token as [p k a|raw]; [|discriminate].
  destruct (str_in a [alg]) eqn:Ha; cbn [negb]; [|discriminate].
  destruct (String.eqb k key) eqn:Hk; cbn [negb]; [|discriminate].
  apply str_in_singleton in Ha. apply String.eqb_eq in Hk. subst.
  destruct (p !! "exp") as [[s|exp|l]|] eqn:He; try discriminate.
  - destruct (Qltb now (inject_Z exp)) eqn:Hx; cbn [negb]; [|discriminate].
    apply Qltb_lt in Hx.
    destruct (p !! "iat") as [[s|iat|l]|] eqn:Hi; try discriminate.
    + destruct (Qltb now (inject_Z iat)) eqn:Hy; [discriminate|].
      apply Qltb_ge in Hy. intros [= <-]. rewrite He, Hi.
      repeat split; intros ? [= <-]; assumption.
    + intros [= <-]. rewrite He, Hi. repeat split; intros ? [= <-]; assumption.
  - destruct (p !! "iat") as [[s|iat|l]|] eqn:Hi; try discriminate.
    + destruct (Qltb now (inject_Z iat)) eqn:Hy; [discriminate|].
      apply Qltb_ge in Hy. intros [= <-]. rewrite He, Hi.
      repeat split; intros ? [= <-]; assumption.
    + intros [= <-]. rewrite He, Hi. repeat split; intros ? [= <-]; assumption.
Qed.

(** What the body of [verify_token] has checked when it returns claims. *)
Lemma verify_token_try_ok (self : service) (token : jwt) (now : Q)
  (claims : UserClaims.t) (s : service) :
  verify_token_try self token now = (Ok claims, s) ->
  exists payload,
    token = Signed payload (jwt_secret self) (jwt_algorithm self) /\
    UserClaims_of payload = Ok claims /\
    (inject_Z (UserClaims.iat claims) <= now)%Q /\
    (now < inject_Z (UserClaims.exp claims))%Q /\
    session_live self (UserClaims.session_id claims) now /\
    tenant_active self (UserClaims.tenant_id claims).
Proof.
  unfold verify_token_try.
  destruct (jwt_decode token (jwt_secret self) [jwt_algorithm self] now)
    as [payload|e] eqn:Hdec; [|discriminate].
  destruct (UserClaims_of payload) as [c|e] eqn:Hc; [|discriminate].
  destruct (jwt_decode_ok _ _ _ _ _ Hdec) as (Htok & Hexp & Hiat).
  destruct (UserClaims_of_exp_iat _ _ Hc) as [He Hi].
  intros Hrest. exists payload.
  assert (Hcore : c = claims /\ session_live self (UserClaims.session_id c) now /\
                  tenant_active self (UserClaims.tenant_id c)).
  { revert Hrest. unfold session_live, tenant_active.
    destruct (redis_client self) as [conn|] eqn:Hconn.
    - destruct (Redis.alive conn) eqn:Halive; cbn [negb]; [|discriminate].
      destruct (Redis.get _ _ now) as [[v|]|e] eqn:Hget; try discriminate.
      destruct (Redis.nonempty v); cbn [negb]; [|discriminate].
      destruct v as [z|q|s0|fields]; try discriminate.
      destruct (Redis.setex _ _ _ _ now) as [[u|e] d1]; [|discriminate].
      rewrite get_tenant_config_with_redis.
      destruct (get_tenant_config self (UserClaims.tenant_id c)) as [[tc|] s2];
        [|discriminate].
      cbn [fst]. destruct (TenantConfig.is_active tc) eqn:Hact; cbn [negb];
        [|discriminate].
      intros [= <- _]. repeat split; eauto.
    - destruct (get_tenant_config self (UserClaims.tenant_id c)) as [[tc|] s2];
        [|discriminate].
      cbn [fst]. destruct (TenantConfig.is_active tc) eqn:Hact; cbn [negb];
        [|discriminate].
      intros [= <- _]. repeat split; eauto. }
  destruct Hcore as (-> & Hs & Ht). repeat split; auto.
Qed.

Lemma verify_token_ok_inv (self : service) (token : jwt) (now : Q) (claims : UserClaims.t) :
  fst (verify_token self token now) = Ok claims ->
  exists s, verify_token_try self token now = (Ok claims, s).
Proof.
  unfold verify_token.
  destruct (verify_token_try self token now) as [[c|e] s];
    [|destruct e; discriminate].
  cbn [fst]. intros [= ->]. eauto.
Qed.

(** [verify_token] accepts a token only if it was signed under the service's
    secret and algorithm, carries the claims it returns, is inside its
    validity, has its session entry live (when there is a Redis client) and
    belongs to a tenant found active. *)
Theorem verify_token_sound (self : service) (token : jwt) (now : Q)
  (claims : UserClaims.t) :
  fst (verify_token self token now) = Ok claims ->
  exists payload,
    token = Signed payload (jwt_secret self) (jwt_algorithm self) /\
    UserClaims_of payload = Ok claims /\
    (inject_Z (UserClaims.iat claims) <= now)%Q /\
    (now < inject_Z (UserClaims.exp claims))%Q /\
    session_live self (UserClaims.session_id claims) now /\
    tenant_active self (UserClaims.tenant_id claims).
Proof.
  intros H. destruct (verify_token_ok_inv _ _ _ _ H) as [s Htry].
  exact (verify_token_try_ok _ _ _ _ _ Htry).
Qed.

Lemma verify_token_sound_witness :
  exists payload,
    issue campus alice_claims = Signed payload "secret" "HS256" /\
    UserClaims_of payload = Ok alice_claims /\
    (inject_Z 1000 <= 1010)%Q /\ (1010 < inject_Z 4600)%Q /\
    session_live (snd alice_issued) "uuid-0" 1010 /\
    tenant_active (snd alice_issued) "t1".
Proof.
  apply (verify_token_sound (snd alice_issued) (issue campus alice_claims) 1010 alice_claims).
  vm_compute. reflexivity.
Defined.

(** Every refusal of [verify_token] is a 401 with one of three details; a
    token under another key or algorithm, or one that is no JWT, is an
    "Invalid token"; a token of the service past its [exp] is a "Token
    expired". *)
Theorem verify_token_rejections (self : service) (token : jwt) (now : Q) :
  ((exists claims, fst (verify_token self token now) = Ok claims) \/
   fst (verify_token self token now) = Raise (HTTPException 401 "Token expired") \/
   fst (verify_token self token now) = Raise (HTTPException 401 "Invalid token") \/
   fst (verify_token self token now) = Raise (HTTPException 401 "Authentication failed")) /\
  (forall payload key alg,
     token = Signed payload key alg ->
     key <> jwt_secret self \/ alg <> jwt_algorithm self ->
     fst (verify_token self token now) = Raise (HTTPException 401 "Invalid token")) /\
  (forall raw,
     token = Malformed raw ->
     fst (verify_token self token now) = Raise (HTTPException 401 "Invalid token")) /\
  (forall claims,
     token = issue self claims ->
     (inject_Z (UserClaims.exp claims) <= now)%Q ->
     fst (verify_token self token now) = Raise (HTTPException 401 "Token expired")).
Proof.
  repeat split.
  - unfold verify_token.
    destruct (verify_token_try self token now) as [[c|e] s]; cbn [fst]; [eauto|].
    destruct e; auto.
  - intros payload key alg -> Hne. unfold verify_token, verify_token_try, jwt_decode.
    destruct (str_in alg [jwt_algorithm self]) eqn:Ha; cbn [negb]; [|reflexivity].
    apply str_in_singleton in Ha.
    destruct (String.eqb key (jwt_secret self)) eqn:Hk; cbn [negb]; [|reflexivity].
    apply String.eqb_eq in Hk. destruct Hne; contradiction.
  - intros raw ->. reflexivity.
  - intros claims -> Hexp. unfold verify_token, verify_token_try, issue, jwt_encode, jwt_decode.
    unfold str_in. cbn [existsb]. rewrite !String.eqb_refl. cbn [orb negb].
    rewrite claims_dict_exp. apply Qltb_ge in Hexp. rewrite Hexp. reflexivity.
Qed.

End TokenChecks.

Section Sessions.
Import Py Auth Routes.
Local Open Scope Z_scope.

(** What [_log_security_event] leaves alone: everything but the log, the
    identifiers drawn and one Redis key outside the session keys. *)
Lemma log_security_event_keeps (self : service) (event_type : string)
  (user_id tenant_id : option string) (details : list (string * string))
  (severity : string) (now : Q) :
  let self' := _log_security_event self event_type user_id tenant_id details severity now in
  db self' = db self /\ jwt_secret self' = jwt_secret self /\
  jwt_algorithm self' = jwt_algorithm self /\
  access_token_expire_minutes self' = access_token_expire_minutes self /\
  refresh_token_expire_days self' = refresh_token_expire_days self /\
  tenant_cache self' = tenant_cache self /\
  permission_cache self' = permission_cache self /\
  match redis_client self with
  | None => redis_client self' = None
  | Some c =>
      exists d', redis_client self' = Some (Redis.mk_conn (Redis.alive c) d') /\
                 forall session_id, d' !! session_key session_id
                                    = Redis.data c !! session_key session_id
  end.
Proof.
  cbv zeta. unfold _log_security_event.
  cbn [redis_client with_log].
  destruct (redis_client self) as [c|] eqn:Hc.
  - unfold uuid4. destruct (Redis.alive c) eqn:Ha.
    + cbn. rewrite Hc. cbn. repeat split; auto.
      eexists. split; [rewrite Ha; reflexivity|].
      intros sid. unfold Redis.setex. apply lookup_insert_ne. discriminate.
    + cbn. rewrite Hc. repeat split; auto.
      exists (Redis.data c). split; [destruct c; cbn in *; subst; reflexivity | reflexivity].
  - cbn. rewrite Hc. repeat split; auto.
Qed.

(** Two services that [verify_token] cannot tell apart: the same store,
    secret, algorithm, token lifetime and tenant cache, and the same session
    entries. *)
Definition same_auth_view (s s' : service) : Prop :=
  db s' = db s /\ jwt_secret s' = jwt_secret s /\ jwt_algorithm s' = jwt_algorithm s /\
  access_token_expire_minutes s' = access_token_expire_minutes s /\
  tenant_cache s' = tenant_cache s /\
  match redis_client s, redis_client s' with
  | None, None => True
  | Some c, Some c' =>
      Redis.alive c' = Redis.alive c /\
      forall session_id, Redis.data c' !! session_key session_id
                         = Redis.data c !! session_key session_id
  | _, _ => False
  end.

Lemma get_tenant_config_same_view (s s' : service) (tenant_id : string) :
  db s' = db s -> tenant_cache s' = tenant_cache s ->
  fst (get_tenant_config s' tenant_id) = fst (get_tenant_config s tenant_id).
Proof.
  intros Hdb Hcache. unfold get_tenant_config. rewrite Hdb, Hcache.
  destruct (tenant_cache s !! tenant_id); [reflexivity|].
  destruct (reachable (db s)); cbn [negb]; [|reflexivity].
  destruct (List.find _ _) as [row|]; [|reflexivity].
  destruct (tenant_config_of_row row); reflexivity.
Qed.

Lemma verify_token_same_view (s s' : service) (token : jwt) (now : Q) :
  same_auth_view s s' ->
  fst (verify_token s' token now) = fst (verify_token s token now).
Proof.
  intros (Hdb & Hsec & Halg & Hmin & Hcache & Hredis).
  assert (Htenant : forall t, fst (get_tenant_config s' t) = fst (get_tenant_config s t))
    by (intros t; now apply get_tenant_config_same_view).
  unfold verify_token, verify_token_try. rewrite Hsec, Halg, Hmin.
  destruct (jwt_decode token (jwt_secret s) [jwt_algorithm s] now) as [payload|e];
    [|destruct e; reflexivity].
  destruct (UserClaims_of payload) as [c|e]; [|destruct e; reflexivity].
  destruct (redis_client s) as [conn|], (redis_client s') as [conn'|];
    try contradiction.
  - destruct Hredis as [Ha Hd]. rewrite Ha.
    destruct (Redis.alive conn); cbn [negb]; [|reflexivity].
    assert (Hget : Redis.get (Redis.data conn') (session_key (UserClaims.session_id c)) now
                   = Redis.get (Redis.data conn) (session_key (UserClaims.session_id c)) now)
      by (unfold Redis.get, Redis.peek; now rewrite Hd).
    rewrite Hget. clear Hget.
    destruct (Redis.get (Redis.data conn) (session_key (UserClaims.session_id c)) now)
      as [[v|]|e]; [|reflexivity|destruct e; reflexivity].
    destruct (Redis.nonempty v); cbn [negb]; [|reflexivity].
    destruct v; try reflexivity.
    unfold Redis.setex.
    destruct (Qltb 0 (inject_Z (access_token_expire_minutes s * 60))); [|reflexivity].
    rewrite !get_tenant_config_with_redis. cbn [fst snd]. rewrite Htenant.
    destruct (fst (get_tenant_config s (UserClaims.tenant_id c))) as [tc|]; [|reflexivity].
    destruct (TenantConfig.is_active tc); reflexivity.
  - specialize (Htenant (UserClaims.tenant_id c)).
    destruct (get_tenant_config s' (UserClaims.tenant_id c)) as [o1 s1].
    destruct (get_tenant_config s (UserClaims.tenant_id c)) as [o2 s2].
    cbn [fst] in Htenant. subst o1.
    destruct o2 as [tc|]; [|reflexivity].
    destruct (TenantConfig.is_active tc); reflexivity.
Qed.

Lemma log_security_event_same_view (self : service) (event_type : string)
  (user_id tenant_id : option string) (details : list (string * string))
  (severity : string) (now : Q) :
  same_auth_view self
    (_log_security_event self event_type user_id tenant_id details severity now).
Proof.
  pose proof (log_security_event_keeps self event_type user_id tenant_id details
                severity now) as H. cbv zeta in H.
  destruct H as (Hdb & Hsec & Halg & Hmin & _ & Hcache & _ & Hredis).
  unfold same_auth_view. repeat split; try assumption.
  destruct (redis_client self) as [c|].
  - destruct Hredis as (d' & -> & Hd). cbn. auto.
  - now rewrite Hredis.
Qed.

End Sessions.

Section Issuing.
Import Py Auth Routes.
Local Open Scope Z_scope.

Lemma get_tenant_config_some (self : service) (tenant_id : string)
  (tc : TenantConfig.t) (self1 : service) :
  get_tenant_config self tenant_id = (Some tc, self1) ->
  tenant_cache self1 !! tenant_id = Some tc /\
  db self1 = db self /\ jwt_secret self1 = jwt_secret self /\
  jwt_algorithm self1 = jwt_algorithm self /\ redis_client self1 = redis_client self /\
  access_token_expire_minutes self1 = access_token_expire_minutes self /\
  entropy self1 = entropy self /\ drawn self1 = drawn self /\
  permission_cache self1 = permission_cache self.
Proof.
  unfold get_tenant_config.
  destruct (tenant_cache self !! tenant_id) as [c|] eqn:Hc.
  - intros [= <- <-]. repeat split; auto.
  - destruct (reachable (db self)); cbn [negb]; [|discriminate].
    destruct (List.find _ _) as [row|]; [|discriminate].
    destruct (tenant_config_of_row row); [|discriminate].
    intros [= <- <-]. cbn. rewrite lookup_insert_eq. repeat split; auto.
Qed.

(** What a successful [create_access_token] has established. *)
Lemma create_access_token_ok (self : service) (user_id tenant_id : string) (t0 : Q)
  (token : jwt) (claims : UserClaims.t) (self' : service) :
  create_access_token self user_id tenant_id t0 = (Ok (token, claims), self') ->
  token = issue self' claims /\
  db self' = db self /\ jwt_secret self' = jwt_secret self /\
  jwt_algorithm self' = jwt_algorithm self /\
  UserClaims.user_id claims = user_id /\ UserClaims.tenant_id claims = tenant_id /\
  UserClaims.iat claims = py_int t0 /\
  UserClaims.exp claims
  = py_int (t0 + inject_Z (access_token_expire_minutes self * 60))%Q /\
  (exists tc, tenant_cache self' !! tenant_id = Some tc /\
              TenantConfig.is_active tc = true) /\
  (exists row, _get_user_info self user_id tenant_id = Some row /\
               UserClaims.email claims = UserRow.email row /\
               UserClaims.role claims = UserRow.role row) /\
  (forall now, (0 <= now)%Q -> (now < inject_Z (UserClaims.exp claims))%Q ->
               session_live self' (UserClaims.session_id claims) now).
Proof.
  unfold create_access_token.
  destruct (_get_user_info self user_id tenant_id) as [user_info|] eqn:Hu; [|discriminate].
  destruct (get_tenant_config self tenant_id) as [[tc|] s1] eqn:Ht; [|discriminate].
  destruct (TenantConfig.is_active tc) eqn:Hactive; cbn [negb]; [|discriminate].
  destruct (get_tenant_config_some _ _ _ _ Ht)
    as (Hcache & Hdb & Hsec & Halg & Hredis & Hmin & Hent & Hdrawn & Hperm).
  destruct (_get_user_permissions s1 user_id (UserRow.role user_info) tenant_id)
    as [permissions s2] eqn:Hp.
  assert (H2 : tenant_cache s2 = tenant_cache s1 /\ db s2 = db s1 /\
               jwt_secret s2 = jwt_secret s1 /\ jwt_algorithm s2 = jwt_algorithm s1 /\
               redis_client s2 = redis_client s1).
  { revert Hp. unfold _get_user_permissions.
    destruct (permission_cache s1 !! _); intros [= <- <-]; auto. }
  destruct H2 as (Hcache2 & Hdb2 & Hsec2 & Halg2 & Hredis2).
  unfold uuid4. cbn [redis_client].
  set (ttl := inject_Z (access_token_expire_minutes self * 60)) in *.
  assert (Hissue : forall s c, jwt_secret s = jwt_secret self ->
                               jwt_algorithm s = jwt_algorithm self ->
                               issue self c = issue s c).
  { intros s c E1 E2. unfold issue. now rewrite E1, E2. }
  destruct (redis_client s2) as [conn|] eqn:Hconn.
  - destruct (Redis.alive conn) eqn:Halive; [|discriminate].
    match goal with
    | |- context [Redis.setex ?d ?k ?x ?v ?n] =>
        destruct (setex_cases d k x v n) as [[Hpos Hset] | [_ Hset]];
          rewrite Hset; [|discriminate]
    end.
    intros [= <- <- <-].
    split; [apply Hissue; cbn; congruence|].
    cbn [db jwt_secret jwt_algorithm with_redis tenant_cache UserClaims.user_id
         UserClaims.tenant_id UserClaims.iat UserClaims.exp UserClaims.email
         UserClaims.role UserClaims.session_id].
    repeat (split; [congruence|]).
    split; [exists tc; split; [congruence | exact Hactive]|].
    split; [eauto|].
    intros now Hnow Hexp.
    { unfold session_live. cbn [redis_client with_redis option_map].
      cbn [option_map Redis.alive Redis.data]. split; [exact Halive|].
      eexists. unfold Redis.get. rewrite peek_insert_eq.
      cbn [Redis.is_live Redis.expiry].
      assert (L : (now < t0 + ttl)%Q) by (apply py_int_below; [lra | exact Hexp]).
      apply Qltb_lt in L. rewrite L. reflexivity. }
  - intros [= <- <- <-].
    split; [apply Hissue; cbn; congruence|].
    cbn [db jwt_secret jwt_algorithm tenant_cache UserClaims.user_id
         UserClaims.tenant_id UserClaims.iat UserClaims.exp UserClaims.email
         UserClaims.role UserClaims.session_id].
    repeat (split; [congruence|]).
    split; [exists tc; split; [congruence | exact Hactive]|].
    split; [eauto|].
    intros now Hnow Hexp. unfold session_live. cbn [redis_client]. exact I.
Qed.

(** A service that has issued a token can renew its session. *)
Lemma create_access_token_renewable (self : service) (user_id tenant_id : string) (t0 : Q)
  (token : jwt) (claims : UserClaims.t) (self' : service) :
  create_access_token self user_id tenant_id t0 = (Ok (token, claims), self') ->
  renewable self'.
Proof.
  unfold create_access_token.
  destruct (_get_user_info self user_id tenant_id) as [user_info|] eqn:Hu; [|discriminate].
  destruct (get_tenant_config self tenant_id) as [[tc|] s1] eqn:Ht; [|discriminate].
  destruct (TenantConfig.is_active tc) eqn:Hactive; cbn [negb]; [|discriminate].
  destruct (get_tenant_config_some _ _ _ _ Ht)
    as (Hcache & Hdb & Hsec & Halg & Hredis & Hmin & Hent & Hdrawn & Hperm).
  destruct (_get_user_permissions s1 user_id (UserRow.role user_info) tenant_id)
    as [permissions s2] eqn:Hp.
  assert (H2 : redis_client s2 = redis_client s1 /\
               access_token_expire_minutes s2 = access_token_expire_minutes s1).
  { revert Hp. unfold _get_user_permissions.
    destruct (permission_cache s1 !! _); intros [= <- <-]; auto. }
  destruct H2 as (Hredis2 & Hmin2).
  unfold uuid4. cbn [redis_client].
  destruct (redis_client s2) as [conn|] eqn:Hconn.
  - destruct (Redis.alive conn) eqn:Halive; [|discriminate].
    match goal with
    | |- context [Redis.setex ?d ?k ?x ?v ?n] =>
        destruct (setex_cases d k x v n) as [[Hpos Hset] | [_ Hset]];
          rewrite Hset; [|discriminate]
    end.
    intros [= <- <- <-]. unfold renewable. cbn. rewrite Hmin2, Hmin.
    apply inject_Z_pos_inv in Hpos. lia.
  - intros [= <- <- <-]. unfold renewable. cbn. exact I.
Qed.

Lemma tenant_active_cached (self : service) (tenant_id : string) (tc : TenantConfig.t) :
  tenant_cache self !! tenant_id = Some tc -> TenantConfig.is_active tc = true ->
  tenant_active self tenant_id.
Proof.
  intros Hc Ha. exists tc. split; [|exact Ha].
  now rewrite (get_tenant_config_cached self tenant_id tc Hc).
Qed.

(** A token of [create_access_token] on the service it left behind. *)
Lemma created_token_verifies (self : service) (user_id tenant_id : string) (t0 now : Q)
  (token : jwt) (claims : UserClaims.t) (self' : service) :
  create_access_token self user_id tenant_id t0 = (Ok (token, claims), self') ->
  (0 <= t0)%Q -> (t0 <= now)%Q -> (now < inject_Z (UserClaims.exp claims))%Q ->
  fst (verify_token self' token now) = Ok claims.
Proof.
  intros Hmk Ht0 Hnow Hexp.
  pose proof (create_access_token_renewable _ _ _ _ _ _ _ Hmk) as Hrenew.
  destruct (create_access_token_ok _ _ _ _ _ _ _ Hmk)
    as (-> & _ & _ & _ & _ & Htid & Hiat & _ & (tc & Hc & Ha) & _ & Hlive).
  apply verify_decoded.
  - apply decode_issued; [|exact Hexp].
    rewrite Hiat, (py_int_floor t0 Ht0). pose proof (Qfloor_le t0). lra.
  - apply Hlive; [lra | exact Hexp].
  - exact Hrenew.
  - rewrite Htid. exact (tenant_active_cached _ _ _ Hc Ha).
Qed.

End Issuing.

(** ** Logout and refresh *)

Section Logout.
Import Py Auth Routes.
Local Open Scope Z_scope.

(** The service [logout] leaves behind when Redis is up. *)
Lemma logout_state (self : service) (c : Redis.conn) (current_user : UserClaims.t) (now : Q) :
  redis_client self = Some c -> Redis.alive c = true ->
  let self' := snd (logout self current_user now) in
  fst (logout self current_user now) = Ok tt /\
  db self' = db self /\ jwt_secret self' = jwt_secret self /\
  jwt_algorithm self' = jwt_algorithm self /\
  access_token_expire_minutes self' = access_token_expire_minutes self /\
  tenant_cache self' = tenant_cache self /\
  exists d', redis_client self' = Some (Redis.mk_conn true d') /\
             d' !! session_key (UserClaims.session_id current_user) = None.
Proof.
  intros Hc Ha. cbv zeta. unfold logout. rewrite Hc, Ha. cbn [fst snd].
  split; [reflexivity|].
  match goal with
  | |- context [_log_security_event ?s ?e ?u ?t ?d ?v ?n] =>
      pose proof (log_security_event_keeps s e u t d v n) as H; cbv zeta in H;
      destruct H as (Hdb & Hsec & Halg & Hmin & _ & Hcache & _ & Hredis)
  end.
  cbn [redis_client with_redis db jwt_secret jwt_algorithm tenant_cache
       access_token_expire_minutes] in *.
  rewrite Hc in Hredis. cbn [option_map Redis.alive Redis.data] in Hredis.
  destruct Hredis as (d' & Hr & Hd). rewrite Ha in Hr.
  repeat (split; [assumption|]).
  exists d'. split; [exact Hr|].
  rewrite Hd. unfold Redis.delete. apply lookup_delete_eq.
Qed.

(** With Redis up, [logout] revokes the session: no token whatever verifies
    with the claims of that session afterwards, and a token of that session
    inside its validity is refused with 401 "Authentication failed". *)
Theorem logout_revokes_session (self : service) (c : Redis.conn)
  (current_user : UserClaims.t) (now : Q) :
  redis_client self = Some c -> Redis.alive c = true ->
  let self' := snd (logout self current_user now) in
  fst (logout self current_user now) = Ok tt /\
  (forall token now' claims,
     fst (verify_token self' token now') = Ok claims ->
     UserClaims.session_id claims <> UserClaims.session_id current_user) /\
  (forall claims now',
     UserClaims.session_id claims = UserClaims.session_id current_user ->
     (inject_Z (UserClaims.iat claims) <= now')%Q ->
     (now' < inject_Z (UserClaims.exp claims))%Q ->
     fst (verify_token self' (issue self claims) now')
     = Raise (HTTPException 401 "Authentication failed")).
Proof.
  intros Hc Ha. cbv zeta.
  destruct (logout_state self c current_user now Hc Ha)
    as (Hok & Hdb & Hsec & Halg & _ & Hcache & d' & Hr & Hd).
  split; [exact Hok|]. split.
  - intros token now' claims Hv Hsid.
    destruct (verify_token_ok_inv _ _ _ _ Hv) as [s Htry].
    destruct (verify_token_try_ok _ _ _ _ _ Htry) as (_ & _ & _ & _ & _ & Hlive & _).
    unfold session_live in Hlive. rewrite Hr in Hlive.
    destruct Hlive as (_ & fields & Hget).
    unfold Redis.get, Redis.peek in Hget. cbn [Redis.data] in Hget.
    rewrite Hsid, Hd in Hget. discriminate.
  - intros claims now' Hsid Hiat Hexp.
    unfold verify_token, verify_token_try. rewrite Hsec, Halg.
    rewrite (decode_issued self claims now' Hiat Hexp), claims_round_trip.
    rewrite Hr. cbn [Redis.alive Redis.data negb].
    unfold Redis.get, Redis.peek. rewrite Hsid, Hd. reflexivity.
Qed.

Lemma logout_revokes_session_witness :
  fst (verify_token (snd (logout (snd alice_issued) alice_claims 1005))
         (issue (snd alice_issued) alice_claims) 1010)
  = Raise (HTTPException 401 "Authentication failed").
Proof.
  refine (proj2 (proj2 (logout_revokes_session (snd alice_issued)
                          (Redis.mk_conn true _) alice_claims 1005 eq_refl eq_refl))
            alice_claims 1010%Q eq_refl _ _).
  - vm_compute. discriminate.
  - reflexivity.
Defined.

(** Without a Redis client [logout] revokes nothing: every token verifies
    afterwards exactly as before. *)
Theorem logout_without_redis (self : service) (current_user : UserClaims.t) (now : Q) :
  redis_client self = None ->
  fst (logout self current_user now) = Ok tt /\
  forall token now',
    fst (verify_token (snd (logout self current_user now)) token now')
    = fst (verify_token self token now').
Proof.
  intros Hc. unfold logout. rewrite Hc. cbn [fst snd]. split; [reflexivity|].
  intros token now'. apply verify_token_same_view, log_security_event_same_view.
Qed.

(** The service of the login example, built while Redis was down. *)
Definition campus_without_redis : service :=
  mk_service campus_db None "secret" "HS256" 60 30 ∅ ∅ []
    (fun n => "uuid-" +:+ pretty n) 0.

Lemma logout_without_redis_witness :
  let issued := snd (create_access_token campus_without_redis "u1" "t1" 1000) in
  fst (verify_token (snd (logout issued alice_claims 1005))
         (issue campus_without_redis alice_claims) 1010)
  = Ok alice_claims.
Proof.
  cbv zeta.
  rewrite (proj2 (logout_without_redis
                    (snd (create_access_token campus_without_redis "u1" "t1" 1000))
                    alice_claims 1005 eq_refl)).
  vm_compute. reflexivity.
Defined.

End Logout.

Section Refresh.
Import Py Auth Routes.
Local Open Scope Z_scope.

Lemma py_int_later (now : Q) (k : Z) :
  (0 <= now)%Q -> 1 <= k -> (now < inject_Z (py_int (now + inject_Z k)))%Q.
Proof.
  intros Hnow Hk.
  assert (Hk' : (1 <= inject_Z k)%Q) by (change 1%Q with (inject_Z 1); now rewrite <- Zle_Qle).
  rewrite py_int_floor by lra.
  pose proof (Qlt_floor (now + inject_Z k)) as H.
  rewrite inject_Z_plus in H. change (inject_Z 1) with 1%Q in H. lra.
Qed.

Lemma get_user_info_same_db (s s' : service) (user_id tenant_id : string) :
  db s' = db s -> _get_user_info s' user_id tenant_id = _get_user_info s user_id tenant_id.
Proof. intros H. unfold _get_user_info. now rewrite H. Qed.

(** [create_access_token] succeeds for an active user of a tenant found
    active, Redis absent, or up with a positive token lifetime to store the
    session under. *)
Lemma create_access_token_succeeds (self : service) (user_id tenant_id : string)
  (row : UserRow.t) (now : Q) :
  _get_user_info self user_id tenant_id = Some row ->
  tenant_active self tenant_id ->
  match redis_client self with
  | Some c => Redis.alive c = true /\ 0 < access_token_expire_minutes self
  | None => True
  end ->
  exists token claims self',
    create_access_token self user_id tenant_id now = (Ok (token, claims), self').
Proof.
  intros Hu (tc & Ht & Ha) Hr. unfold create_access_token. rewrite Hu.
  destruct (get_tenant_config self tenant_id) as [o s1] eqn:Hcfg.
  cbn [fst] in Ht. subst o.
  destruct (get_tenant_config_some _ _ _ _ Hcfg) as (_ & _ & _ & _ & Hredis & _).
  rewrite Ha. cbn [negb].
  destruct (_get_user_permissions s1 user_id (UserRow.role row) tenant_id)
    as [permissions s2] eqn:Hp.
  assert (Hredis2 : redis_client s2 = redis_client s1).
  { revert Hp. unfold _get_user_permissions.
    destruct (permission_cache s1 !! _); intros [= <- <-]; auto. }
  unfold uuid4. cbn [redis_client]. rewrite Hredis2, Hredis.
  destruct (redis_client self) as [c|]; [|eauto].
  destruct Hr as [Hr Hpos]. rewrite Hr.
  rewrite setex_ok by (apply inject_Z_pos; lia). eauto.
Qed.

(** What a route's dependencies leave of the service: its store, secret,
    algorithm and token lifetime, the tenants it finds, and whether Redis is
    there and up. *)
Definition same_backing (s s' : service) : Prop :=
  db s' = db s /\ jwt_secret s' = jwt_secret s /\ jwt_algorithm s' = jwt_algorithm s /\
  access_token_expire_minutes s' = access_token_expire_minutes s /\
  (forall tenant_id,
     fst (get_tenant_config s' tenant_id) = fst (get_tenant_config s tenant_id)) /\
  option_map Redis.alive (redis_client s') = option_map Redis.alive (redis_client s).

Lemma same_backing_refl (s : service) : same_backing s s.
Proof. repeat split. Qed.

Lemma same_backing_trans (s1 s2 s3 : service) :
  same_backing s1 s2 -> same_backing s2 s3 -> same_backing s1 s3.
Proof.
  intros (A1 & A2 & A3 & A4 & A5 & A6) (B1 & B2 & B3 & B4 & B5 & B6).
  repeat split; try congruence; try (intros t; now rewrite B5, A5).
Qed.

Lemma with_redis_backing (s : service) (d : gmap string Redis.entry) :
  same_backing s (with_redis s d).
Proof.
  repeat split.
  - intros t. now rewrite get_tenant_config_with_redis.
  - cbn [redis_client with_redis]. now destruct (redis_client s).
Qed.

Lemma get_tenant_config_backing (s : service) (tenant_id : string) :
  same_backing s (snd (get_tenant_config s tenant_id)).
Proof.
  unfold get_tenant_config.
  destruct (tenant_cache s !! tenant_id) as [c|] eqn:Hc; [apply same_backing_refl|].
  destruct (reachable (db s)) eqn:Hreach; cbn [negb]; [|apply same_backing_refl].
  destruct (List.find (fun r => String.eqb (InstitutionRow.id r) tenant_id)
              (institutions (db s))) as [row|] eqn:Hfind; [|apply same_backing_refl].
  destruct (tenant_config_of_row row) as [config|] eqn:Hrow; [|apply same_backing_refl].
  cbn [snd]. repeat split. intros t. unfold get_tenant_config.
  cbn [tenant_cache db with_tenant_cache].
  destruct (decide (t = tenant_id)) as [->|Hne].
  - rewrite lookup_insert_eq, Hc, Hreach. cbn [negb]. rewrite Hfind, Hrow. reflexivity.
  - rewrite lookup_insert_ne by congruence.
    destruct (tenant_cache s !! t); [reflexivity|].
    rewrite Hreach. cbn [negb].
    destruct (List.find (fun r => String.eqb (InstitutionRow.id r) t) _) as [row'|];
      [|reflexivity].
    destruct (tenant_config_of_row row'); reflexivity.
Qed.

Lemma verify_token_try_backing (s : service) (token : jwt) (now : Q) :
  same_backing s (snd (verify_token_try s token now)).
Proof.
  unfold verify_token_try.
  destruct (jwt_decode _ _ _ _) as [payload|e]; [|apply same_backing_refl].
  destruct (UserClaims_of payload) as [c|e]; [|apply same_backing_refl].
  assert (Hend : forall s1, same_backing s s1 ->
            same_backing s
              (snd (let '(tenant_config, self2) :=
                      get_tenant_config s1 (UserClaims.tenant_id c) in
                    match tenant_config with
                    | None => (Raise (HTTPException 401 "Tenant inactive"), self2)
                    | Some tenant_config =>
                        if negb (TenantConfig.is_active tenant_config)
                        then (Raise (HTTPException 401 "Tenant inactive"), self2)
                        else (Ok c, self2)
                    end))).
  { intros s1 H1.
    pose proof (get_tenant_config_backing s1 (UserClaims.tenant_id c)) as H2.
    destruct (get_tenant_config s1 (UserClaims.tenant_id c)) as [[tc|] s2]; cbn [snd] in *.
    - destruct (negb (TenantConfig.is_active tc)); cbn [snd];
        exact (same_backing_trans _ _ _ H1 H2).
    - exact (same_backing_trans _ _ _ H1 H2). }
  destruct (redis_client s) as [conn|].
  - destruct (Redis.alive conn); cbn [negb]; [|apply same_backing_refl].
    destruct (Redis.get _ _ now) as [[v|]|e]; try apply same_backing_refl.
    destruct (Redis.nonempty v); cbn [negb]; [|apply same_backing_refl].
    destruct v as [z|q|s0|fields]; try apply same_backing_refl.
    destruct (Redis.setex _ _ _ _ now) as [[u|e] d1]; [|apply same_backing_refl].
    apply Hend, with_redis_backing.
  - apply Hend, same_backing_refl.
Qed.

Lemma verify_token_backing (s : service) (token : jwt) (now : Q) :
  same_backing s (snd (verify_token s token now)).
Proof.
  pose proof (verify_token_try_backing s token now) as H. unfold verify_token.
  destruct (verify_token_try s token now) as [[claims|e] s']; [exact H|].
  destruct e; exact H.
Qed.

(** Every refusal of [verify_token] is a 401. *)
Lemma verify_token_refusal (s : service) (token : jwt) (now : Q) (e : exn) :
  fst (verify_token s token now) = Raise e ->
  e = HTTPException 401 "Token expired" \/ e = HTTPException 401 "Invalid token" \/
  e = HTTPException 401 "Authentication failed".
Proof.
  unfold verify_token.
  destruct (verify_token_try s token now) as [[claims|e'] s']; [discriminate|].
  destruct e'; cbn [fst]; intros [= <-]; auto.
Qed.

Lemma check_rate_limit_alive (client : option Redis.conn) (key : string)
  (limit window_seconds : Z) (now : Q) :
  option_map Redis.alive (snd (Auth.check_rate_limit client key limit window_seconds now))
  = option_map Redis.alive client.
Proof.
  unfold Auth.check_rate_limit. destruct client as [c|]; [|reflexivity].
  destruct (Redis.alive c) eqn:Ha; cbn [negb]; [|reflexivity].
  destruct (Redis.get _ _ _) as [[current|]|e]; [| |reflexivity].
  - destruct (Redis.int_of current) as [n|e]; [|reflexivity].
    destruct (limit <=? n); [reflexivity|].
    destruct (Redis.incr _ _ _) as [[x|e] d1]; cbn; now rewrite Ha.
  - destruct (Redis.setex _ _ _ _ _) as [[x|e] d1]; cbn; now rewrite ?Ha.
Qed.

Lemma rate_limit_dependency_alive (client : option Redis.conn) (requests_per_minute : Z)
  (current_user : UserClaims.t) (now : Q) :
  option_map Redis.alive
    (snd (rate_limit_dependency client requests_per_minute current_user now))
  = option_map Redis.alive client.
Proof.
  unfold rate_limit_dependency.
  match goal with
  | |- context [Auth.check_rate_limit ?c ?k ?l ?w ?n] =>
      pose proof (check_rate_limit_alive c k l w n) as H;
      destruct (Auth.check_rate_limit c k l w n) as [[allowed remaining] client1]
  end.
  destruct allowed; exact H.
Qed.

Lemma rate_limit_dependency_refusal (client : option Redis.conn) (requests_per_minute : Z)
  (current_user : UserClaims.t) (now : Q) (e : exn) :
  fst (rate_limit_dependency client requests_per_minute current_user now) = Raise e ->
  e = HTTPException 429 "Rate limit exceeded".
Proof.
  unfold rate_limit_dependency.
  destruct (Auth.check_rate_limit _ _ _ _ _) as [[allowed remaining] client1].
  destruct allowed; cbn; [discriminate|]. now intros [= <-].
Qed.

Lemma with_client_backing (s : service) (client : option Redis.conn) :
  option_map Redis.alive client = option_map Redis.alive (redis_client s) ->
  same_backing s (with_client s client).
Proof.
  intros H. repeat split; [|exact H].
  intros t. apply get_tenant_config_same_view; reflexivity.
Qed.

(** The body of POST /auth/refresh on a refresh token still inside its
    validity, of an active user of an active tenant, whatever else the
    service [s] has been through since [self] made the token. *)
Lemma refresh_body_ok (self s : service) (user_id tenant_id : string) (row : UserRow.t)
  (t0 now : Q) :
  same_backing self s ->
  (forall c, redis_client self = Some c -> Redis.alive c = true) ->
  0 < access_token_expire_minutes self ->
  _get_user_info self user_id tenant_id = Some row ->
  tenant_active self tenant_id ->
  (0 <= now)%Q ->
  (now < inject_Z (py_int (t0 + inject_Z (refresh_token_expire_days self * 86400))))%Q ->
  exists access_token claims s',
    refresh_token s (_create_refresh_token self user_id tenant_id t0) now
    = Some (Ok access_token, s') /\
    fst (verify_token s' access_token now) = Ok claims /\
    UserClaims.user_id claims = user_id /\ UserClaims.tenant_id claims = tenant_id.
Proof.
  intros (Hdb & Hsec & Halg & Hmin & Hcfg & Hup) Hr Hpos Hu Ht Hnow Hexp.
  assert (Hu1 : _get_user_info s user_id tenant_id = Some row)
    by (rewrite (get_user_info_same_db self s) by exact Hdb; exact Hu).
  assert (Ht1 : tenant_active s tenant_id).
  { destruct Ht as (tc & Ht & Hact). exists tc. split; [|exact Hact].
    now rewrite Hcfg. }
  assert (Hr1 : match redis_client s with
                | Some c => Redis.alive c = true /\ 0 < access_token_expire_minutes s
                | None => True
                end).
  { destruct (redis_client s) as [c1|], (redis_client self) as [c0|];
      cbn in Hup; try discriminate; [|exact I].
    injection Hup as Hup. rewrite Hup, Hmin. split; [now apply Hr | exact Hpos]. }
  destruct (create_access_token_succeeds s user_id tenant_id row now Hu1 Ht1 Hr1)
    as (token & claims & s2 & Hmk).
  exists token, claims, s2. split.
  - unfold refresh_token, _create_refresh_token, jwt_encode, jwt_decode.
    rewrite Hsec, Halg. unfold str_in. cbn [existsb]. rewrite !String.eqb_refl.
    cbn [orb negb].
    rewrite lookup_insert_ne by discriminate. rewrite lookup_insert_ne by discriminate.
    rewrite lookup_insert_ne by discriminate. rewrite lookup_insert_eq.
    apply Qltb_lt in Hexp. rewrite Hexp. cbn [negb].
    rewrite !lookup_insert_ne by discriminate. rewrite lookup_empty.
    rewrite lookup_insert_ne by discriminate. rewrite lookup_insert_ne by discriminate.
    rewrite lookup_insert_eq. cbn [is_refresh]. cbn [String.eqb Ascii.eqb Bool.eqb negb].
    rewrite lookup_insert_eq. rewrite lookup_insert_ne by discriminate.
    rewrite lookup_insert_eq. now rewrite Hmk.
  - destruct (create_access_token_ok _ _ _ _ _ _ _ Hmk)
      as (_ & _ & _ & _ & Huid & Htid & _ & Hx & _).
    split; [|auto].
    apply (created_token_verifies s user_id tenant_id now now token claims s2 Hmk Hnow);
      [lra|].
    rewrite Hx, Hmin. apply py_int_later; [exact Hnow | lia].
Qed.

(** What its dependencies leave of the service when POST /auth/refresh
    reaches its body. *)
Lemma post_refresh_passes (s : service) (credentials refresh : jwt) (now : Q)
  (caller : UserClaims.t) (s1 : service) (remaining : Z) :
  get_current_user s credentials now = (Ok caller, s1) ->
  fst (rate_limit_dependency (redis_client s1) 20 caller now) = Ok remaining ->
  exists s2, same_backing s s2 /\
             post_refresh s credentials refresh now = refresh_token s2 refresh now.
Proof.
  intros Hv Hrate. unfold post_refresh. rewrite Hv.
  pose proof (verify_token_backing s credentials now) as Hb.
  unfold get_current_user in Hv. rewrite Hv in Hb. cbn [snd] in Hb.
  pose proof (rate_limit_dependency_alive (redis_client s1) 20 caller now) as Ha.
  destruct (rate_limit_dependency (redis_client s1) 20 caller now) as [[n|e] client];
    [|discriminate].
  cbn [snd] in Ha. exists (with_client s1 client). split; [|reflexivity].
  exact (same_backing_trans _ _ _ Hb (with_client_backing s1 client Ha)).
Qed.

Lemma logout_backing (self : service) (c : Redis.conn) (current_user : UserClaims.t)
  (now : Q) :
  redis_client self = Some c -> Redis.alive c = true ->
  same_backing self (snd (logout self current_user now)).
Proof.
  intros Hc Ha.
  destruct (logout_state self c current_user now Hc Ha)
    as (_ & Hdb & Hsec & Halg & Hmin & Hcache & d' & Hr & _).
  repeat split; try assumption.
  - intros t. now apply get_tenant_config_same_view.
  - rewrite Hr, Hc. cbn. now rewrite Ha.
Qed.

(** The refresh token outlives [logout].  POST /auth/refresh authenticates
    its caller first: a token of the session logged out is answered 401.
    But the refresh token itself is not tied to a session: presented by a
    caller whose bearer token still verifies and who has a free slot among
    the 20 per minute, a refresh token still inside its validity, of an
    active user of an active tenant, is exchanged for an access token of
    that user that verifies. *)
Theorem refresh_survives_logout (self : service) (c : Redis.conn)
  (current_user caller : UserClaims.t) (user_id tenant_id : string) (row : UserRow.t)
  (bearer : jwt) (self1 : service) (remaining : Z) (t0 t1 now : Q) :
  redis_client self = Some c -> Redis.alive c = true ->
  0 < access_token_expire_minutes self ->
  _get_user_info self user_id tenant_id = Some row ->
  tenant_active self tenant_id ->
  (0 <= now)%Q ->
  (now < inject_Z (py_int (t0 + inject_Z (refresh_token_expire_days self * 86400))))%Q ->
  (forall claims,
     UserClaims.session_id claims = UserClaims.session_id current_user ->
     (inject_Z (UserClaims.iat claims) <= now)%Q ->
     (now < inject_Z (UserClaims.exp claims))%Q ->
     exists self'',
       post_refresh (snd (logout self current_user t1)) (issue self claims)
         (_create_refresh_token self user_id tenant_id t0) now
       = Some (Raise (HTTPException 401 "Authentication failed"), self'')) /\
  (get_current_user (snd (logout self current_user t1)) bearer now = (Ok caller, self1) ->
   fst (rate_limit_dependency (redis_client self1) 20 caller now) = Ok remaining ->
   exists access_token claims self'',
     post_refresh (snd (logout self current_user t1)) bearer
       (_create_refresh_token self user_id tenant_id t0) now
     = Some (Ok access_token, self'') /\
     fst (verify_token self'' access_token now) = Ok claims /\
     UserClaims.user_id claims = user_id /\ UserClaims.tenant_id claims = tenant_id).
Proof.
  intros Hc Ha Hmin Hu Ht Hnow Hexp. split.
  - intros claims Hsid Hiat Hx.
    destruct (logout_state self c current_user t1 Hc Ha)
      as (_ & _ & Hsec & Halg & _ & _ & d' & Hr & Hd).
    unfold post_refresh, get_current_user, verify_token, verify_token_try.
    rewrite Hsec, Halg.
    rewrite (decode_issued self claims now Hiat Hx), claims_round_trip.
    rewrite Hr. cbn [Redis.alive Redis.data negb].
    unfold Redis.get, Redis.peek. rewrite Hsid, Hd. eexists. reflexivity.
  - intros Hv Hrate.
    destruct (post_refresh_passes _ bearer
                (_create_refresh_token self user_id tenant_id t0) now caller self1
                remaining Hv Hrate) as (s2 & Hb & ->).
    apply (refresh_body_ok self s2 user_id tenant_id row t0 now); try assumption.
    + exact (same_backing_trans _ _ _ (logout_backing self c current_user t1 Hc Ha) Hb).
    + intros c' Hc'. congruence.
Qed.

(** Alice signs in a second time, at t = 1001: a second session. *)
Definition alice_again : result (jwt * UserClaims.t) * service :=
  create_access_token (snd alice_issued) "u1" "t1" 1001.

Definition alice_again_claims : UserClaims.t :=
  UserClaims.mk "u1" "alice@acme.edu" "student" "t1" "Acme University"
    ["course:read"; "course:enroll"; "progress:read";
     "assessment:take"; "content:view"; "profile:edit"]
    "uuid-1" 4601 1001.

Lemma refresh_survives_logout_witness :
  exists access_token claims self'',
    post_refresh (snd (logout (snd alice_again) alice_claims 1005))
      (issue (snd alice_again) alice_again_claims)
      (_create_refresh_token (snd alice_again) "u1" "t1" 1000) 1010
    = Some (Ok access_token, self'') /\
    fst (verify_token self'' access_token 1010) = Ok claims /\
    UserClaims.user_id claims = "u1" /\ UserClaims.tenant_id claims = "t1".
Proof.
  epose proof (refresh_survives_logout (snd alice_again) (Redis.mk_conn true _)
                 alice_claims alice_again_claims "u1" "t1" _
                 (issue (snd alice_again) alice_again_claims) _ 19 1000 1005 1010) as H.
  edestruct H as [_ H'].
  - vm_compute. reflexivity.
  - reflexivity.
  - reflexivity.
  - vm_compute. reflexivity.
  - eexists. split; vm_compute; reflexivity.
  - vm_compute. discriminate.
  - reflexivity.
  - apply H'; vm_compute; reflexivity.
Defined.

(** The body of POST /auth/refresh refuses every access token. *)
Lemma refresh_body_refuses_access_token (self self0 : service) (claims : UserClaims.t)
  (now : Q) :
  refresh_token self (issue self0 claims) now
  = Some (Raise (HTTPException 401 "Refresh token expired"), self) \/
  refresh_token self (issue self0 claims) now
  = Some (Raise (HTTPException 401 "Invalid refresh token"), self).
Proof.
  unfold refresh_token, issue, jwt_encode, jwt_decode.
  destruct (str_in (jwt_algorithm self0) [jwt_algorithm self]); cbn [negb]; [|auto].
  destruct (String.eqb (jwt_secret self0) (jwt_secret self)); cbn [negb]; [|auto].
  rewrite claims_dict_exp, claims_dict_iat.
  destruct (Qltb now (inject_Z (UserClaims.exp claims))); cbn [negb]; [|auto].
  destruct (Qltb now (inject_Z (UserClaims.iat claims))); [auto|].
  right. reflexivity.
Qed.

(** The two kinds of token are never confused: [verify_token] accepts no
    refresh token, and POST /auth/refresh exchanges no access token: the
    caller is refused by the dependencies of the route (a 401 of
    [get_current_user], the 429 of the rate limit), or else the body answers
    401 "Refresh token expired" or "Invalid refresh token". *)
Theorem token_kinds_not_confused :
  (forall (self self0 : service) (user_id tenant_id : string) (t0 now : Q)
          (claims : UserClaims.t),
     fst (verify_token self (_create_refresh_token self0 user_id tenant_id t0) now)
     <> Ok claims) /\
  (forall (self self0 : service) (credentials : jwt) (claims : UserClaims.t) (now : Q),
     exists e self',
       post_refresh self credentials (issue self0 claims) now = Some (Raise e, self') /\
       match get_current_user self credentials now with
       | (Raise e', _) => e = e' /\ exists detail, e = HTTPException 401 detail
       | (Ok caller, self1) =>
           match fst (rate_limit_dependency (redis_client self1) 20 caller now) with
           | Raise _ => e = HTTPException 429 "Rate limit exceeded"
           | Ok _ => e = HTTPException 401 "Refresh token expired" \/
                     e = HTTPException 401 "Invalid refresh token"
           end
       end).
Proof.
  split.
  - intros self self0 user_id tenant_id t0 now claims Hv.
    destruct (verify_token_ok_inv _ _ _ _ Hv) as [s Htry].
    destruct (verify_token_try_ok _ _ _ _ _ Htry) as (payload & Htok & Hclaims & _).
    unfold _create_refresh_token, jwt_encode in Htok. injection Htok as <- _ _.
    unfold UserClaims_of in Hclaims.
    rewrite (lookup_insert_ne _ "user_id" "email") in Hclaims by discriminate.
    rewrite (lookup_insert_ne _ "tenant_id" "email") in Hclaims by discriminate.
    rewrite (lookup_insert_ne _ "type" "email") in Hclaims by discriminate.
    rewrite (lookup_insert_ne _ "exp" "email") in Hclaims by discriminate.
    rewrite lookup_empty in Hclaims.
    destruct (_ !! "user_id") as [[]|]; discriminate.
  - intros self self0 credentials claims now. unfold post_refresh.
    destruct (get_current_user self credentials now) as [[caller|e] self1] eqn:Hv.
    + destruct (rate_limit_dependency (redis_client self1) 20 caller now)
        as [[remaining|e] client] eqn:Hrate; cbn [fst].
      * destruct (refresh_body_refuses_access_token (with_client self1 client) self0
                    claims now) as [Hb|Hb]; rewrite Hb; eauto.
      * exists e, (with_client self1 client). split; [reflexivity|].
        apply (rate_limit_dependency_refusal (redis_client self1) 20 caller now).
        now rewrite Hrate.
    + exists e, self1. split; [reflexivity|]. split; [reflexivity|].
      assert (Hr : fst (verify_token self credentials now) = Raise e)
        by (unfold get_current_user in Hv; now rewrite Hv).
      destruct (verify_token_refusal self credentials now e Hr) as [He|[He|He]];
        rewrite He; eauto.
Qed.

End Refresh.

(** ** Login *)

Section Login.
Import Py Auth Routes.
Local Open Scope Z_scope.

Lemma get_tenant_config_keeps (self : service) (tenant_id : string) :
  let self1 := snd (get_tenant_config self tenant_id) in
  db self1 = db self /\ jwt_secret self1 = jwt_secret self /\
  jwt_algorithm self1 = jwt_algorithm self.
Proof.
  cbv zeta. unfold get_tenant_config.
  destruct (tenant_cache self !! tenant_id); [auto|].
  destruct (reachable (db self)); cbn [negb]; [|auto].
  destruct (List.find _ _) as [row|]; [|auto].
  destruct (tenant_config_of_row row); auto.
Qed.

Lemma get_tenant_by_domain_keeps (self : service) (domain : string) :
  let self1 := snd (get_tenant_by_domain self domain) in
  db self1 = db self /\ jwt_secret self1 = jwt_secret self /\
  jwt_algorithm self1 = jwt_algorithm self.
Proof.
  cbv zeta. unfold get_tenant_by_domain.
  destruct (reachable (db self)); cbn [negb]; [|auto].
  destruct (List.find _ _) as [row|]; [|auto].
  apply get_tenant_config_keeps.
Qed.

Lemma find_active_user_found (d : database) (email : string)
  (tenant : option TenantConfig.t) (row : UserRow.t) :
  find_active_user d email tenant = Some row ->
  In row (users d) /\ UserRow.email row = email /\ UserRow.is_active row = Some 1.
Proof.
  unfold find_active_user.
  destruct tenant as [tc|]; intros H; apply find_some in H; destruct H as [Hin Hp];
    repeat (apply andb_prop in Hp; destruct Hp as [Hp ?]);
    (split; [exact Hin|]); (split; [now apply String.eqb_eq|]);
    match goal with
    | H : is_one ?v = true |- _ => destruct v as [[|[]|]|]; try discriminate H; reflexivity
    end.
Qed.

Section WithDigest.
Variable sha256_hex : string -> string.

(** The outcome of a login that returns a token. *)
Lemma login_success (self : service) (email password : string)
  (tenant_domain : option string) (now : Q) (r : AuthenticationResult) (self' : service) :
  authenticate_user sha256_hex self email password tenant_domain now = (r, self') ->
  success r = true ->
  exists self2 row tc access_token claims self3,
    db self2 = db self /\ jwt_secret self2 = jwt_secret self /\
    jwt_algorithm self2 = jwt_algorithm self /\
    In row (users (db self)) /\ UserRow.email row = email /\
    UserRow.is_active row = Some 1 /\
    sha256_hex password = UserRow.password_hash row /\
    create_access_token self2 (UserRow.id row) (TenantConfig.tenant_id tc) now
    = (Ok (access_token, claims), self3) /\
    r = mk_result true (Some claims) (Some access_token)
          (Some (_create_refresh_token self3 (UserRow.id row)
                   (TenantConfig.tenant_id tc) now)) None None /\
    self' = _log_security_event self3 "successful_login" (Some (UserRow.id row))
              (Some (TenantConfig.tenant_id tc))
              [("email", email); ("role", UserRow.role row)] "info" now.
Proof.
  unfold authenticate_user, authenticate_user_try.
  destruct (if truthy_opt tenant_domain
            then get_tenant_by_domain self (default "" tenant_domain)
            else (None, self)) as [tenant self1] eqn:Hdom.
  assert (H1 : db self1 = db self /\ jwt_secret self1 = jwt_secret self /\
               jwt_algorithm self1 = jwt_algorithm self).
  { destruct (truthy_opt tenant_domain).
    - pose proof (get_tenant_by_domain_keeps self (default "" tenant_domain)) as K.
      cbv zeta in K. now rewrite Hdom in K.
    - injection Hdom as <- <-. auto. }
  destruct H1 as (Hdb1 & Hsec1 & Halg1).
  destruct (truthy_opt tenant_domain && negb (bool_decide (is_Some tenant)));
    [intros [= <- _]; discriminate|].
  destruct (reachable (db self1)); cbn [negb]; [|intros [= <- _]; discriminate].
  destruct (find_active_user (db self1) email tenant) as [row|] eqn:Hrow;
    [|intros [= <- _]; discriminate].
  destruct (_verify_password sha256_hex password (UserRow.password_hash row)) eqn:Hpw;
    cbn [negb]; [|intros [= <- _]; discriminate].
  destruct (match tenant with
            | Some tc => (Some tc, self1)
            | None =>
                if truthy_opt (UserRow.institution_id row)
                then get_tenant_config self1 (default "" (UserRow.institution_id row))
                else (None, self1)
            end) as [tenant2 self2] eqn:Hten.
  assert (H2 : db self2 = db self1 /\ jwt_secret self2 = jwt_secret self1 /\
               jwt_algorithm self2 = jwt_algorithm self1).
  { destruct tenant as [tc|].
    - injection Hten as <- <-. auto.
    - destruct (truthy_opt (UserRow.institution_id row)).
      + pose proof (get_tenant_config_keeps self1 (default "" (UserRow.institution_id row)))
          as K. cbv zeta in K. now rewrite Hten in K.
      + injection Hten as <- <-. auto. }
  destruct H2 as (Hdb2 & Hsec2 & Halg2).
  destruct tenant2 as [tc|]; [|intros [= <- _]; discriminate].
  destruct (create_access_token self2 (UserRow.id row) (TenantConfig.tenant_id tc) now)
    as [[[access_token claims]|e] self3] eqn:Hmk; [|intros [= <- _]; discriminate].
  intros [= <- <-] _.
  rewrite Hdb1 in Hrow. destruct (find_active_user_found _ _ _ _ Hrow) as (Hin & Hem & Hact).
  exists self2, row, tc, access_token, claims, self3.
  repeat (split; [congruence|]).
  split; [now apply String.eqb_eq in Hpw|].
  auto.
Qed.

(** A login succeeds only with the password whose digest is stored for an
    active user with that e-mail; the token it returns is then the one signed
    by this service for the claims it reports, which name that user. *)
Theorem login_success_sound (self : service) (email password : string)
  (tenant_domain : option string) (now : Q) :
  let r := fst (authenticate_user sha256_hex self email password tenant_domain now) in
  success r = true ->
  exists row claims,
    In row (users (db self)) /\ UserRow.email row = email /\
    UserRow.is_active row = Some 1 /\
    sha256_hex password = UserRow.password_hash row /\
    user_claims r = Some claims /\ UserClaims.user_id claims = UserRow.id row /\
    token r = Some (issue self claims) /\ error_message r = None.
Proof.
  cbv zeta. intros Hs.
  destruct (authenticate_user sha256_hex self email password tenant_domain now)
    as [r self'] eqn:Hlogin. cbn [fst] in *.
  destruct (login_success _ _ _ _ _ _ _ Hlogin Hs)
    as (self2 & row & tc & access_token & claims & self3 & _ & Hsec & Halg &
        Hin & Hem & Hact & Hpw & Hmk & -> & _).
  destruct (create_access_token_ok _ _ _ _ _ _ _ Hmk)
    as (-> & _ & Hsec3 & Halg3 & Huid & _).
  exists row, claims. cbn [user_claims token error_message].
  repeat (split; [assumption|]). split; [reflexivity|]. split; [exact Huid|].
  split; [|reflexivity]. unfold issue. now rewrite Hsec3, Halg3, Hsec, Halg.
Qed.

(** The token of a successful login verifies on the service the login left
    behind, with the claims the login reported, from the login until [exp]. *)
Theorem login_then_verify (self : service) (email password : string)
  (tenant_domain : option string) (t0 now : Q) (r : AuthenticationResult)
  (self' : service) (access_token : jwt) (claims : UserClaims.t) :
  authenticate_user sha256_hex self email password tenant_domain t0 = (r, self') ->
  success r = true ->
  token r = Some access_token -> user_claims r = Some claims ->
  (0 <= t0)%Q -> (t0 <= now)%Q -> (now < inject_Z (UserClaims.exp claims))%Q ->
  fst (verify_token self' access_token now) = Ok claims.
Proof.
  intros Hlogin Hs Htok Hcl Ht0 Hnow Hexp.
  destruct (login_success _ _ _ _ _ _ _ Hlogin Hs)
    as (self2 & row & tc & tok & cl & self3 & _ & _ & _ & _ & _ & _ & _ & Hmk & -> & ->).
  cbn [token user_claims] in Htok, Hcl. injection Htok as ->. injection Hcl as ->.
  rewrite (verify_token_same_view self3) by apply log_security_event_same_view.
  exact (created_token_verifies _ _ _ _ _ _ _ _ Hmk Ht0 Hnow Hexp).
Qed.

End WithDigest.

Lemma login_success_sound_witness :
  exists row claims,
    In row (users campus_db) /\ UserRow.email row = "alice@acme.edu" /\
    UserRow.is_active row = Some 1 /\
    toy_digest "correct horse" = UserRow.password_hash row /\
    user_claims (login "alice@acme.edu" "correct horse" None) = Some claims /\
    UserClaims.user_id claims = UserRow.id row /\
    token (login "alice@acme.edu" "correct horse" None) = Some (issue campus claims) /\
    error_message (login "alice@acme.edu" "correct horse" None) = None.
Proof.
  apply (login_success_sound toy_digest campus "alice@acme.edu" "correct horse" None 1000).
  vm_compute. reflexivity.
Defined.

Lemma login_then_verify_witness :
  fst (verify_token
         (snd (authenticate_user toy_digest campus "alice@acme.edu" "correct horse"
                 None 1000))
         (issue campus alice_claims) 1010)
  = Ok alice_claims.
Proof.
  apply (login_then_verify toy_digest campus "alice@acme.edu" "correct horse" None
           1000 1010
           (fst (authenticate_user toy_digest campus "alice@acme.edu" "correct horse"
                   None 1000))).
  - apply surjective_pairing.
  - vm_compute. reflexivity.
  - vm_compute. reflexivity.
  - vm_compute. reflexivity.
  - vm_compute. discriminate.
  - vm_compute. discriminate.
  - reflexivity.
Defined.

(** Where a successful [verify_token] leaves the tenant of the claims. *)
Lemma verify_token_try_caches (self : service) (token : jwt) (now : Q)
  (claims : UserClaims.t) (self' : service) :
  verify_token_try self token now = (Ok claims, self') ->
  exists tc, tenant_cache self' !! UserClaims.tenant_id claims = Some tc /\
             TenantConfig.is_active tc = true.
Proof.
  unfold verify_token_try.
  destruct (jwt_decode token (jwt_secret self) [jwt_algorithm self] now)
    as [payload|e]; [|discriminate].
  destruct (UserClaims_of payload) as [c|e]; [|discriminate].
  assert (Hend : forall s1,
             (let '(tenant_config, self2) :=
                get_tenant_config s1 (UserClaims.tenant_id c) in
              match tenant_config with
              | None => (Raise (HTTPException 401 "Tenant inactive"), self2)
              | Some tenant_config =>
                  if negb (TenantConfig.is_active tenant_config)
                  then (Raise (HTTPException 401 "Tenant inactive"), self2)
                  else (Ok c, self2)
              end) = (Ok claims, self') ->
             exists tc, tenant_cache self' !! UserClaims.tenant_id claims = Some tc /\
                        TenantConfig.is_active tc = true).
  { intros s1.
    destruct (get_tenant_config s1 (UserClaims.tenant_id c)) as [[tc|] s2] eqn:Hcfg;
      [|discriminate].
    destruct (TenantConfig.is_active tc) eqn:Ha; cbn [negb]; [|discriminate].
    intros [= <- <-]. exists tc. split; [|exact Ha].
    now destruct (get_tenant_config_some _ _ _ _ Hcfg) as (Hc & _). }
  destruct (redis_client self) as [conn|].
  - destruct (Redis.alive conn); cbn [negb]; [|discriminate].
    destruct (Redis.get _ _ now) as [[v|]|e]; try discriminate.
    destruct (Redis.nonempty v); cbn [negb]; [|discriminate].
    destruct v; try discriminate.
    destruct (Redis.setex _ _ _ _ now) as [[u|e] d1]; [|discriminate].
    apply Hend.
  - apply Hend.
Qed.

(** Behind a successful [get_current_user], [get_current_tenant] never
    answers 404: it returns a tenant configuration, and an active one, and
    changes nothing. *)
Theorem current_tenant_of_current_user (self : service) (credentials : jwt) (now : Q)
  (current_user : UserClaims.t) (self' : service) :
  get_current_user self credentials now = (Ok current_user, self') ->
  exists tenant_config,
    get_current_tenant self' current_user = (Ok tenant_config, self') /\
    TenantConfig.is_active tenant_config = true.
Proof.
  unfold get_current_user, verify_token.
  destruct (verify_token_try self credentials now) as [[c|e] s] eqn:Htry;
    [|destruct e; discriminate].
  intros [= <- <-].
  destruct (verify_token_try_caches _ _ _ _ _ Htry) as (tc & Hc & Ha).
  exists tc. split; [|exact Ha].
  unfold get_current_tenant. now rewrite (get_tenant_config_cached _ _ tc Hc).
Qed.

Lemma current_tenant_of_current_user_witness :
  exists tenant_config,
    get_current_tenant
      (snd (get_current_user (snd alice_issued) (issue campus alice_claims) 1010))
      alice_claims
    = (Ok tenant_config,
       snd (get_current_user (snd alice_issued) (issue campus alice_claims) 1010)) /\
    TenantConfig.is_active tenant_config = true.
Proof.
  apply (current_tenant_of_current_user (snd alice_issued) (issue campus alice_claims) 1010).
  vm_compute. reflexivity.
Defined.

(** No role is granted the bare "*": as long as the permission cache holds
    no list with it, [_get_user_permissions] returns none and caches none. *)
Theorem no_role_gets_wildcard (self : service) (user_id role tenant_id : string) :
  (forall key permissions,
     permission_cache self !! key = Some permissions -> ~ In "*" permissions) ->
  ~ In "*" (fst (_get_user_permissions self user_id role tenant_id)) /\
  (forall key permissions,
     permission_cache (snd (_get_user_permissions self user_id role tenant_id)) !! key
     = Some permissions ->
     ~ In "*" permissions).
Proof.
  intros Hinv. unfold _get_user_permissions.
  destruct (permission_cache self !! _) as [ps|] eqn:Hc; cbn [fst snd].
  - split; [exact (Hinv _ _ Hc) | exact Hinv].
  - assert (Hbase : ~ In "*" (default ["course:read"] (base_permissions role))).
    { unfold base_permissions.
      repeat match goal with
      | |- context [if ?b then _ else _] => destruct b
      end; cbn; intros H; repeat destruct H as [H | H]; try discriminate H; exact H. }
    split; [exact Hbase|].
    intros key ps. cbn [permission_cache with_permission_cache].
    destruct (decide (key = user_id +:+ ":" +:+ tenant_id +:+ ":" +:+ role)) as [-> | Hne].
    + rewrite lookup_insert_eq. intros [= <-]. exact Hbase.
    + rewrite lookup_insert_ne by auto. apply Hinv.
Qed.

Lemma no_role_gets_wildcard_witness :
  ~ In "*" (fst (_get_user_permissions campus "u3" "admin" "t2")).
Proof.
  apply (no_role_gets_wildcard campus "u3" "admin" "t2").
  intros key permissions H. vm_compute in H. discriminate H.
Defined.

End Login.

(** ** The fixed window of [RateLimiter] *)

Section FixedWindow.
Import Py Auth.
Local Open Scope Z_scope.

(** The answer to the [i]-th call of a window. *)
Definition window_answer (limit : Z) (i : Z) : bool * Z :=
  if (i =? 1) || (i <=? limit) then (true, limit - i) else (false, 0).

Lemma fixed_window_rest (key : string) (limit window_seconds : Z) (t1 : Q) (rest : list Q) :
  forall (n : Z) (d : gmap string Redis.entry),
  1 <= n ->
  d !! key = Some (Redis.mk_entry (Redis.RStr (Redis.SInt (Z.min n (Z.max limit 1))))
                     (Some (t1 + inject_Z window_seconds)%Q)) ->
  Forall (fun t => (t < t1 + inject_Z window_seconds)%Q) rest ->
  check_rate_limit_at (Some (Redis.mk_conn true d)) key limit window_seconds rest
  = map (fun i => window_answer limit (n + Z.of_nat i)) (seq 1 (length rest)).
Proof.
  induction rest as [|t rest IH]; intros n d Hn Hd Hall; [reflexivity|].
  inversion Hall as [|? ? Ht Hrest]; subst.
  cbn [check_rate_limit_at length seq map]. unfold check_rate_limit at 1.
  cbn [Redis.alive Redis.data negb].
  assert (Hpeek : Redis.peek d key t
                  = Some (Redis.mk_entry (Redis.RStr (Redis.SInt (Z.min n (Z.max limit 1))))
                            (Some (t1 + inject_Z window_seconds)%Q))).
  { unfold Redis.peek. rewrite Hd. unfold Redis.is_live. cbn [Redis.expiry].
    apply Qltb_lt in Ht. now rewrite Ht. }
  unfold Redis.get, Redis.incr. rewrite Hpeek.
  cbn [Redis.value Redis.expiry Redis.int_of].
  change (Z.of_nat 1) with 1.
  destruct (Z.leb_spec limit (Z.min n (Z.max limit 1))) as [Hden | Hadm].
  - f_equal.
    + unfold window_answer.
      destruct (Z.eqb_spec (n + 1) 1); [lia|].
      destruct (Z.leb_spec (n + 1) limit); [lia | reflexivity].
    + rewrite (IH n d Hn Hd Hrest).
      rewrite <- (seq_shift (length rest) 1), map_map.
      apply map_ext_in. intros i Hi. apply in_seq in Hi. unfold window_answer.
      destruct (Z.eqb_spec (n + Z.of_nat (S i)) 1); [lia|].
      destruct (Z.eqb_spec (n + Z.of_nat i) 1); [lia|].
      destruct (Z.leb_spec (n + Z.of_nat (S i)) limit); [lia|].
      destruct (Z.leb_spec (n + Z.of_nat i) limit); [lia | reflexivity].
  - f_equal.
    + unfold window_answer.
      destruct (Z.eqb_spec (n + 1) 1); [lia|].
      destruct (Z.leb_spec (n + 1) limit); [f_equal; lia | lia].
    + rewrite (IH (n + 1)); [| lia | | exact Hrest].
      * rewrite <- (seq_shift (length rest) 1), map_map.
        apply map_ext. intros i. f_equal. lia.
      * rewrite lookup_insert_eq. do 4 f_equal. lia.
Qed.

Lemma fixed_window_calls (d : gmap string Redis.entry) (key : string)
  (limit window_seconds : Z) (t1 : Q) (rest : list Q) :
  0 < window_seconds ->
  Redis.peek d key t1 = None ->
  Forall (fun t => (t < t1 + inject_Z window_seconds)%Q) rest ->
  check_rate_limit_at (Some (Redis.mk_conn true d)) key limit window_seconds (t1 :: rest)
  = map (fun i => window_answer limit (Z.of_nat i)) (seq 1 (S (length rest))).
Proof.
  intros Hw Hpeek Hall.
  cbn [check_rate_limit_at seq map]. unfold check_rate_limit at 1.
  cbn [Redis.alive Redis.data negb]. unfold Redis.get. rewrite Hpeek.
  rewrite setex_ok by (apply inject_Z_pos; exact Hw).
  f_equal.
  rewrite (fixed_window_rest key limit window_seconds t1 rest 1); [| lia | | exact Hall].
  - rewrite <- (seq_shift (length rest) 1), map_map.
    apply map_ext. intros i. f_equal. lia.
  - rewrite lookup_insert_eq. do 4 f_equal. lia.
Qed.

(** The fixed window of [RateLimiter], for a positive window (SETEX refuses
    any other): from the call that starts the window (no live counter under
    the key) and as long as the counter lives, call number [i] is admitted
    exactly when [i <= limit] or [i = 1], with [limit - i] reported as
    remaining; every other call is refused with 0 remaining, and does not
    count.  The first call is admitted even when [limit <= 0]. *)
Theorem fixed_window (d : gmap string Redis.entry) (key : string)
  (limit window_seconds : Z) (t1 : Q) (rest : list Q) :
  0 < window_seconds ->
  Redis.peek d key t1 = None ->
  Forall (fun t => (t < t1 + inject_Z window_seconds)%Q) rest ->
  check_rate_limit_at (Some (Redis.mk_conn true d)) key limit window_seconds (t1 :: rest)
  = map (fun i => window_answer limit (Z.of_nat i)) (seq 1 (S (length rest))) /\
  (limit <= 0 ->
   fst (fst (check_rate_limit (Some (Redis.mk_conn true d)) key limit window_seconds t1))
   = true).
Proof.
  intros Hw Hpeek Hall. split; [now apply fixed_window_calls|].
  intros _. unfold check_rate_limit. cbn [Redis.alive Redis.data negb].
  unfold Redis.get. rewrite Hpeek.
  now rewrite setex_ok by (apply inject_Z_pos; exact Hw).
Qed.

Lemma fixed_window_witness :
  check_rate_limit_at (Some (Redis.mk_conn true ∅)) "rate_limit:t1:u1:16" 3 60
    [1000; 1001; 1002; 1003; 1059]%Q
  = [(true, 2); (true, 1); (true, 0); (false, 0); (false, 0)].
Proof.
  refine (proj1 (fixed_window ∅ "rate_limit:t1:u1:16" 3 60 1000 [1001; 1002; 1003; 1059]%Q _ _ _)).
  - reflexivity.
  - reflexivity.
  - repeat constructor.
Defined.

Definition to_response (r : bool * Z) : result Z :=
  if negb (fst r) then Raise (HTTPException 429 "Rate limit exceeded") else Ok (snd r).

Lemma rate_limit_at_one_minute (requests_per_minute : Z) (current_user : UserClaims.t)
  (w : Z) (times : list Q) :
  forall rate_limiter : option Redis.conn,
  Forall (fun t => Qfloor (t / 60) = w) times ->
  rate_limit_at rate_limiter requests_per_minute current_user times
  = map to_response
      (check_rate_limit_at rate_limiter
         ("rate_limit:" +:+ UserClaims.tenant_id current_user +:+ ":"
            +:+ UserClaims.user_id current_user +:+ ":" +:+ pretty w)
         requests_per_minute 60 times).
Proof.
  induction times as [|t times IH]; intros rl Hall; [reflexivity|].
  pose proof (Forall_inv Hall) as Ht. pose proof (Forall_inv_tail Hall) as Hrest.
  cbn beta in Ht.
  cbn [rate_limit_at check_rate_limit_at]. unfold rate_limit_dependency. rewrite Ht.
  destruct (check_rate_limit rl _ requests_per_minute 60 t) as [[a r] rl1].
  cbn [map]. unfold to_response at 1. cbn [fst snd].
  destruct a; cbn [negb]; now rewrite (IH rl1 Hrest).
Qed.

Lemma same_minute_before_expiry (t1 t : Q) :
  Qfloor (t / 60) = Qfloor (t1 / 60) -> (t < t1 + inject_Z 60)%Q.
Proof.
  intros H. pose proof (Qfloor_le (t1 / 60)) as H1. pose proof (Qlt_floor (t / 60)) as H2.
  rewrite H in H2. rewrite inject_Z_plus in H2.
  change (inject_Z 1) with 1%Q in H2. change (inject_Z 60) with 60%Q.
  set (f := inject_Z (Qfloor (t1 / 60))) in *.
  assert (E1 : (t1 == (t1 / 60) * 60)%Q) by (field).
  assert (E2 : (t == (t / 60) * 60)%Q) by (field).
  rewrite E1, E2. nra.
Qed.

(** Behind [rate_limit(n)], with Redis up: of the calls one user makes in
    one calendar minute, starting with no counter for that minute, call
    number [i] passes with [n - i] remaining when [i <= n] (or [i = 1]), and
    every other is answered 429 "Rate limit exceeded". *)
Theorem rate_limit_per_minute (d : gmap string Redis.entry) (requests_per_minute : Z)
  (current_user : UserClaims.t) (t1 : Q) (rest : list Q) :
  let rate_key :=
    "rate_limit:" +:+ UserClaims.tenant_id current_user +:+ ":"
      +:+ UserClaims.user_id current_user +:+ ":" +:+ pretty (Qfloor (t1 / 60)) in
  Redis.peek d rate_key t1 = None ->
  Forall (fun t => Qfloor (t / 60) = Qfloor (t1 / 60)) rest ->
  rate_limit_at (Some (Redis.mk_conn true d)) requests_per_minute current_user (t1 :: rest)
  = map (fun i => to_response (window_answer requests_per_minute (Z.of_nat i)))
      (seq 1 (S (length rest))).
Proof.
  intros rate_key Hpeek Hall.
  rewrite (rate_limit_at_one_minute _ _ (Qfloor (t1 / 60))) by (constructor; auto).
  fold rate_key.
  rewrite (fixed_window_calls d rate_key requests_per_minute 60 t1 rest);
    [| lia | exact Hpeek |].
  - now rewrite map_map.
  - revert Hall. apply List.Forall_impl. intros t Ht. now apply same_minute_before_expiry.
Qed.

Lemma rate_limit_per_minute_witness :
  rate_limit_at (Some (Redis.mk_conn true ∅)) 2 alice_claims [1000; 1001; 1002; 1019]%Q
  = [Ok 1; Ok 0; Raise (HTTPException 429 "Rate limit exceeded");
     Raise (HTTPException 429 "Rate limit exceeded")].
Proof.
  apply (rate_limit_per_minute ∅ 2 alice_claims 1000 [1001; 1002; 1019]%Q).
  - reflexivity.
  - repeat constructor.
Defined.

End FixedWindow.

(** ** Rate limiter: answers, whitelist, isolation, reset *)

Section Responses.
Import Py RateLimiting.
Local Open Scope Z_scope.

(** Some entry of [patterns] is a prefix of [endpoint]. *)
Definition starts_with_any (patterns : list string) (endpoint : string) : bool :=
  existsb (fun ep => String.prefix ep endpoint) patterns.

(** The category of an endpoint is one of three, the first in the order
    expensive, auth, standard that has a prefix of the endpoint, and standard
    when none has: no endpoint is ever of category "admin". *)
Theorem endpoint_category_cases (endpoint : string) :
  let expensive := default [] (assoc "expensive" ENDPOINT_CATEGORIES) in
  let auth := default [] (assoc "auth" ENDPOINT_CATEGORIES) in
  _get_endpoint_category endpoint
  = (if starts_with_any expensive endpoint then "expensive"
     else if starts_with_any auth endpoint then "auth"
     else "standard") /\
  (_get_endpoint_category endpoint = "expensive" \/
   _get_endpoint_category endpoint = "auth" \/
   _get_endpoint_category endpoint = "standard").
Proof.
  cbv zeta.
  assert (H : _get_endpoint_category endpoint
              = if starts_with_any (default [] (assoc "expensive" ENDPOINT_CATEGORIES)) endpoint
                then "expensive"
                else if starts_with_any (default [] (assoc "auth" ENDPOINT_CATEGORIES)) endpoint
                     then "auth" else "standard").
  { unfold _get_endpoint_category, ENDPOINT_CATEGORIES, starts_with_any.
    cbn [List.find snd fst assoc String.eqb Ascii.eqb Bool.eqb default from_option id].
    destruct (existsb _ _); [reflexivity|].
    destruct (existsb _ _); [reflexivity|].
    destruct (existsb _ _); reflexivity. }
  split; [exact H|]. rewrite H.
  destruct (starts_with_any _ _); [auto|]. destruct (starts_with_any _ _); auto.
Qed.

Lemma seconds_to_next_minute (t : Z) :
  (t / 60 + 1) * 60 - t = 60 - t mod 60 /\ 1 <= 60 - t mod 60 <= 60.
Proof.
  pose proof (Z.div_mod t 60 ltac:(lia)). pose proof (Z.mod_pos_bound t 60 ltac:(lia)). lia.
Qed.

(** The headers of an answer.  A refusal names the window that refused in
    X-RateLimit-Limit-Exceeded and carries a Retry-After of the seconds to
    the next minute boundary, at least 1 and at most 60, also when it is the
    hour or the day ceiling that refused; an admission carries neither. *)
Theorem refusal_headers (self : limiter) (request : request)
  (user_id tenant_id : option string) (plan : string) (endpoint : option string)
  (now : Q) (allowed : bool) (headers : list (string * string)) (self' : limiter) :
  check_rate_limit self request user_id tenant_id plan endpoint now
  = (Ok (allowed, headers), self') ->
  if allowed
  then assoc "Retry-After" headers = None /\
       assoc "X-RateLimit-Limit-Exceeded" headers = None
  else assoc "Retry-After" headers = Some (pretty (60 - py_int now mod 60)) /\
       1 <= 60 - py_int now mod 60 <= 60 /\
       (assoc "X-RateLimit-Limit-Exceeded" headers = Some "minute" \/
        assoc "X-RateLimit-Limit-Exceeded" headers = Some "hour" \/
        assoc "X-RateLimit-Limit-Exceeded" headers = Some "day").
Proof.
  unfold check_rate_limit.
  destruct (check_rate_limit_verdict self request user_id tenant_id plan endpoint now)
    as [[v|e] s] eqn:Hv; [|discriminate].
  intros [= <- <- <-].
  destruct (seconds_to_next_minute (py_int now)) as [Heq Hb].
  destruct (RateLimiting.allowed v) eqn:Ha.
  - unfold rate_limit_headers. rewrite Ha. split; reflexivity.
  - split; [|split; [exact Hb|]].
    + unfold rate_limit_headers. rewrite Ha. cbn [app assoc String.eqb Ascii.eqb Bool.eqb].
      now rewrite Heq.
    + rewrite limit_exceeded_header, Ha.
      revert Hv Ha. unfold check_rate_limit_verdict.
      destruct (_increment_counter self _ 60 now) as [[mc|e] s1]; [|discriminate].
      destruct (_increment_counter s1 _ 3600 now) as [[hc|e] s2]; [|discriminate].
      destruct (_increment_counter s2 _ 86400 now) as [[dc|e] s3]; [|discriminate].
      destruct (_get_burst_tokens s3 _ _ now) as [[bt|e] s4]; [|discriminate].
      cbv zeta.
      destruct (endpoint_limit _ _ <? mc).
      * destruct (0 <? bt).
        -- destruct (_consume_burst_token s4 _ now) as [[b|e] s5]; [|discriminate].
           destruct (requests_per_hour _ <? hc), (requests_per_day _ <? dc);
             intros [= <- _]; cbn; intros; auto; discriminate.
        -- destruct (requests_per_hour _ <? hc), (requests_per_day _ <? dc);
             intros [= <- _]; cbn; intros; auto; discriminate.
      * destruct (requests_per_hour _ <? hc), (requests_per_day _ <? dc);
          intros [= <- _]; cbn; intros; auto; discriminate.
Qed.

Lemma refusal_headers_witness :
  exists headers self',
    check_rate_limit (online busy_redis None) plain_request (Some "u1") None
      "starter" (Some "/api/courses") 10 = (Ok (false, headers), self') /\
    assoc "Retry-After" headers = Some "50" /\
    assoc "X-RateLimit-Limit-Exceeded" headers = Some "hour".
Proof.
  eassert (E : check_rate_limit (online busy_redis None) plain_request (Some "u1")
                 None "starter" (Some "/api/courses") 10 = (Ok (false, _), _))
    by (vm_compute; reflexivity).
  pose proof (refusal_headers _ _ _ _ _ _ _ _ _ _ E) as (Hr & _ & _).
  eexists _, _. split; [exact E|]. split; [exact Hr | reflexivity].
Defined.

(** A limiter built while Redis was up has no in-memory store: once Redis
    fails, [check_rate_limit] neither admits nor refuses but raises
    [AttributeError], and changes nothing. *)
Theorem redis_lost_after_start (self : limiter) (c : Redis.conn) (request : request)
  (user_id tenant_id : option string) (plan : string) (endpoint : option string) (now : Q) :
  redis_client self = Some c -> Redis.alive c = false -> memory_store self = None ->
  check_rate_limit self request user_id tenant_id plan endpoint now
  = (Raise AttributeError, self).
Proof.
  intros Hc Ha Hm. unfold check_rate_limit, check_rate_limit_verdict.
  unfold _increment_counter at 1. rewrite Hc, Ha. unfold _fallback_increment.
  rewrite Hm. reflexivity.
Qed.

Lemma redis_lost_after_start_witness :
  check_rate_limit (mk_limiter (Some (Redis.mk_conn false busy_redis)) None) plain_request
    (Some "u1") None "starter" (Some "/api/courses") 10
  = (Raise AttributeError, mk_limiter (Some (Redis.mk_conn false busy_redis)) None).
Proof.
  apply (redis_lost_after_start _ (Redis.mk_conn false busy_redis)); reflexivity.
Defined.

End Responses.

Section Frame.
Import Py RateLimiting.
Local Open Scope Z_scope.

(** The limiter with one more entry in its Redis. *)
Definition with_entry (k : string) (e : Redis.entry) (self : limiter) : limiter :=
  with_redis self (<[k := e]> (from_option Redis.data ∅ (redis_client self))).

Lemma with_entry_with_redis (k : string) (e : Redis.entry) (self : limiter)
  (d : gmap string Redis.entry) :
  with_redis (with_entry k e self) (<[k := e]> d) = with_entry k e (with_redis self d).
Proof.
  unfold with_entry, with_redis. cbn [redis_client memory_store].
  destruct (redis_client self); reflexivity.
Qed.

Variables (k : string) (e : Redis.entry).

Lemma incr_frame (d : gmap string Redis.entry) (key : string) (now : Q) :
  k <> key ->
  Redis.incr (<[k := e]> d) key now
  = (fst (Redis.incr d key now), <[k := e]> (snd (Redis.incr d key now))).
Proof.
  intros Hne. unfold Redis.incr. rewrite peek_insert_ne by exact Hne.
  destruct (Redis.peek d key now) as [en|]; cbn [fst snd].
  - destruct (Redis.value en) as [[z| | |]| |]; cbn [fst snd]; try reflexivity.
    now rewrite insert_insert_ne by (apply not_eq_sym; exact Hne).
  - now rewrite insert_insert_ne by (apply not_eq_sym; exact Hne).
Qed.

Lemma expire_frame (d : gmap string Redis.entry) (key : string) (ttl now : Q) :
  k <> key ->
  Redis.expire (<[k := e]> d) key ttl now = <[k := e]> (Redis.expire d key ttl now).
Proof.
  intros Hne. unfold Redis.expire. rewrite peek_insert_ne by exact Hne.
  destruct (Redis.peek d key now) as [en|]; [|reflexivity].
  now rewrite insert_insert_ne by (apply not_eq_sym; exact Hne).
Qed.

Lemma hset_frame (d : gmap string Redis.entry) (key : string)
  (fields : list (string * Redis.scalar)) (now : Q) :
  k <> key ->
  Redis.hset (<[k := e]> d) key fields now
  = (fst (Redis.hset d key fields now), <[k := e]> (snd (Redis.hset d key fields now))).
Proof.
  intros Hne. unfold Redis.hset. rewrite peek_insert_ne by exact Hne.
  destruct (Redis.peek d key now) as [en|]; cbn [fst snd].
  - destruct (Redis.value en); cbn [fst snd]; try reflexivity.
    now rewrite insert_insert_ne by (apply not_eq_sym; exact Hne).
  - now rewrite insert_insert_ne by (apply not_eq_sym; exact Hne).
Qed.

Lemma hincrby_frame (d : gmap string Redis.entry) (key f : string) (delta : Z) (now : Q) :
  k <> key ->
  Redis.hincrby (<[k := e]> d) key f delta now
  = (fst (Redis.hincrby d key f delta now),
     <[k := e]> (snd (Redis.hincrby d key f delta now))).
Proof.
  intros Hne. unfold Redis.hincrby. rewrite peek_insert_ne by exact Hne.
  destruct (Redis.peek d key now) as [en|]; cbn [fst snd].
  - destruct (Redis.value en) as [|h|]; cbn [fst snd]; try reflexivity.
    destruct (h !! f) as [[z| | |]|]; cbn [fst snd]; try reflexivity;
      now rewrite insert_insert_ne by (apply not_eq_sym; exact Hne).
  - now rewrite insert_insert_ne by (apply not_eq_sym; exact Hne).
Qed.

Lemma hgetall_frame (d : gmap string Redis.entry) (key : string) (now : Q) :
  k <> key -> Redis.hgetall (<[k := e]> d) key now = Redis.hgetall d key now.
Proof. intros Hne. unfold Redis.hgetall. now rewrite peek_insert_ne. Qed.

Lemma fallback_increment_frame (self : limiter) (key : string) (now : Q) :
  _fallback_increment (with_entry k e self) key now
  = (fst (_fallback_increment self key now),
     with_entry k e (snd (_fallback_increment self key now))).
Proof.
  unfold _fallback_increment. cbn [memory_store with_entry with_redis].
  destruct (memory_store self) as [store|]; cbn [fst snd]; [|reflexivity].
  unfold with_entry, with_redis. cbn [redis_client memory_store]. reflexivity.
Qed.

Lemma increment_counter_frame (self : limiter) (key : string) (ttl : Z) (now : Q) :
  k <> key ->
  _increment_counter (with_entry k e self) key ttl now
  = (fst (_increment_counter self key ttl now),
     with_entry k e (snd (_increment_counter self key ttl now))).
Proof.
  intros Hne. unfold _increment_counter.
  destruct (redis_client self) as [c|] eqn:Hc.
  - assert (Hc' : redis_client (with_entry k e self)
                  = Some (Redis.mk_conn (Redis.alive c) (<[k := e]> (Redis.data c)))).
    { unfold with_entry, with_redis. cbn [redis_client]. rewrite Hc. reflexivity. }
    rewrite Hc'. cbn [Redis.alive Redis.data].
    destruct (Redis.alive c) eqn:Ha.
    + rewrite incr_frame by exact Hne.
      destruct (Redis.incr (Redis.data c) key now) as [r d1]. cbn [fst snd].
      rewrite expire_frame by exact Hne. rewrite with_entry_with_redis.
      destruct r as [n|err]; cbn [fst snd]; [reflexivity|].
      apply fallback_increment_frame.
    + apply fallback_increment_frame.
  - assert (Hc' : redis_client (with_entry k e self) = None).
    { unfold with_entry, with_redis. cbn [redis_client]. now rewrite Hc. }
    rewrite Hc'. apply fallback_increment_frame.
Qed.

Lemma redis_client_with_entry (self : limiter) (c : Redis.conn) :
  redis_client self = Some c ->
  redis_client (with_entry k e self)
  = Some (Redis.mk_conn (Redis.alive c) (<[k := e]> (Redis.data c))).
Proof.
  intros Hc. unfold with_entry, with_redis. cbn [redis_client]. now rewrite Hc.
Qed.

Lemma with_entry_offline (self : limiter) :
  redis_client self = None -> with_entry k e self = self.
Proof.
  intros Hc. unfold with_entry, with_redis. rewrite Hc. destruct self. cbn in *. now subst.
Qed.

Lemma get_burst_tokens_frame (self : limiter) (client_id : string)
  (config : RateLimitConfig) (now : Q) :
  k <> bucket_key client_id ->
  _get_burst_tokens (with_entry k e self) client_id config now
  = (fst (_get_burst_tokens self client_id config now),
     with_entry k e (snd (_get_burst_tokens self client_id config now))).
Proof.
  intros Hne. unfold _get_burst_tokens.
  destruct (redis_client self) as [c|] eqn:Hc.
  - rewrite (redis_client_with_entry self c Hc). cbn [Redis.alive Redis.data].
    destruct (Redis.alive c); [|reflexivity].
    rewrite hgetall_frame by exact Hne.
    destruct (Redis.hgetall (Redis.data c) (bucket_key client_id) now) as [h|err];
      [|reflexivity].
    destruct (bool_decide (h = ∅)).
    + rewrite hset_frame by exact Hne.
      destruct (Redis.hset (Redis.data c) _ _ now) as [[u|err] d1]; cbn [fst snd].
      * rewrite expire_frame by exact Hne. now rewrite with_entry_with_redis.
      * now rewrite with_entry_with_redis.
    + destruct (Redis.int_of _) as [tokens|err]; [|reflexivity].
      destruct (Redis.float_of _) as [last|err]; [|reflexivity].
      cbv zeta. rewrite hset_frame by exact Hne.
      destruct (Redis.hset (Redis.data c) _ _ now) as [[u|err] d1]; cbn [fst snd];
        now rewrite with_entry_with_redis.
  - rewrite (with_entry_offline self Hc), Hc. cbn [fst snd].
    now rewrite (with_entry_offline self Hc).
Qed.

Lemma consume_burst_token_frame (self : limiter) (client_id : string) (now : Q) :
  k <> bucket_key client_id ->
  _consume_burst_token (with_entry k e self) client_id now
  = (fst (_consume_burst_token self client_id now),
     with_entry k e (snd (_consume_burst_token self client_id now))).
Proof.
  intros Hne. unfold _consume_burst_token.
  destruct (redis_client self) as [c|] eqn:Hc.
  - rewrite (redis_client_with_entry self c Hc). cbn [Redis.alive Redis.data].
    destruct (Redis.alive c); [|reflexivity].
    unfold Redis.hget. rewrite hgetall_frame by exact Hne.
    destruct (Redis.hgetall (Redis.data c) (bucket_key client_id) now) as [h|err];
      [|reflexivity].
    destruct (h !! "tokens") as [tokens|]; [|reflexivity].
    destruct (Redis.nonempty tokens); [|reflexivity].
    destruct (Redis.int_of tokens) as [n|err]; [|reflexivity].
    destruct (0 <? n); [|reflexivity].
    rewrite hincrby_frame by exact Hne.
    destruct (Redis.hincrby (Redis.data c) _ _ _ now) as [r d1]. cbn [fst snd].
    now rewrite with_entry_with_redis.
  - rewrite (with_entry_offline self Hc), Hc. cbn [fst snd].
    now rewrite (with_entry_offline self Hc).
Qed.

(** An entry under a key that is none of the client's four leaves
    [check_rate_limit] as it was: the same answer, the same writes. *)
Lemma check_rate_limit_frame (self : limiter) (request : request)
  (user_id tenant_id : option string) (plan : string) (endpoint : option string) (now : Q) :
  let cid := _get_client_id request user_id tenant_id in
  let ep := effective_endpoint request endpoint in
  k <> _get_redis_key cid "minute" (Some ep) now ->
  k <> _get_redis_key cid "hour" None now ->
  k <> _get_redis_key cid "day" None now ->
  k <> bucket_key cid ->
  check_rate_limit (with_entry k e self) request user_id tenant_id plan endpoint now
  = (fst (check_rate_limit self request user_id tenant_id plan endpoint now),
     with_entry k e (snd (check_rate_limit self request user_id tenant_id plan endpoint now))).
Proof.
  cbv zeta. intros Km Kh Kd Kb.
  unfold check_rate_limit, check_rate_limit_verdict.
  rewrite increment_counter_frame by exact Km.
  destruct (_increment_counter self _ 60 now) as [[mc|err] s1]; cbn [fst snd];
    [|reflexivity].
  rewrite increment_counter_frame by exact Kh.
  destruct (_increment_counter s1 _ 3600 now) as [[hc|err] s2]; cbn [fst snd];
    [|reflexivity].
  rewrite increment_counter_frame by exact Kd.
  destruct (_increment_counter s2 _ 86400 now) as [[dc|err] s3]; cbn [fst snd];
    [|reflexivity].
  rewrite get_burst_tokens_frame by exact Kb.
  destruct (_get_burst_tokens s3 _ _ now) as [[bt|err] s4]; cbn [fst snd];
    [|reflexivity].
  cbv zeta.
  destruct (endpoint_limit _ _ <? mc).
  - destruct (0 <? bt).
    + rewrite consume_burst_token_frame by exact Kb.
      destruct (_consume_burst_token s4 _ now) as [[b|err] s5]; cbn [fst snd];
        [|reflexivity].
      destruct (requests_per_hour _ <? hc), (requests_per_day _ <? dc); reflexivity.
    + destruct (requests_per_hour _ <? hc), (requests_per_day _ <? dc); reflexivity.
  - destruct (requests_per_hour _ <? hc), (requests_per_day _ <? dc); reflexivity.
Qed.

End Frame.

Section Whitelist.
Import Py RateLimiting.
Local Open Scope Z_scope.

Lemma whitelist_key_apart (request : request) (user_id tenant_id : option string)
  (client_id window : string) (endpoint : option string) (now : Q) :
  whitelist_key client_id
  <> _get_redis_key (_get_client_id request user_id tenant_id) window endpoint now /\
  whitelist_key client_id <> bucket_key (_get_client_id request user_id tenant_id).
Proof.
  unfold whitelist_key, _get_redis_key, _get_client_id, bucket_key.
  destruct (truthy_opt user_id), (truthy_opt tenant_id), (truthy_opt endpoint);
    split; intros H; cbn in H; discriminate H.
Qed.

(** [check_rate_limit] never consults the whitelist: whitelisting a client,
    the caller or another, changes no answer. *)
Theorem whitelist_not_consulted (self : limiter) (client_id : string)
  (duration_hours : Z) (t0 : Q) (request : request) (user_id tenant_id : option string)
  (plan : string) (endpoint : option string) (now : Q) :
  fst (check_rate_limit (snd (whitelist_client self client_id duration_hours t0))
         request user_id tenant_id plan endpoint now)
  = fst (check_rate_limit self request user_id tenant_id plan endpoint now).
Proof.
  unfold whitelist_client.
  destruct (redis_client self) as [c|] eqn:Hc; [|reflexivity].
  destruct (Redis.alive c); cbn [negb]; [|reflexivity].
  destruct (setex_cases (Redis.data c) (whitelist_key client_id)
              (inject_Z (duration_hours * 3600)) (Redis.SText "whitelisted") t0)
    as [[_ ->] | [_ ->]]; [|reflexivity].
  cbn [snd].
  assert (E : with_redis self
                (<[whitelist_key client_id :=
                     Redis.mk_entry (Redis.RStr (Redis.SText "whitelisted"))
                       (Some (t0 + inject_Z (duration_hours * 3600))%Q)]> (Redis.data c))
              = with_entry (whitelist_key client_id)
                  (Redis.mk_entry (Redis.RStr (Redis.SText "whitelisted"))
                     (Some (t0 + inject_Z (duration_hours * 3600))%Q)) self).
  { unfold with_entry. now rewrite Hc. }
  rewrite E.
  rewrite check_rate_limit_frame; [reflexivity | | | |].
  - apply (proj1 (whitelist_key_apart request user_id tenant_id client_id _ _ _)).
  - apply (proj1 (whitelist_key_apart request user_id tenant_id client_id _ _ _)).
  - apply (proj1 (whitelist_key_apart request user_id tenant_id client_id _ _ _)).
  - apply (proj2 (whitelist_key_apart request user_id tenant_id client_id "" None 0%Q)).
Qed.

(** With Redis up, a client whitelisted at [t0] for a positive number of
    hours is reported whitelisted exactly until [t0 + 3600 * hours]; the
    entries of other clients are as before; a duration that is not positive
    whitelists nobody. *)
Theorem whitelist_round_trip (d : gmap string Redis.entry)
  (ms : option (gmap string slot)) (client_id : string) (duration_hours : Z) (t0 : Q) :
  (0 < duration_hours ->
   fst (whitelist_client (online d ms) client_id duration_hours t0) = true /\
   (forall now,
      is_whitelisted (snd (whitelist_client (online d ms) client_id duration_hours t0))
        client_id now
      = Qltb now (t0 + inject_Z (3600 * duration_hours))) /\
   (forall other now,
      other <> client_id ->
      is_whitelisted (snd (whitelist_client (online d ms) client_id duration_hours t0))
        other now
      = is_whitelisted (online d ms) other now)) /\
  (duration_hours <= 0 ->
   whitelist_client (online d ms) client_id duration_hours t0 = (false, online d ms)).
Proof.
  unfold whitelist_client, online. cbn [redis_client Redis.alive Redis.data negb].
  split.
  - intros Hpos. rewrite setex_ok by (apply inject_Z_pos; lia).
    cbn [fst snd]. split; [reflexivity|].
    unfold is_whitelisted, with_redis.
    cbn [redis_client option_map Redis.alive Redis.data negb].
    unfold Redis.exists_key. split.
    + intros now. rewrite peek_insert_eq. unfold Redis.is_live. cbn [Redis.expiry].
      rewrite (Z.mul_comm 3600). destruct (Qltb now _); reflexivity.
    + intros other now Hne. rewrite peek_insert_ne; [reflexivity|].
      unfold whitelist_key. intros Hk.
      apply (inj (String.app "rate_limit:whitelist:")) in Hk. congruence.
  - intros Hneg. rewrite setex_refused; [reflexivity|].
    change 0%Q with (inject_Z 0). rewrite <- Zle_Qle. lia.
Qed.

End Whitelist.

Section Strings.

Lemma app_cons (x : ascii) (a b : string) : String x a +:+ b = String x (a +:+ b).
Proof. reflexivity. Qed.

Lemma app_assoc_string (a b c : string) : (a +:+ b) +:+ c = a +:+ (b +:+ c).
Proof. induction a as [|x a IH]; [reflexivity | now rewrite !app_cons, IH]. Qed.

Lemma prefix_app (p s : string) : String.prefix p (p +:+ s) = true.
Proof.
  induction p as [|x p IH]; [now destruct s|].
  rewrite app_cons. cbn [String.prefix].
  destruct (ascii_dec x x) as [_|N]; [exact IH | contradiction].
Qed.

Lemma prefix_refl (p : string) : String.prefix p p = true.
Proof.
  induction p as [|x p IH]; cbn; [reflexivity|].
  destruct (ascii_dec x x) as [_|N]; [exact IH | contradiction].
Qed.

(** Two strings with a common extension: one is a prefix of the other. *)
Lemma app_eq_prefix (a b s t : string) :
  a +:+ s = b +:+ t -> String.prefix a b = true \/ String.prefix b a = true.
Proof.
  revert b. induction a as [|x a IH]; intros b H.
  - left. now destruct b.
  - destruct b as [|y b]; [right; reflexivity|].
    rewrite !app_cons in H. injection H as -> H. cbn [String.prefix].
    destruct (ascii_dec y y) as [_|N]; [|contradiction]. exact (IH b H).
Qed.

End Strings.

Section Isolation.
Import Py RateLimiting.
Local Open Scope Z_scope.

(** [d'] is [d] after writes under keys of [K] only. *)
Inductive written (K : string -> Prop) (d : gmap string Redis.entry)
  : gmap string Redis.entry -> Prop :=
| written_none : written K d d
| written_more (d' : gmap string Redis.entry) (k : string) (e : Redis.entry) :
    written K d d' -> K k -> written K d (<[k := e]> d').

Lemma written_trans (K : string -> Prop) (d1 d2 d3 : gmap string Redis.entry) :
  written K d1 d2 -> written K d2 d3 -> written K d1 d3.
Proof. intros H12 H23. induction H23; [exact H12 | now constructor]. Qed.

Lemma written_one (K : string -> Prop) (d : gmap string Redis.entry) (k : string)
  (e : Redis.entry) : K k -> written K d (<[k := e]> d).
Proof. intros Hk. constructor; [constructor | exact Hk]. Qed.

Lemma incr_written (K : string -> Prop) (d : gmap string Redis.entry) (key : string) (now : Q) :
  K key -> written K d (snd (Redis.incr d key now)).
Proof.
  intros Hk. unfold Redis.incr. destruct (Redis.peek d key now) as [e|]; cbn [snd].
  - destruct (Redis.value e) as [[z| | |]| |]; cbn [snd];
      first [now apply written_one | constructor].
  - now apply written_one.
Qed.

Lemma expire_written (K : string -> Prop) (d : gmap string Redis.entry) (key : string)
  (ttl now : Q) : K key -> written K d (Redis.expire d key ttl now).
Proof.
  intros Hk. unfold Redis.expire. destruct (Redis.peek d key now) as [e|];
    first [now apply written_one | constructor].
Qed.

Lemma hset_written (K : string -> Prop) (d : gmap string Redis.entry) (key : string)
  (fields : list (string * Redis.scalar)) (now : Q) :
  K key -> written K d (snd (Redis.hset d key fields now)).
Proof.
  intros Hk. unfold Redis.hset. destruct (Redis.peek d key now) as [e|]; cbn [snd].
  - destruct (Redis.value e); cbn [snd]; first [now apply written_one | constructor].
  - now apply written_one.
Qed.

Lemma hincrby_written (K : string -> Prop) (d : gmap string Redis.entry) (key f : string)
  (delta : Z) (now : Q) :
  K key -> written K d (snd (Redis.hincrby d key f delta now)).
Proof.
  intros Hk. unfold Redis.hincrby. destruct (Redis.peek d key now) as [e|]; cbn [snd].
  - destruct (Redis.value e) as [|h|]; cbn [snd]; try constructor.
    destruct (h !! f) as [[z| | |]|]; cbn [snd];
      first [now apply written_one | constructor].
  - now apply written_one.
Qed.

(** A limiter built while Redis was up, Redis still up: what one step
    leaves behind. *)
Definition steps_to (K : string -> Prop) (d : gmap string Redis.entry) (self' : limiter)
  : Prop :=
  exists d', self' = online d' None /\ written K d d'.

Lemma increment_counter_steps (K : string -> Prop) (d : gmap string Redis.entry)
  (key : string) (ttl : Z) (now : Q) :
  K key -> steps_to K d (snd (_increment_counter (online d None) key ttl now)).
Proof.
  intros Hk. unfold _increment_counter, online. cbn [redis_client Redis.alive Redis.data].
  pose proof (incr_written K d key now Hk) as H1.
  destruct (Redis.incr d key now) as [r d1]. cbn [snd] in H1.
  pose proof (expire_written K d1 key (inject_Z ttl) now Hk) as H2.
  exists (Redis.expire d1 key (inject_Z ttl) now).
  split; [|exact (written_trans _ _ _ _ H1 H2)].
  destruct r; reflexivity.
Qed.

Lemma get_burst_tokens_steps (K : string -> Prop) (d : gmap string Redis.entry)
  (client_id : string) (config : RateLimitConfig) (now : Q) :
  K (bucket_key client_id) ->
  steps_to K d (snd (_get_burst_tokens (online d None) client_id config now)).
Proof.
  intros Hk. unfold _get_burst_tokens, online. cbn [redis_client Redis.alive Redis.data].
  assert (H0 : steps_to K d (online d None)) by (exists d; split; [reflexivity | constructor]).
  destruct (Redis.hgetall d (bucket_key client_id) now) as [h|err]; [|exact H0].
  destruct (bool_decide (h = ∅)).
  - pose proof (hset_written K d (bucket_key client_id)
                  [("tokens", Redis.SInt (burst_capacity config));
                   ("last_refill", Redis.SFloat now)] now Hk) as H1.
    destruct (Redis.hset d _ _ now) as [[u|err] d1]; cbn [snd] in *.
    + eexists. split; [reflexivity|].
      exact (written_trans _ _ _ _ H1 (expire_written K d1 _ _ now Hk)).
    + eexists. split; [reflexivity | exact H1].
  - destruct (Redis.int_of _) as [tokens|err]; [|exact H0].
    destruct (Redis.float_of _) as [last|err]; [|exact H0].
    cbv zeta.
    match goal with
    | |- context [Redis.hset d ?key ?fields now] =>
        pose proof (hset_written K d key fields now Hk) as H1;
        destruct (Redis.hset d key fields now) as [[u|err] d1]
    end; cbn [snd] in *; eexists; (split; [reflexivity | exact H1]).
Qed.

Lemma consume_burst_token_steps (K : string -> Prop) (d : gmap string Redis.entry)
  (client_id : string) (now : Q) :
  K (bucket_key client_id) ->
  steps_to K d (snd (_consume_burst_token (online d None) client_id now)).
Proof.
  intros Hk. unfold _consume_burst_token, online. cbn [redis_client Redis.alive Redis.data].
  assert (H0 : steps_to K d (online d None)) by (exists d; split; [reflexivity | constructor]).
  destruct (Redis.hget d (bucket_key client_id) "tokens" now) as [[tokens|]|err];
    try exact H0.
  destruct (Redis.nonempty tokens); [|exact H0].
  destruct (Redis.int_of tokens) as [n|err]; [|exact H0].
  destruct (0 <? n); [|exact H0].
  pose proof (hincrby_written K d (bucket_key client_id) "tokens" (-1) now Hk) as H1.
  destruct (Redis.hincrby d _ _ _ now) as [r d1]. cbn [snd] in *.
  eexists. split; [reflexivity | exact H1].
Qed.

Lemma steps_to_trans (K : string -> Prop) (d d1 : gmap string Redis.entry)
  (self' : limiter) :
  written K d d1 -> steps_to K d1 self' -> steps_to K d self'.
Proof.
  intros H1 (d2 & -> & H2). exists d2. split; [reflexivity|].
  exact (written_trans _ _ _ _ H1 H2).
Qed.

(** The keys of one client. *)
Definition client_key (client_id : string) (k : string) : Prop :=
  (exists window endpoint now, k = _get_redis_key client_id window endpoint now) \/
  k = bucket_key client_id.

(** [check_rate_limit] writes under the keys of the calling client only. *)
Lemma check_rate_limit_steps (d : gmap string Redis.entry) (request : request)
  (user_id tenant_id : option string) (plan : string) (endpoint : option string) (now : Q) :
  steps_to (client_key (_get_client_id request user_id tenant_id)) d
    (snd (check_rate_limit (online d None) request user_id tenant_id plan endpoint now)).
Proof.
  set (K := client_key (_get_client_id request user_id tenant_id)).
  assert (Kc : forall w e, K (_get_redis_key (_get_client_id request user_id tenant_id) w e now))
    by (intros w e; left; eauto).
  assert (Kb : K (bucket_key (_get_client_id request user_id tenant_id))) by (now right).
  unfold check_rate_limit, check_rate_limit_verdict.
  destruct (increment_counter_steps K d _ 60 now
              (Kc "minute" (Some (effective_endpoint request endpoint)))) as (d1 & E1 & W1).
  destruct (_increment_counter (online d None) _ 60 now) as [r1 s1]. cbn [snd] in E1.
  subst s1. destruct r1 as [mc|err]; [|exists d1; auto].
  destruct (increment_counter_steps K d1 _ 3600 now (Kc "hour" None)) as (d2 & E2 & W2).
  destruct (_increment_counter (online d1 None) _ 3600 now) as [r2 s2]. cbn [snd] in E2.
  subst s2. pose proof (written_trans _ _ _ _ W1 W2) as W12.
  destruct r2 as [hc|err]; [|exists d2; auto].
  destruct (increment_counter_steps K d2 _ 86400 now (Kc "day" None)) as (d3 & E3 & W3).
  destruct (_increment_counter (online d2 None) _ 86400 now) as [r3 s3]. cbn [snd] in E3.
  subst s3. pose proof (written_trans _ _ _ _ W12 W3) as W13.
  destruct r3 as [dc|err]; [|exists d3; auto].
  destruct (get_burst_tokens_steps K d3 (_get_client_id request user_id tenant_id)
              (_get_rate_limit_config plan) now Kb) as (d4 & E4 & W4).
  destruct (_get_burst_tokens (online d3 None) _ _ now) as [r4 s4]. cbn [snd] in E4.
  subst s4. pose proof (written_trans _ _ _ _ W13 W4) as W14.
  destruct r4 as [bt|err]; [|exists d4; auto].
  cbv zeta.
  destruct (endpoint_limit _ _ <? mc).
  - destruct (0 <? bt).
    + destruct (consume_burst_token_steps K d4 (_get_client_id request user_id tenant_id)
                  now Kb) as (d5 & E5 & W5).
      destruct (_consume_burst_token (online d4 None) _ now) as [r5 s5]. cbn [snd] in E5.
      subst s5. pose proof (written_trans _ _ _ _ W14 W5) as W15.
      destruct r5 as [b|err]; [|exists d5; auto].
      destruct (requests_per_hour _ <? hc), (requests_per_day _ <? dc);
        exists d5; auto.
    + destruct (requests_per_hour _ <? hc), (requests_per_day _ <? dc); exists d4; auto.
  - destruct (requests_per_hour _ <? hc), (requests_per_day _ <? dc); exists d4; auto.
Qed.

Lemma client_keys_apart (a b : string) (k : string) :
  String.prefix a b = false -> String.prefix b a = false ->
  client_key a k -> ~ client_key b k.
Proof.
  intros Hab Hba Ha Hb.
  assert (Hne : forall s t, a +:+ s <> b +:+ t).
  { intros s t H. destruct (app_eq_prefix _ _ _ _ H); congruence. }
  assert (Hform : forall c w e now, exists rest,
             _get_redis_key c w e now = "rate_limit:" +:+ c +:+ rest).
  { intros c w e now. unfold _get_redis_key. destruct (truthy_opt e); eauto. }
  destruct Ha as [(w & e & now & ->) | ->], Hb as [(w' & e' & now' & Hb) | Hb].
  - destruct (Hform a w e now) as [r1 E1], (Hform b w' e' now') as [r2 E2].
    rewrite E1, E2 in Hb. apply (inj (String.app "rate_limit:")) in Hb.
    exact (Hne _ _ Hb).
  - destruct (Hform a w e now) as [r1 E1]. rewrite E1 in Hb. discriminate Hb.
  - destruct (Hform b w' e' now') as [r2 E2]. rewrite E2 in Hb. discriminate Hb.
  - unfold bucket_key in Hb. apply (inj (String.app "burst_bucket:")) in Hb.
    apply (Hne "" ""). now rewrite Hb.
Qed.

(** Writes under keys that are not the caller's do not change an answer. *)
Lemma check_rate_limit_unwritten (K : string -> Prop) (d d' : gmap string Redis.entry)
  (request : request) (user_id tenant_id : option string) (plan : string)
  (endpoint : option string) (now : Q) :
  (forall k, K k -> ~ client_key (_get_client_id request user_id tenant_id) k) ->
  written K d d' ->
  fst (check_rate_limit (online d' None) request user_id tenant_id plan endpoint now)
  = fst (check_rate_limit (online d None) request user_id tenant_id plan endpoint now).
Proof.
  intros Hapart W. induction W as [|d' k e W IH Hk]; [reflexivity|].
  rewrite <- IH.
  change (online (<[k := e]> d') None) with (with_entry k e (online d' None)).
  rewrite check_rate_limit_frame; [reflexivity | | | |];
    intros ->; apply (Hapart _ Hk);
    first [left; do 3 eexists; reflexivity | right; reflexivity].
Qed.

(** Clients are isolated.  With Redis up, and for two clients neither of
    whose identifiers is a prefix of the other, a request of the one never
    changes the answer to a request of the other. *)
Theorem client_isolation (d : gmap string Redis.entry)
  (request_a : request) (user_a tenant_a : option string) (plan_a : string)
  (endpoint_a : option string) (t_a : Q)
  (request_b : request) (user_b tenant_b : option string) (plan_b : string)
  (endpoint_b : option string) (t_b : Q) :
  let a := _get_client_id request_a user_a tenant_a in
  let b := _get_client_id request_b user_b tenant_b in
  String.prefix a b = false -> String.prefix b a = false ->
  fst (check_rate_limit
         (snd (check_rate_limit (online d None) request_a user_a tenant_a plan_a
                 endpoint_a t_a))
         request_b user_b tenant_b plan_b endpoint_b t_b)
  = fst (check_rate_limit (online d None) request_b user_b tenant_b plan_b endpoint_b t_b).
Proof.
  intros a b Hab Hba.
  destruct (check_rate_limit_steps d request_a user_a tenant_a plan_a endpoint_a t_a)
    as (d' & -> & W).
  apply (check_rate_limit_unwritten (client_key a)); [|exact W].
  intros k Hk. exact (client_keys_apart a b k Hab Hba Hk).
Qed.

Lemma client_isolation_witness :
  fst (check_rate_limit
         (snd (check_rate_limit (online busy_redis None) plain_request (Some "u2") None
                 "starter" (Some "/api/courses") 10))
         plain_request (Some "u1") None "starter" (Some "/api/courses") 11)
  = fst (check_rate_limit (online busy_redis None) plain_request (Some "u1") None
           "starter" (Some "/api/courses") 11).
Proof.
  apply (client_isolation busy_redis plain_request (Some "u2") None "starter"
           (Some "/api/courses") 10 plain_request (Some "u1") None "starter"
           (Some "/api/courses") 11); reflexivity.
Defined.

End Isolation.

Section Reset.
Import Py RateLimiting.
Local Open Scope Z_scope.

Lemma keys_spec (d : gmap string Redis.entry) (pre : string) (now : Q) (k : string) :
  In k (Redis.keys d pre now) <->
  String.prefix pre k = true /\
  exists e, d !! k = Some e /\ Redis.is_live now e = true.
Proof.
  unfold Redis.keys. rewrite in_map_iff. split.
  - intros ([k' e] & <- & Hin). apply filter_In in Hin. destruct Hin as [Hin Hp].
    apply andb_prop in Hp. destruct Hp as [Hp Hl]. cbn [fst snd] in *.
    split; [exact Hp|]. exists e. split; [|exact Hl].
    apply list_elem_of_In in Hin. now apply elem_of_map_to_list in Hin.
  - intros (Hp & e & Hd & Hl). exists (k, e). split; [reflexivity|].
    apply filter_In. split.
    + apply list_elem_of_In. now apply elem_of_map_to_list.
    + cbn [fst snd]. now rewrite Hp, Hl.
Qed.

Lemma delete_all_lookup (ks : list string) :
  forall (d : gmap string Redis.entry) (k : string),
  Redis.delete_all d ks !! k = if str_in k ks then None else d !! k.
Proof.
  induction ks as [|k0 ks IH]; intros d k; [reflexivity|].
  unfold Redis.delete_all in *. cbn [fold_left]. rewrite IH. unfold Redis.delete.
  unfold str_in. cbn [existsb]. fold (str_in k ks).
  destruct (String.eqb_spec k k0) as [-> | Hne]; cbn [orb].
  - rewrite lookup_delete_eq. now destruct (str_in k0 ks).
  - now rewrite lookup_delete_ne by auto.
Qed.

Lemma is_live_later (now now' : Q) (e : Redis.entry) :
  (now <= now')%Q -> Redis.is_live now e = false -> Redis.is_live now' e = false.
Proof.
  unfold Redis.is_live. destruct (Redis.expiry e) as [x|]; [|discriminate].
  intros Hle H. apply Qltb_ge in H. apply Qltb_ge. lra.
Qed.

(** After DEL of the live keys with a prefix, no key with the prefix is
    live, then or later; the other keys are as before. *)
Lemma delete_keys_clears (d : gmap string Redis.entry) (pre : string) (now now' : Q) :
  (now <= now')%Q ->
  (forall k, String.prefix pre k = true ->
             Redis.peek (Redis.delete_all d (Redis.keys d pre now)) k now' = None) /\
  (forall k, String.prefix pre k = false ->
             Redis.delete_all d (Redis.keys d pre now) !! k = d !! k).
Proof.
  intros Hle. split; intros k Hp; unfold Redis.peek; rewrite delete_all_lookup.
  - destruct (str_in k (Redis.keys d pre now)) eqn:E; [reflexivity|].
    destruct (d !! k) as [e|] eqn:Hd; [|reflexivity].
    destruct (Redis.is_live now e) eqn:Hl.
    + assert (H : str_in k (Redis.keys d pre now) = true)
        by (apply str_in_In, keys_spec; eauto).
      congruence.
    + now rewrite (is_live_later now now' e Hle Hl).
  - destruct (str_in k (Redis.keys d pre now)) eqn:E; [|reflexivity].
    apply str_in_In, keys_spec in E. destruct E as [E _]. congruence.
Qed.

Lemma get_burst_tokens_raises (self : limiter) (client_id : string)
  (config : RateLimitConfig) (now : Q) (err : exn) (self' : limiter) :
  _get_burst_tokens self client_id config now = (Raise err, self') -> err = ValueError.
Proof.
  unfold _get_burst_tokens.
  destruct (redis_client self) as [c|]; [|discriminate].
  destruct (Redis.alive c); [|discriminate].
  destruct (Redis.hgetall _ _ now) as [h|e0]; [|discriminate].
  destruct (bool_decide (h = ∅)).
  - destruct (Redis.hset _ _ _ now) as [[u|e1] d1]; discriminate.
  - destruct (default (Redis.SInt 0) (h !! "tokens")) as [z|q|s|f]; cbn [Redis.int_of];
      try (intros [= <-]; reflexivity).
    destruct (default (Redis.SFloat now) (h !! "last_refill")) as [z'|q|s|f];
      cbn [Redis.float_of]; try (intros [= <-]; reflexivity);
      cbv zeta; destruct (Redis.hset _ _ _ now) as [[u|e1] d1]; discriminate.
Qed.

Lemma plan_config_room (plan : string) :
  1 <= requests_per_hour (_get_rate_limit_config plan) /\
  1 <= requests_per_day (_get_rate_limit_config plan).
Proof.
  destruct (plan_config_cases plan) as [-> | [-> | [-> | ->]]]; split; discriminate.
Qed.

Lemma redis_key_prefix (client_id window : string) (endpoint : option string) (now : Q) :
  String.prefix ("rate_limit:" +:+ client_id +:+ ":")
    (_get_redis_key client_id window endpoint now) = true.
Proof.
  assert (E : forall rest, "rate_limit:" +:+ client_id +:+ ":" +:+ rest
                           = ("rate_limit:" +:+ client_id +:+ ":") +:+ rest)
    by (intros rest; now rewrite !app_assoc_string).
  unfold _get_redis_key.
  destruct (truthy_opt endpoint);
    match goal with
    | |- String.prefix _ (_ +:+ _ +:+ _ +:+ ?rest) = true => rewrite (E rest)
    end; apply prefix_app.
Qed.

(** reset_rate_limit works, as far as the counters go.  With Redis up, once
    the limits of a client have been reset for all windows, the client's
    next request is admitted, whatever its counts were, unless the burst
    bucket holds something that is no number ([ValueError]); the bucket
    itself is not reset. *)
Theorem reset_then_admitted (d : gmap string Redis.entry)
  (ms : option (gmap string slot)) (request : request)
  (user_id tenant_id : option string) (plan : string) (endpoint : option string)
  (now now' : Q) (done : bool) (self' : limiter) :
  let client_id := _get_client_id request user_id tenant_id in
  reset_rate_limit (online d ms) client_id "all" now = Some (done, self') ->
  (now <= now')%Q ->
  ((exists headers,
      fst (check_rate_limit self' request user_id tenant_id plan endpoint now')
      = Ok (true, headers)) \/
   fst (check_rate_limit self' request user_id tenant_id plan endpoint now')
   = Raise ValueError) /\
  exists d', self' = online d' ms /\ d' !! bucket_key client_id = d !! bucket_key client_id.
Proof.
  intros cid Hreset Hle.
  set (pre := "rate_limit:" +:+ cid +:+ ":").
  assert (Hs : self' = online (Redis.delete_all d (Redis.keys d pre now)) ms).
  { revert Hreset. unfold reset_rate_limit.
    destruct (glob_free cid && glob_free "all"); cbn [negb]; [|discriminate].
    unfold online. cbn [redis_client Redis.alive Redis.data negb String.eqb Ascii.eqb
                        Bool.eqb]. fold pre.
    destruct (Redis.keys d pre now) as [|k ks]; intros [= _ <-]; reflexivity. }
  destruct (delete_keys_clears d pre now now' Hle) as [Hclear Hkeep].
  set (d0 := Redis.delete_all d (Redis.keys d pre now)) in *. subst self'.
  split.
  - destruct (redis_keys_distinct cid (Some (effective_endpoint request endpoint)) now')
      as (Kmh & Kmd & Kmb & Khd & Khb & Kdb).
    pose proof (plan_config_ceiling plan
                  (_get_endpoint_category (effective_endpoint request endpoint))) as HC.
    destruct (plan_config_room plan) as [Hh Hd].
    unfold check_rate_limit, check_rate_limit_verdict. fold cid.
    rewrite (increment_counter_online d0 ms _ 60 now' 0)
      by (unfold counter_view; now rewrite Hclear by apply redis_key_prefix).
    rewrite (increment_counter_online _ ms _ 3600 now' 0)
      by (unfold counter_view; rewrite peek_insert_ne by exact Kmh;
          now rewrite Hclear by apply redis_key_prefix).
    rewrite (increment_counter_online _ ms _ 86400 now' 0)
      by (unfold counter_view; rewrite !peek_insert_ne by first [exact Kmd | exact Khd];
          now rewrite Hclear by apply redis_key_prefix).
    match goal with
    | |- context [_get_burst_tokens ?s cid ?cfg now'] =>
        destruct (_get_burst_tokens s cid cfg now') as [[bt|err] s4] eqn:Hb
    end.
    + left. cbv zeta.
      rewrite (proj2 (Z.ltb_ge _ (0 + 1))) by lia.
      rewrite (proj2 (Z.ltb_ge (requests_per_hour _) (0 + 1))) by lia.
      rewrite (proj2 (Z.ltb_ge (requests_per_day _) (0 + 1))) by lia.
      cbn [fst allowed]. eauto.
    + right. cbn [fst]. f_equal. exact (get_burst_tokens_raises _ _ _ _ _ _ Hb).
  - exists d0. split; [reflexivity|]. apply Hkeep.
    unfold pre, bucket_key. reflexivity.
Qed.

Lemma reset_then_admitted_witness :
  exists self',
    reset_rate_limit (online busy_redis None) "user:u1" "all" 10 = Some (true, self') /\
    (exists headers,
       fst (check_rate_limit self' plain_request (Some "u1") None "starter"
              (Some "/api/courses") 11) = Ok (true, headers)).
Proof.
  eassert (E : reset_rate_limit (online busy_redis None) "user:u1" "all" 10
               = Some (true, _)) by (vm_compute; reflexivity).
  eexists. split; [exact E|].
  destruct (reset_then_admitted busy_redis None plain_request (Some "u1") None "starter"
              (Some "/api/courses") 10 11 _ _ E) as [[H | H] _].
  - vm_compute. discriminate.
  - exact H.
  - exfalso. revert H. vm_compute. discriminate.
Defined.

End Reset.

(** ** Dynamic limits *)

Section DynamicLimits.
Import Py Throttling.
Local Open Scope Q_scope.

Lemma prefix_inv (p s : string) :
  String.prefix p s = true -> exists post, s = p +:+ post.
Proof.
  revert s. induction p as [|x p IH]; intros s H.
  - exists s. reflexivity.
  - destruct s as [|y s]; [discriminate|]. cbn [String.prefix] in H.
    destruct (ascii_dec x y) as [->|]; [|discriminate].
    destruct (IH s H) as [post ->]. exists post. now rewrite app_cons.
Qed.

(** [str_contains] is Python's [in]: the pattern occurs at some offset. *)
Lemma str_contains_spec (pattern s : string) :
  str_contains pattern s = true <-> exists pre post, s = pre +:+ pattern +:+ post.
Proof.
  split.
  - induction s as [|y s IH]; cbn [str_contains]; intros H; apply orb_true_iff in H.
    + destruct H as [H|H]; [|discriminate].
      destruct (prefix_inv _ _ H) as [post E]. exists EmptyString, post. exact E.
    + destruct H as [H|H].
      * destruct (prefix_inv _ _ H) as [post E]. exists EmptyString, post. exact E.
      * destruct (IH H) as (pre & post & ->). exists (String y pre), post.
        now rewrite app_cons.
  - intros (pre & post & ->). induction pre as [|y pre IH].
    + change (EmptyString +:+ pattern +:+ post) with (pattern +:+ post).
      destruct (pattern +:+ post) eqn:E; cbn [str_contains]; rewrite <- E;
        now rewrite prefix_app.
    + rewrite app_cons. cbn [str_contains]. rewrite IH. apply orb_true_r.
Qed.

Lemma is_endpoint_whitelisted_spec (self : engine) (endpoint : string) :
  _is_endpoint_whitelisted self endpoint = true
  <-> exists pattern pre post,
        In pattern (whitelist_patterns (config self)) /\
        endpoint = pre +:+ pattern +:+ post.
Proof.
  unfold _is_endpoint_whitelisted. rewrite existsb_exists. split.
  - intros (p & Hin & H). apply str_contains_spec in H. destruct H as (pre & post & E).
    now exists p, pre, post.
  - intros (p & pre & post & Hin & E). exists p. split; [exact Hin|].
    apply str_contains_spec. now exists pre, post.
Qed.

(** An endpoint that contains a whitelist pattern anywhere in its path, not
    only at its start, gets the unlimited answer: the subscription plan is not
    looked up (an unknown plan raises nothing), the circuit breaker is not
    consulted and nothing is sampled or written. *)
Theorem whitelisted_endpoint_unlimited (self : engine)
  (subscription_plan endpoint_category tenant_id : string)
  (sample_cb sample : option psutil_sample) (now : Q) (pattern pre post : string) :
  In pattern (whitelist_patterns (config self)) ->
  calculate_dynamic_limits self subscription_plan endpoint_category tenant_id
    (pre +:+ pattern +:+ post) sample_cb sample now
  = (Ok (mk_dynamic 10000 1000 500), self).
Proof.
  intros Hin. unfold calculate_dynamic_limits.
  assert (H : _is_endpoint_whitelisted self (pre +:+ pattern +:+ post) = true).
  { apply is_endpoint_whitelisted_spec. now exists pattern, pre, post. }
  now rewrite H.
Qed.

Lemma whitelisted_endpoint_unlimited_witness :
  calculate_dynamic_limits storm_engine "no_such_plan" "expensive" "campus"
    ("/api/ai-tutor/generate?next=" +:+ "/health" +:+ "z") calm_sample calm_sample 1000
  = (Ok (mk_dynamic 10000 1000 500), storm_engine).
Proof.
  apply (whitelisted_endpoint_unlimited storm_engine "no_such_plan" "expensive" "campus"
           calm_sample calm_sample 1000 "/health" "/api/ai-tutor/generate?next=" "z").
  cbn. left. reflexivity.
Defined.

Lemma should_apply_circuit_breaker_config (self : engine) (endpoint : string)
  (sample : option psutil_sample) (now : Q) :
  config (snd (_should_apply_circuit_breaker self endpoint sample now)) = config self.
Proof.
  unfold _should_apply_circuit_breaker.
  destruct (redis_client self) as [c|]; [|reflexivity].
  destruct (Redis.alive c); cbn [negb]; [|reflexivity].
  destruct (Redis.hgetall _ _ _) as [h|]; [|reflexivity].
  assert (Hm : config (snd (get_system_metrics self sample now)) = config self).
  { unfold get_system_metrics. destruct sample; reflexivity. }
  destruct (get_system_metrics self sample now) as [metrics self1]. cbn [snd] in Hm.
  repeat match goal with
  | |- context [if ?b then _ else _] => destruct b
  | |- context [match Redis.hset ?a ?b ?c ?d with _ => _ end] =>
      destruct (Redis.hset a b c d) as [[?|?] ?]
  | |- context [match Redis.float_of ?a with _ => _ end] => destruct (Redis.float_of a)
  end; cbn [snd with_redis config]; auto.
Qed.

Lemma calculate_adaptive_multiplier_config (self : engine) (endpoint_category tenant_id : string)
  (sample : option psutil_sample) (now : Q) :
  config (snd (_calculate_adaptive_multiplier self endpoint_category tenant_id sample now))
  = config self.
Proof.
  unfold _calculate_adaptive_multiplier, get_system_metrics.
  destruct sample; reflexivity.
Qed.

Lemma adaptive_multiplier_range (self : engine) (endpoint_category tenant_id : string)
  (sample : option psutil_sample) (now : Q) :
  0.1 <= fst (_calculate_adaptive_multiplier self endpoint_category tenant_id sample now)
  /\ fst (_calculate_adaptive_multiplier self endpoint_category tenant_id sample now) <= 2.0.
Proof.
  unfold _calculate_adaptive_multiplier.
  destruct (get_system_metrics self sample now) as [metrics self1].
  cbn [fst]. apply py_clamp_bounds. lra.
Qed.

(** [max(1, int(base * m))] for a base of at least 1 and [0 <= m <= top]. *)
Lemma scaled_limit_bounds (base top : Z) (m : Q) :
  (1 <= base)%Z -> (1 <= top)%Z -> 0 <= m -> m <= inject_Z top ->
  (1 <= Z.max 1 (py_int (inject_Z base * m)) <= top * base)%Z.
Proof.
  intros Hb Ht H0 Hm. split; [lia|].
  apply Z.max_lub; [nia|].
  assert (Hb' : 0 <= inject_Z base).
  { change 0 with (inject_Z 0). rewrite <- Zle_Qle. lia. }
  assert (Hq : 0 <= inject_Z base * m) by nra.
  rewrite py_int_floor by exact Hq.
  assert (Hle : inject_Z base * m <= inject_Z (top * base)).
  { rewrite inject_Z_mult. nra. }
  rewrite Zle_Qle. eapply Qle_trans; [apply Qfloor_le | exact Hle].
Qed.

Lemma plan_limits_positive (subscription_plan : string) (base_config : RateLimiting.RateLimitConfig)
  (endpoint_category : string) :
  RateLimiting.assoc subscription_plan RateLimiting.SUBSCRIPTION_LIMITS = Some base_config ->
  (1 <= RateLimiting.endpoint_limit base_config endpoint_category)%Z /\
  (1 <= RateLimiting.concurrent_requests base_config)%Z.
Proof.
  unfold RateLimiting.SUBSCRIPTION_LIMITS. cbn [RateLimiting.assoc].
  unfold RateLimiting.endpoint_limit.
  repeat match goal with
  | |- context [if ?b then _ else _] => destruct b
  end; intros [= <-]; cbn; lia.
Qed.

(** Under the INTELLIGENT strategy a known plan, asked about an endpoint that
    is not whitelisted, gets either all zeros (exactly when the circuit
    breaker blocks) or limits within bounds: at least 1 each, at most twice
    the plan's per-minute rate for the category and twice its concurrency,
    and for a blacklisted endpoint at most the plan's own values. *)
Theorem intelligent_limits_bounds (self : engine)
  (subscription_plan endpoint_category tenant_id endpoint : string)
  (base_config : RateLimiting.RateLimitConfig)
  (sample_cb sample : option psutil_sample) (now : Q) :
  strategy (config self) = INTELLIGENT ->
  RateLimiting.assoc subscription_plan RateLimiting.SUBSCRIPTION_LIMITS = Some base_config ->
  _is_endpoint_whitelisted self endpoint = false ->
  let base_rpm := RateLimiting.endpoint_limit base_config endpoint_category in
  let base_concurrent := RateLimiting.concurrent_requests base_config in
  let blocked := fst (_should_apply_circuit_breaker self endpoint sample_cb now) in
  exists limits,
    fst (calculate_dynamic_limits self subscription_plan endpoint_category tenant_id
           endpoint sample_cb sample now) = Ok limits /\
    (blocked = true -> limits = mk_dynamic 0 0 0) /\
    (blocked = false ->
       (1 <= dyn_requests_per_minute limits <= 2 * base_rpm)%Z /\
       (1 <= dyn_concurrent_requests limits <= 2 * base_concurrent)%Z /\
       (1 <= dyn_burst_capacity limits)%Z /\
       (_is_endpoint_blacklisted self endpoint = true ->
          (dyn_requests_per_minute limits <= base_rpm)%Z /\
          (dyn_concurrent_requests limits <= base_concurrent)%Z)).
Proof.
  intros Hs Hplan Hw. cbv zeta. unfold calculate_dynamic_limits. rewrite Hw, Hplan.
  pose proof (should_apply_circuit_breaker_config self endpoint sample_cb now) as Hc.
  destruct (_should_apply_circuit_breaker self endpoint sample_cb now) as [blocked self1].
  cbn [fst snd] in *.
  destruct blocked.
  { eexists. split; [reflexivity|]. split; [reflexivity | discriminate]. }
  rewrite Hc, Hs.
  pose proof (adaptive_multiplier_range self1 endpoint_category tenant_id sample now) as [Hlo Hhi].
  pose proof (calculate_adaptive_multiplier_config self1 endpoint_category tenant_id sample now)
    as Hc2.
  destruct (_calculate_adaptive_multiplier self1 endpoint_category tenant_id sample now)
    as [multiplier self2].
  cbn [fst snd] in *.
  destruct (plan_limits_positive _ _ endpoint_category Hplan) as [Hrpm Hconc].
  assert (Hbl : _is_endpoint_blacklisted self2 endpoint = _is_endpoint_blacklisted self endpoint).
  { unfold _is_endpoint_blacklisted. now rewrite Hc2, Hc. }
  rewrite Hbl.
  eexists. split; [reflexivity|]. split; [discriminate|]. intros _.
  cbn [dyn_requests_per_minute dyn_concurrent_requests dyn_burst_capacity].
  destruct (_is_endpoint_blacklisted self endpoint).
  - pose proof (scaled_limit_bounds _ 1 (multiplier * 0.5) Hrpm ltac:(lia)
                  ltac:(lra) ltac:(change (inject_Z 1) with 1; lra)) as H1.
    pose proof (scaled_limit_bounds _ 1 (multiplier * 0.5) Hconc ltac:(lia)
                  ltac:(lra) ltac:(change (inject_Z 1) with 1; lra)) as H2.
    repeat split; try lia.
  - pose proof (scaled_limit_bounds _ 2 multiplier Hrpm ltac:(lia)
                  ltac:(lra) ltac:(change (inject_Z 2) with 2; lra)) as H1.
    pose proof (scaled_limit_bounds _ 2 multiplier Hconc ltac:(lia)
                  ltac:(lra) ltac:(change (inject_Z 2) with 2; lra)) as H2.
    repeat split; try lia; discriminate.
Qed.

Lemma intelligent_limits_bounds_witness :
  exists limits,
    fst (calculate_dynamic_limits (mk_engine None None default_config) "starter"
           "expensive" "campus" "/api/admin/backup" calm_sample calm_sample 1000)
    = Ok limits /\
    (fst (_should_apply_circuit_breaker (mk_engine None None default_config)
            "/api/admin/backup" calm_sample 1000) = true ->
     limits = mk_dynamic 0 0 0) /\
    (fst (_should_apply_circuit_breaker (mk_engine None None default_config)
            "/api/admin/backup" calm_sample 1000) = false ->
       (1 <= dyn_requests_per_minute limits
        <= 2 * RateLimiting.endpoint_limit RateLimiting.starter "expensive")%Z /\
       (1 <= dyn_concurrent_requests limits
        <= 2 * RateLimiting.concurrent_requests RateLimiting.starter)%Z /\
       (1 <= dyn_burst_capacity limits)%Z /\
       (_is_endpoint_blacklisted (mk_engine None None default_config)
          "/api/admin/backup" = true ->
          (dyn_requests_per_minute limits
           <= RateLimiting.endpoint_limit RateLimiting.starter "expensive")%Z /\
          (dyn_concurrent_requests limits
           <= RateLimiting.concurrent_requests RateLimiting.starter)%Z)).
Proof.
  apply (intelligent_limits_bounds (mk_engine None None default_config)
           "starter" "expensive" "campus" "/api/admin/backup" RateLimiting.starter
           calm_sample calm_sample 1000); reflexivity.
Defined.

End DynamicLimits.

(** ** The circuit breaker over time *)

Section BreakerTimeline.
Import Py Throttling.
Local Open Scope Q_scope.

(** The breaker of [endpoint] was opened at [t0] and its key runs out at
    [t0 + 2 * duration]; [half] tells whether it has gone half-open since. *)
Definition opened_at (self : engine) (endpoint : string) (t0 : Q) (half : bool) : Prop :=
  exists c h,
    redis_client self = Some c /\ Redis.alive c = true /\
    Redis.data c !! circuit_key endpoint
    = Some (Redis.mk_entry (Redis.RHash h)
              (Some (t0 + inject_Z (circuit_breaker_duration (config self) * 2)))) /\
    if half then is_text (h !! "state") "open" = false /\
                 is_text (h !! "state") "half_open" = true
    else is_text (h !! "state") "open" = true /\
         h !! "open_time" = Some (Redis.SFloat t0).

Lemma is_text_some (v : option Redis.scalar) (s : string) :
  is_text v s = true -> v = Some (Redis.SText s).
Proof.
  destruct v as [[| |t|]|]; cbn; try discriminate.
  intros H. apply String.eqb_eq in H. now subst.
Qed.

Lemma trip_opens (self : engine) (endpoint : string) (sample : option psutil_sample)
  (t0 : Q) :
  (0 < circuit_breaker_duration (config self))%Z ->
  circuit_state self endpoint t0 = closed ->
  fst (_should_apply_circuit_breaker self endpoint sample t0) = true ->
  opened_at (snd (_should_apply_circuit_breaker self endpoint sample t0)) endpoint t0 false.
Proof.
  intros Hdur Hcl. unfold _should_apply_circuit_breaker, circuit_state in *.
  destruct (redis_client self) as [c|] eqn:Hc; [|discriminate].
  destruct (Redis.alive c) eqn:Ha; cbn [negb]; [|discriminate].
  destruct (Redis.hgetall (Redis.data c) (circuit_key endpoint) t0) as [h|] eqn:Hh;
    [|discriminate].
  assert (Hopen :
    let r :=
      let '(metrics, self1) := get_system_metrics self sample t0 in
      if Qltb (circuit_breaker_threshold (config self)) (error_rate metrics) then
        match Redis.hset (Redis.data c) (circuit_key endpoint)
                [("state", Redis.SText "open");
                 ("open_time", Redis.SFloat t0);
                 ("error_rate", Redis.SFloat (error_rate metrics))] t0 with
        | (Raise _, d1) => (false, with_redis self1 d1)
        | (Ok _, d1) =>
            let d2 := Redis.expire d1 (circuit_key endpoint)
                        (inject_Z (circuit_breaker_duration (config self) * 2)) t0 in
            (true, with_redis self1 d2)
        end
      else (false, self1) in
    fst r = true -> opened_at (snd r) endpoint t0 false).
  { cbv zeta.
    pose proof (get_system_metrics_keeps self sample t0) as Hk.
    assert (Hcf : config (snd (get_system_metrics self sample t0)) = config self).
    { unfold get_system_metrics. destruct sample; reflexivity. }
    destruct (get_system_metrics self sample t0) as [metrics self1]. cbn [snd] in Hk, Hcf.
    destruct (Qltb _ _); [|discriminate].
    destruct (hset_after_hgetall _ _ _
                [("state", Redis.SText "open"); ("open_time", Redis.SFloat t0);
                 ("error_rate", Redis.SFloat (error_rate metrics))] _ Hh)
      as (x & L & ->).
    intros _. cbn [fst snd].
    rewrite expire_after_insert by exact L.
    unfold opened_at, with_redis. cbn [redis_client config]. rewrite Hk, Hc, Hcf.
    cbn [option_map Redis.alive Redis.data].
    eexists _, _. split; [reflexivity|]. split; [exact Ha|].
    split; [apply lookup_insert_eq|].
    split.
    - rewrite breaker_of_set_state; [reflexivity|]. repeat constructor; discriminate.
    - unfold Redis.set_fields. cbn [fold_left fst snd].
      rewrite lookup_insert_ne by discriminate. apply lookup_insert_eq. }
  cbv zeta in Hopen.
  destruct (bool_decide (h = ∅)); [exact Hopen|].
  unfold breaker_of in Hcl.
  destruct (is_text (h !! "state") "open"); [discriminate|].
  destruct (is_text (h !! "state") "half_open"); [discriminate|].
  exact Hopen.
Qed.

Lemma opened_step (self : engine) (endpoint : string) (sample : option psutil_sample)
  (t0 t : Q) (half : bool) :
  opened_at self endpoint t0 half ->
  t < t0 + inject_Z (circuit_breaker_duration (config self) * 2) ->
  let late := Qltb (inject_Z (circuit_breaker_duration (config self))) (t - t0) in
  let r := _should_apply_circuit_breaker self endpoint sample t in
  fst r = negb half && negb late /\
  opened_at (snd r) endpoint t0 (half || late).
Proof.
  intros (c & h & Hc & Ha & Hd & Hst) Hlive. cbv zeta.
  unfold _should_apply_circuit_breaker. rewrite Hc, Ha. cbn [negb].
  assert (Hp : Redis.peek (Redis.data c) (circuit_key endpoint) t
               = Some (Redis.mk_entry (Redis.RHash h)
                         (Some (t0 + inject_Z (circuit_breaker_duration (config self) * 2))))).
  { apply (peek_of_lookup _ _ _ _ _ Hd eq_refl Hlive). }
  assert (Hh : Redis.hgetall (Redis.data c) (circuit_key endpoint) t = Ok h).
  { unfold Redis.hgetall. now rewrite Hp. }
  rewrite Hh.
  assert (Hne : bool_decide (h = ∅) = false).
  { apply bool_decide_eq_false. intros ->.
    destruct half; destruct Hst as [H1 H2]; cbn in *; discriminate. }
  rewrite Hne.
  destruct half.
  - destruct Hst as [H1 H2]. rewrite H1, H2. cbn [fst snd negb andb orb].
    split; [reflexivity|].
    exists c, h. repeat split; assumption.
  - destruct Hst as [Ho Ht]. rewrite Ho, Ht.
    change (default (Redis.SInt 0%Z) (Some (Redis.SFloat t0))) with (Redis.SFloat t0).
    cbn [Redis.float_of negb andb orb].
    destruct (Qltb (inject_Z (circuit_breaker_duration (config self))) (t - t0)) eqn:El.
    + unfold Redis.hset. rewrite Hp. cbn [Redis.value Redis.expiry fst snd negb].
      split; [reflexivity|].
      unfold opened_at, with_redis. cbn [redis_client config]. rewrite Hc.
      cbn [option_map Redis.alive Redis.data].
      eexists _, _. split; [reflexivity|]. split; [exact Ha|].
      split; [apply lookup_insert_eq|].
      unfold Redis.set_fields. cbn [fold_left fst snd].
      rewrite lookup_insert_eq. split; reflexivity.
    + cbn [fst snd negb]. split; [reflexivity|].
      exists c, h. repeat split; assumption.
Qed.

Lemma opened_run (endpoint : string) (sample : option psutil_sample) (t0 : Q)
  (times : list Q) :
  forall (self : engine) (half : bool),
  opened_at self endpoint t0 half ->
  StronglySorted Qle times ->
  Forall (fun t => t < t0 + inject_Z (circuit_breaker_duration (config self) * 2)) times ->
  (half = true ->
   Forall (fun t => Qltb (inject_Z (circuit_breaker_duration (config self))) (t - t0) = true)
          times) ->
  let r := circuit_breaker_at self endpoint sample times in
  fst r = map (fun t => negb (Qltb (inject_Z (circuit_breaker_duration (config self)))
                                  (t - t0))) times /\
  config (snd r) = config self /\
  exists half', opened_at (snd r) endpoint t0 half'.
Proof.
  induction times as [|t times IH]; intros self half Hop Hsort Hwin Hhalf; cbv zeta.
  - cbn. split; [reflexivity|]. split; [reflexivity|]. now exists half.
  - cbn [circuit_breaker_at map].
    pose proof (opened_step self endpoint sample t0 t half Hop (Forall_inv Hwin)) as Hstep.
    cbv zeta in Hstep.
    pose proof (should_apply_circuit_breaker_config self endpoint sample t) as Hcf.
    destruct (_should_apply_circuit_breaker self endpoint sample t) as [blocked self1].
    cbn [fst snd] in Hstep, Hcf. destruct Hstep as [Hb Hop1].
    apply StronglySorted_inv in Hsort. destruct Hsort as [Hsort Hle].
    specialize (IH self1 _ Hop1 Hsort).
    rewrite Hcf in IH. specialize (IH (Forall_inv_tail Hwin)).
    assert (Hrest : half || Qltb (inject_Z (circuit_breaker_duration (config self))) (t - t0)
                    = true ->
                    Forall (fun t' => Qltb (inject_Z (circuit_breaker_duration (config self)))
                                        (t' - t0) = true) times).
    { intros H. apply orb_true_iff in H. destruct H as [H|H].
      - exact (Forall_inv_tail (Hhalf H)).
      - revert Hle. apply List.Forall_impl. intros t' Htt'.
        apply Qltb_lt. apply Qltb_lt in H. lra. }
    specialize (IH Hrest). cbv zeta in IH.
    destruct (circuit_breaker_at self1 endpoint sample times) as [rest self2].
    cbn [fst snd] in *. destruct IH as (-> & Hc2 & Hex).
    split; [|split; [exact Hc2 | exact Hex]].
    f_equal. rewrite Hb. destruct half; [|reflexivity].
    cbn [negb andb]. now rewrite (Forall_inv (Hhalf eq_refl)).
Qed.

Lemma opened_expires (self : engine) (endpoint : string) (t0 t : Q) (half : bool) :
  opened_at self endpoint t0 half ->
  t0 + inject_Z (circuit_breaker_duration (config self) * 2) <= t ->
  circuit_state self endpoint t = closed.
Proof.
  intros (c & h & Hc & Ha & Hd & Hst) Hlate.
  unfold circuit_state. rewrite Hc. unfold Redis.hgetall, Redis.peek. rewrite Hd.
  unfold Redis.is_live. cbn [Redis.expiry].
  apply Qltb_ge in Hlate. rewrite Hlate. reflexivity.
Qed.

(** Once a call at [t0] has opened the breaker of an endpoint, later calls
    (in time order, before the key runs out at [t0 + 2 * duration]) are
    blocked exactly while no more than [duration] has passed since [t0]; every
    call after that is let through, whatever the error rate is by then.  When
    the key has run out the breaker is closed again: it closes by expiry.
    The clock reads at least [2 * duration] at [t0], as every reading of
    [time.time()] does for the cooldowns in use: then [t0 <= t <= 2 * t0] for
    the calls considered and the float subtraction [t - t0] of the code is
    exact. *)
Theorem open_breaker_timeline (self : engine) (endpoint : string)
  (sample sample' : option psutil_sample) (t0 : Q) (times : list Q) :
  let duration := inject_Z (circuit_breaker_duration (config self)) in
  (0 < circuit_breaker_duration (config self))%Z ->
  2 * duration <= t0 ->
  circuit_state self endpoint t0 = closed ->
  fst (_should_apply_circuit_breaker self endpoint sample t0) = true ->
  StronglySorted Qle times ->
  Forall (fun t => t0 <= t /\ t < t0 + 2 * duration) times ->
  let tripped := snd (_should_apply_circuit_breaker self endpoint sample t0) in
  let r := circuit_breaker_at tripped endpoint sample' times in
  fst r = map (fun t => negb (Qltb duration (t - t0))) times /\
  forall t, t0 + 2 * duration <= t -> circuit_state (snd r) endpoint t = closed.
Proof.
  intros duration Hdur _ Hcl Htrip Hsort Hwin tripped r.
  pose proof (trip_opens self endpoint sample t0 Hdur Hcl Htrip) as Hop.
  pose proof (should_apply_circuit_breaker_config self endpoint sample t0) as Hcf.
  fold tripped in Hop, Hcf.
  assert (Hx : inject_Z (circuit_breaker_duration (config self) * 2) == 2 * duration).
  { unfold duration. rewrite inject_Z_mult. change (inject_Z 2) with 2. ring. }
  destruct (opened_run endpoint sample' t0 times tripped false Hop Hsort) as (Hr & Hc2 & half' & Hop').
  - rewrite Hcf. revert Hwin. apply List.Forall_impl. intros t [_ Ht]. lra.
  - discriminate.
  - fold r in Hr, Hc2, Hop'. rewrite Hcf in Hr.
    split; [exact Hr|].
    intros t Ht. apply (opened_expires _ _ t0 t half' Hop').
    rewrite Hc2, Hcf. lra.
Qed.

Lemma open_breaker_timeline_witness :
  fst (circuit_breaker_at
         (snd (_should_apply_circuit_breaker storm_engine "/api/courses" calm_sample 1000))
         "/api/courses" calm_sample [1030; 1060; 1061; 1100])
  = map (fun t => negb (Qltb (inject_Z (circuit_breaker_duration (config storm_engine)))
                          (t - 1000))) [1030; 1060; 1061; 1100] /\
  forall t, 1000 + 2 * inject_Z (circuit_breaker_duration (config storm_engine)) <= t ->
    circuit_state
      (snd (circuit_breaker_at
              (snd (_should_apply_circuit_breaker storm_engine "/api/courses" calm_sample 1000))
              "/api/courses" calm_sample [1030; 1060; 1061; 1100]))
      "/api/courses" t = closed.
Proof.
  apply (open_breaker_timeline storm_engine "/api/courses" calm_sample calm_sample 1000
           [1030; 1060; 1061; 1100]).
  - reflexivity.
  - vm_compute. discriminate.
  - reflexivity.
  - vm_compute. reflexivity.
  - repeat constructor; vm_compute; discriminate.
  - repeat constructor; vm_compute; try reflexivity; discriminate.
Defined.

End BreakerTimeline.

(** ** Recorded metrics *)

Section Recording.
Import Py Throttling.
Local Open Scope Q_scope.

(** What the engine's Redis holds. *)
Definition stored (self : engine) : gmap string Redis.entry :=
  from_option Redis.data ∅ (redis_client self).

(** How many of the recorded requests ended in a status of 400 or more. *)
Definition failures (requests : list recorded) : nat :=
  length (List.filter (fun r => (400 <=? rec_status r)%Z) requests).

Lemma written_lookup (K : string -> Prop) (d d' : gmap string Redis.entry) (k : string) :
  written K d d' -> ~ K k -> d' !! k = d !! k.
Proof.
  intros W Hk. induction W as [|d' k' e W IH Hk']; [reflexivity|].
  rewrite lookup_insert_ne; [exact IH|]. intros ->. contradiction.
Qed.

Lemma peek_lookup (d : gmap string Redis.entry) (k : string) (e : Redis.entry) (now : Q) :
  Redis.peek d k now = Some e -> d !! k = Some e.
Proof.
  unfold Redis.peek. destruct (d !! k) as [e'|]; [|discriminate].
  destruct (Redis.is_live now e'); [|discriminate]. now intros [= <-].
Qed.

Lemma run_written (K : string -> Prop) (d : gmap string Redis.entry)
  (c : Redis.command) (now : Q) :
  K (Redis.command_key c) -> written K d (snd (Redis.run d c now)).
Proof.
  intros Hk. destruct c as [k v|k stop|k|k ttl|k f delta|k f delta];
    cbn [Redis.command_key] in Hk; cbn [Redis.run].
  - unfold Redis.lpush. destruct (Redis.peek d k now) as [e|]; cbn [snd].
    + destruct (Redis.value e); cbn [snd]; first [now apply written_one | constructor].
    + now apply written_one.
  - unfold Redis.ltrim0. destruct (Redis.peek d k now) as [e|]; cbn [snd].
    + destruct (Redis.value e); cbn [snd]; first [now apply written_one | constructor].
    + constructor.
  - pose proof (incr_written K d k now Hk) as H.
    destruct (Redis.incr d k now). exact H.
  - cbn [snd]. now apply expire_written.
  - pose proof (hincrby_written K d k f delta now Hk) as H.
    destruct (Redis.hincrby d k f delta now). exact H.
  - unfold Redis.hincrbyfloat. destruct (Redis.peek d k now) as [e|]; cbn [snd].
    + destruct (Redis.value e) as [|h|]; cbn [snd]; try constructor.
      destruct (h !! f) as [v|]; cbn [snd]; [|now apply written_one].
      destruct (Redis.float_of v); cbn [snd]; first [now apply written_one | constructor].
    + now apply written_one.
Qed.

Lemma execute_snd_cons (d : gmap string Redis.entry) (c : Redis.command)
  (pipe : list Redis.command) (now : Q) :
  snd (Redis.execute d (c :: pipe) now)
  = snd (Redis.execute (snd (Redis.run d c now)) pipe now).
Proof.
  cbn [Redis.execute]. destruct (Redis.run d c now) as [bad d1]. cbn [snd].
  destruct (Redis.execute d1 pipe now). reflexivity.
Qed.

Lemma execute_snd_app (d : gmap string Redis.entry) (p q : list Redis.command) (now : Q) :
  snd (Redis.execute d (p ++ q) now)
  = snd (Redis.execute (snd (Redis.execute d p now)) q now).
Proof.
  revert d. induction p as [|c p IH]; intros d; [reflexivity|].
  cbn [app]. now rewrite !execute_snd_cons, IH.
Qed.

Lemma execute_written (K : string -> Prop) (d : gmap string Redis.entry)
  (pipe : list Redis.command) (now : Q) :
  Forall (fun c => K (Redis.command_key c)) pipe ->
  written K d (snd (Redis.execute d pipe now)).
Proof.
  revert d. induction pipe as [|c pipe IH]; intros d Hall; [constructor|].
  rewrite execute_snd_cons.
  apply (written_trans _ _ (snd (Redis.run d c now))).
  - apply run_written. exact (Forall_inv Hall).
  - apply IH. exact (Forall_inv_tail Hall).
Qed.

(** The keys [record_request_metrics] writes under. *)
Definition recorded_key (k : string) : Prop :=
  k = "response_times" \/ k = "request_count" \/ k = "error_count" \/
  String.prefix "endpoint_metrics:" k = true \/
  String.prefix "tenant_behavior:" k = true.

Lemma behavior_pipeline_keys (tenant_id : string) (response_time : Q) (had_error : bool) :
  Forall (fun c => String.prefix "tenant_behavior:" (Redis.command_key c) = true)
         (behavior_pipeline tenant_id response_time had_error).
Proof.
  unfold behavior_pipeline. cbv zeta.
  destruct had_error; cbn [app];
    repeat (apply List.Forall_cons; [|]); try apply List.Forall_nil;
    cbn [Redis.command_key]; rewrite ?app_assoc_string; apply prefix_app.
Qed.

Lemma metrics_pipeline_keys (endpoint : string) (response_time : Q) (status_code : Z) :
  Forall (fun c => recorded_key (Redis.command_key c))
         (metrics_pipeline endpoint response_time status_code).
Proof.
  unfold metrics_pipeline. cbv zeta.
  destruct (400 <=? status_code)%Z; cbn [app];
    repeat (apply List.Forall_cons; [|]); try apply List.Forall_nil;
    cbn [Redis.command_key]; unfold recorded_key;
    first [ left; reflexivity | right; left; reflexivity
          | right; right; left; reflexivity
          | right; right; right; left; apply prefix_app ].
Qed.

Lemma with_redis_twice (self : engine) (d d' : gmap string Redis.entry) :
  with_redis (with_redis self d) d' = with_redis self d'.
Proof. unfold with_redis. cbn. destruct (redis_client self); reflexivity. Qed.

Lemma redis_client_with_redis (self : engine) (c : Redis.conn) (d : gmap string Redis.entry) :
  redis_client self = Some c ->
  redis_client (with_redis self d) = Some (Redis.mk_conn (Redis.alive c) d).
Proof. intros Hc. unfold with_redis. cbn. now rewrite Hc. Qed.

(** One recording, when Redis is up: the metrics pipeline, then writes under
    the tenant's keys only. *)
Lemma record_request_metrics_stored (self : engine) (c : Redis.conn)
  (tenant_id endpoint : string) (response_time : Q) (status_code : Z) (now : Q) :
  redis_client self = Some c -> Redis.alive c = true ->
  exists d',
    record_request_metrics self tenant_id endpoint response_time status_code now
    = with_redis self d' /\
    written (fun k => String.prefix "tenant_behavior:" k = true)
      (snd (Redis.execute (Redis.data c)
              (metrics_pipeline endpoint response_time status_code) now)) d'.
Proof.
  intros Hc Ha. unfold record_request_metrics. rewrite Hc, Ha. cbn [negb].
  destruct (Redis.execute (Redis.data c) _ now) as [[u|err] d1]; cbn [snd].
  - unfold _update_tenant_behavior.
    rewrite (redis_client_with_redis self c d1 Hc). cbn [Redis.alive Redis.data].
    rewrite Ha. cbn [negb].
    destruct (truthy tenant_id); cbn [negb].
    + eexists. split; [apply with_redis_twice|].
      apply execute_written. apply behavior_pipeline_keys.
    + exists d1. split; [reflexivity | constructor].
  - exists d1. split; [reflexivity | constructor].
Qed.

(** ** No tenant's behaviour hash is ever written *)

Definition no_hash (o : option Redis.entry) : Prop :=
  forall e h, o = Some e -> Redis.value e <> Redis.RHash h.

Definition hash_command (c : Redis.command) : bool :=
  match c with
  | Redis.HINCRBY _ _ _ | Redis.HINCRBYFLOAT _ _ _ => true
  | _ => false
  end.

Lemma no_hash_insert (d : gmap string Redis.entry) (k k' : string) (e : Redis.entry) :
  (k' = k -> forall h, Redis.value e <> Redis.RHash h) ->
  no_hash (d !! k) -> no_hash (<[k' := e]> d !! k).
Proof.
  intros He Hd. destruct (decide (k' = k)) as [->|Hne].
  - rewrite lookup_insert_eq. intros e0 h [= <-]. now apply He.
  - now rewrite lookup_insert_ne.
Qed.

Lemma run_no_hash (d : gmap string Redis.entry) (c : Redis.command) (now : Q) (k : string) :
  (hash_command c = true -> Redis.command_key c <> k) ->
  no_hash (d !! k) -> no_hash (snd (Redis.run d c now) !! k).
Proof.
  intros Hc Hd.
  destruct c as [k' v|k' stop|k'|k' ttl|k' f delta|k' f delta];
    cbn [hash_command Redis.command_key] in Hc; cbn [Redis.run].
  - unfold Redis.lpush. destruct (Redis.peek d k' now) as [e|]; cbn [snd].
    + destruct (Redis.value e); cbn [snd]; try exact Hd.
      apply no_hash_insert; [|exact Hd]. intros _ h. discriminate.
    + apply no_hash_insert; [|exact Hd]. intros _ h. discriminate.
  - unfold Redis.ltrim0. destruct (Redis.peek d k' now) as [e|]; cbn [snd]; [|exact Hd].
    destruct (Redis.value e); cbn [snd]; try exact Hd.
    apply no_hash_insert; [|exact Hd]. intros _ h. discriminate.
  - unfold Redis.incr. destruct (Redis.peek d k' now) as [e|]; cbn [snd].
    + destruct (Redis.value e) as [[z| | |]| |]; cbn [snd]; try exact Hd.
      apply no_hash_insert; [|exact Hd]. intros _ h. discriminate.
    + apply no_hash_insert; [|exact Hd]. intros _ h. discriminate.
  - cbn [snd]. unfold Redis.expire.
    destruct (Redis.peek d k' now) as [e|] eqn:Hp; [|exact Hd].
    apply no_hash_insert; [|exact Hd]. intros -> h. cbn [Redis.value].
    apply (Hd e h). exact (peek_lookup _ _ _ _ Hp).
  - specialize (Hc eq_refl).
    pose proof (hincrby_written (fun x => x = k') d k' f delta now eq_refl) as W.
    destruct (Redis.hincrby d k' f delta now) as [r d1]. cbn [snd] in *.
    rewrite (written_lookup _ _ _ k W); [exact Hd | congruence].
  - specialize (Hc eq_refl).
    pose proof (run_written (fun x => x = k') d (Redis.HINCRBYFLOAT k' f delta) now eq_refl)
      as W.
    cbn [Redis.run] in W.
    destruct (Redis.hincrbyfloat d k' f delta now) as [r d1]. cbn [snd] in *.
    rewrite (written_lookup _ _ _ k W); [exact Hd | congruence].
Qed.

Lemma execute_no_hash (d : gmap string Redis.entry) (pipe : list Redis.command)
  (now : Q) (k : string) :
  Forall (fun c => hash_command c = true -> Redis.command_key c <> k) pipe ->
  no_hash (d !! k) -> no_hash (snd (Redis.execute d pipe now) !! k).
Proof.
  revert d. induction pipe as [|c pipe IH]; intros d Hall Hd; [exact Hd|].
  rewrite execute_snd_cons. apply IH; [exact (Forall_inv_tail Hall)|].
  apply run_no_hash; [exact (Forall_inv Hall) | exact Hd].
Qed.

Lemma behavior_pipeline_no_hash (tenant_id : string) (response_time : Q) (had_error : bool)
  (k : string) :
  Forall (fun c => hash_command c = true -> Redis.command_key c <> k)
         (behavior_pipeline tenant_id response_time had_error).
Proof.
  unfold behavior_pipeline. cbv zeta.
  destruct had_error; cbn [app];
    repeat (apply List.Forall_cons; [|]); try apply List.Forall_nil;
    cbn [hash_command]; discriminate.
Qed.

Lemma metrics_pipeline_no_hash (endpoint : string) (response_time : Q) (status_code : Z)
  (tenant_id : string) :
  Forall (fun c => hash_command c = true
                   -> Redis.command_key c <> "tenant_behavior:" +:+ tenant_id)
         (metrics_pipeline endpoint response_time status_code).
Proof.
  unfold metrics_pipeline. cbv zeta.
  destruct (400 <=? status_code)%Z; cbn [app];
    repeat (apply List.Forall_cons; [|]); try apply List.Forall_nil;
    cbn [hash_command Redis.command_key]; try discriminate;
    intros _ H; rewrite !app_cons in H; discriminate H.
Qed.

Lemma record_request_metrics_no_hash (self : engine) (tenant_id endpoint : string)
  (response_time : Q) (status_code : Z) (now : Q) (tenant : string) :
  no_hash (stored self !! ("tenant_behavior:" +:+ tenant)) ->
  no_hash (stored (record_request_metrics self tenant_id endpoint response_time
                     status_code now) !! ("tenant_behavior:" +:+ tenant)).
Proof.
  intros Hd. unfold record_request_metrics.
  destruct (redis_client self) as [c|] eqn:Hc; [|exact Hd].
  destruct (Redis.alive c) eqn:Ha; cbn [negb]; [|exact Hd].
  assert (Hd0 : no_hash (Redis.data c !! ("tenant_behavior:" +:+ tenant))).
  { unfold stored in Hd. now rewrite Hc in Hd. }
  pose proof (execute_no_hash (Redis.data c)
                (metrics_pipeline endpoint response_time status_code) now _
                (metrics_pipeline_no_hash endpoint response_time status_code tenant) Hd0)
    as H1.
  destruct (Redis.execute (Redis.data c) _ now) as [[u|err] d1]; cbn [snd] in H1.
  - unfold _update_tenant_behavior.
    rewrite (redis_client_with_redis self c d1 Hc). cbn [Redis.alive Redis.data].
    rewrite Ha. cbn [negb].
    destruct (truthy tenant_id); cbn [negb].
    + rewrite with_redis_twice. unfold stored.
      rewrite (redis_client_with_redis self c _ Hc). cbn [from_option Redis.data].
      apply execute_no_hash; [apply behavior_pipeline_no_hash | exact H1].
    + unfold stored. rewrite (redis_client_with_redis self c _ Hc). exact H1.
  - unfold stored. rewrite (redis_client_with_redis self c _ Hc). exact H1.
Qed.

Lemma record_all_no_hash (requests : list recorded) (tenant : string) :
  forall self : engine,
  no_hash (stored self !! ("tenant_behavior:" +:+ tenant)) ->
  no_hash (stored (record_all self requests) !! ("tenant_behavior:" +:+ tenant)).
Proof.
  unfold record_all. induction requests as [|r requests IH]; intros self Hd; [exact Hd|].
  cbn [fold_left]. apply IH. now apply record_request_metrics_no_hash.
Qed.

(** Whatever is recorded, for whichever tenants and endpoints, no tenant's
    behaviour hash comes into being: recording writes the tenant's three
    side keys and only renews the expiry of the hash that
    [_get_tenant_behavior_multiplier] reads.  A tenant without such a hash
    keeps the neutral multiplier 1.0 at all times. *)
Theorem tenant_behavior_never_recorded (self : engine) (requests : list recorded)
  (tenant_id : string) (now : Q) :
  no_hash (stored self !! ("tenant_behavior:" +:+ tenant_id)) ->
  _get_tenant_behavior_multiplier (record_all self requests) tenant_id now = 1.0.
Proof.
  intros Hd. pose proof (record_all_no_hash requests tenant_id self Hd) as H.
  unfold _get_tenant_behavior_multiplier, stored in *.
  destruct (redis_client (record_all self requests)) as [c|]; [|reflexivity].
  cbn [from_option] in H.
  destruct (truthy tenant_id); cbn [negb]; [|reflexivity].
  destruct (Redis.alive c); cbn [negb]; [|reflexivity].
  unfold Redis.hgetall.
  destruct (Redis.peek (Redis.data c) ("tenant_behavior:" +:+ tenant_id) now) as [e|] eqn:Hp.
  - apply peek_lookup in Hp.
    destruct (Redis.value e) as [v|h|l] eqn:Hv; try reflexivity.
    exfalso. exact (H e h Hp Hv).
  - reflexivity.
Qed.

Lemma tenant_behavior_never_recorded_witness :
  _get_tenant_behavior_multiplier
    (record_all storm_engine
       [mk_recorded "campus" "/api/courses" 5000 500 1000;
        mk_recorded "campus" "/api/courses" 120 200 1001])
    "campus" 1002 = 1.0.
Proof.
  apply (tenant_behavior_never_recorded storm_engine
           [mk_recorded "campus" "/api/courses" 5000 500 1000;
            mk_recorded "campus" "/api/courses" 120 200 1001] "campus" 1002).
  intros e h H. vm_compute in H. discriminate H.
Defined.

End Recording.

(** ** The error rate that is read back *)

Section ErrorRate.
Import Py Throttling.
Local Open Scope Q_scope.

(** A counter that stands at [n] and, once set, lives to the end of the hour
    that began at [t0]. *)
Definition counter (o : option Redis.entry) (n : Z) (t0 : Q) : Prop :=
  (n = 0%Z /\ o = None) \/
  ((0 < n)%Z /\
   exists x, o = Some (Redis.mk_entry (Redis.RStr (Redis.SInt n)) (Some x)) /\
             t0 + 3600 <= x).

Lemma incr_expire_counter (d : gmap string Redis.entry) (k : string) (n : Z) (t0 now : Q) :
  counter (d !! k) n t0 -> (0 <= n)%Z -> t0 <= now -> now < t0 + 3600 ->
  counter (Redis.expire (snd (Redis.incr d k now)) k 3600 now !! k) (n + 1) t0.
Proof.
  intros [[-> Hd] | [Hn (x & Hd & Hx)]] Hn0 Hge Hlt.
  - unfold Redis.incr, Redis.peek. rewrite Hd. cbn [snd].
    rewrite expire_after_insert by reflexivity. rewrite lookup_insert_eq.
    right. split; [lia|]. eexists. split; [reflexivity|]. lra.
  - unfold Redis.incr. rewrite (peek_of_lookup _ _ _ x now Hd eq_refl) by lra.
    cbn [Redis.value Redis.expiry snd].
    rewrite expire_after_insert.
    + rewrite lookup_insert_eq. right. split; [lia|].
      eexists. split; [reflexivity|]. lra.
    + cbn. apply Qltb_lt. lra.
Qed.

Lemma execute_lookup_other (d : gmap string Redis.entry) (pipe : list Redis.command)
  (now : Q) (k : string) :
  Forall (fun c => Redis.command_key c <> k) pipe ->
  snd (Redis.execute d pipe now) !! k = d !! k.
Proof.
  intros H. apply (written_lookup (fun x => x <> k)).
  - apply execute_written. exact H.
  - intros N. now apply N.
Qed.

Lemma execute_incr_expire (d : gmap string Redis.entry) (k : string) (ttl now : Q) :
  snd (Redis.execute d [Redis.INCR k; Redis.EXPIRE k ttl] now)
  = Redis.expire (snd (Redis.incr d k now)) k ttl now.
Proof.
  rewrite !execute_snd_cons. cbn [Redis.execute Redis.run snd].
  destruct (Redis.incr d k now). reflexivity.
Qed.

(** The end of the metrics pipeline: the endpoint's own hash. *)
Definition endpoint_commands (endpoint : string) (response_time : Q) (status_code : Z)
  : list Redis.command :=
  [Redis.HINCRBY ("endpoint_metrics:" +:+ endpoint) "requests" 1;
   Redis.HINCRBYFLOAT ("endpoint_metrics:" +:+ endpoint) "total_response_time"
     response_time]
  ++ (if (400 <=? status_code)%Z
      then [Redis.HINCRBY ("endpoint_metrics:" +:+ endpoint) "errors" 1] else [])
  ++ [Redis.EXPIRE ("endpoint_metrics:" +:+ endpoint) 3600].

Lemma metrics_pipeline_split (endpoint : string) (response_time : Q) (status_code : Z) :
  metrics_pipeline endpoint response_time status_code
  = [Redis.LPUSH "response_times" (Redis.SFloat response_time);
     Redis.LTRIM0 "response_times" 999]
    ++ [Redis.INCR "request_count"; Redis.EXPIRE "request_count" 3600]
    ++ (if (400 <=? status_code)%Z
        then [Redis.INCR "error_count"; Redis.EXPIRE "error_count" 3600] else [])
    ++ endpoint_commands endpoint response_time status_code.
Proof. reflexivity. Qed.

Lemma endpoint_commands_keys (endpoint : string) (response_time : Q) (status_code : Z)
  (k : string) :
  String.prefix "endpoint_metrics:" k = false ->
  Forall (fun c => Redis.command_key c <> k)
         (endpoint_commands endpoint response_time status_code).
Proof.
  intros Hk. unfold endpoint_commands.
  destruct (400 <=? status_code)%Z; cbn [app];
    repeat (apply List.Forall_cons; [|]); try apply List.Forall_nil;
    cbn [Redis.command_key]; intros <-; rewrite prefix_app in Hk; discriminate Hk.
Qed.

Lemma metrics_pipeline_counts (d : gmap string Redis.entry) (endpoint : string)
  (response_time : Q) (status_code : Z) (now t0 : Q) (n e : Z) :
  counter (d !! "request_count") n t0 -> counter (d !! "error_count") e t0 ->
  (0 <= n)%Z -> (0 <= e)%Z -> t0 <= now -> now < t0 + 3600 ->
  let d' := snd (Redis.execute d (metrics_pipeline endpoint response_time status_code) now) in
  counter (d' !! "request_count") (n + 1) t0 /\
  counter (d' !! "error_count") (e + (if (400 <=? status_code)%Z then 1 else 0)) t0.
Proof.
  intros Hn He Hn0 He0 Hge Hlt. cbv zeta.
  rewrite metrics_pipeline_split, !execute_snd_app.
  set (d1 := snd (Redis.execute d _ now)).
  assert (H1 : forall k, k <> "response_times" -> d1 !! k = d !! k).
  { intros k Hk. apply execute_lookup_other.
    repeat (apply List.Forall_cons; [|]); try apply List.Forall_nil;
      cbn [Redis.command_key]; congruence. }
  rewrite execute_incr_expire.
  set (d2 := Redis.expire (snd (Redis.incr d1 "request_count" now)) "request_count" 3600 now).
  assert (Hn2 : counter (d2 !! "request_count") (n + 1) t0).
  { apply incr_expire_counter; try assumption. now rewrite H1 by discriminate. }
  assert (He2 : counter (d2 !! "error_count") e t0).
  { assert (E : d2 !! "error_count" = d1 !! "error_count").
    { pose proof (execute_lookup_other d1
                    [Redis.INCR "request_count"; Redis.EXPIRE "request_count" 3600]
                    now "error_count") as H.
      rewrite execute_incr_expire in H. apply H.
      repeat (apply List.Forall_cons; [|]); try apply List.Forall_nil;
        cbn [Redis.command_key]; discriminate. }
    rewrite E, H1 by discriminate. exact He. }
  assert (Htail : forall d3 k, String.prefix "endpoint_metrics:" k = false ->
            snd (Redis.execute d3 (endpoint_commands endpoint response_time status_code) now)
            !! k = d3 !! k).
  { intros d3 k Hk. apply execute_lookup_other. now apply endpoint_commands_keys. }
  rewrite !Htail by reflexivity.
  destruct (400 <=? status_code)%Z.
  - rewrite execute_incr_expire. split.
    + pose proof (execute_lookup_other d2
                    [Redis.INCR "error_count"; Redis.EXPIRE "error_count" 3600]
                    now "request_count") as H.
      rewrite execute_incr_expire in H. rewrite H; [exact Hn2|].
      repeat (apply List.Forall_cons; [|]); try apply List.Forall_nil;
        cbn [Redis.command_key]; discriminate.
    + apply incr_expire_counter; assumption.
  - cbn [Redis.execute snd]. rewrite Z.add_0_r. split; assumption.
Qed.

Lemma recorded_key_tenant (k : string) :
  ~ recorded_key k -> ~ String.prefix "tenant_behavior:" k = true.
Proof. intros H N. apply H. unfold recorded_key. tauto. Qed.

Lemma record_request_metrics_counts (self : engine) (c : Redis.conn) (r : recorded)
  (t0 : Q) (n e : Z) :
  redis_client self = Some c -> Redis.alive c = true ->
  counter (Redis.data c !! "request_count") n t0 ->
  counter (Redis.data c !! "error_count") e t0 ->
  (0 <= n)%Z -> (0 <= e)%Z -> t0 <= rec_time r -> rec_time r < t0 + 3600 ->
  exists d',
    record_request_metrics self (rec_tenant r) (rec_endpoint r) (rec_response_time r)
      (rec_status r) (rec_time r) = with_redis self d' /\
    counter (d' !! "request_count") (n + 1) t0 /\
    counter (d' !! "error_count") (e + (if (400 <=? rec_status r)%Z then 1 else 0)) t0 /\
    forall k, ~ recorded_key k -> d' !! k = Redis.data c !! k.
Proof.
  intros Hc Ha Hn He Hn0 He0 Hge Hlt.
  destruct (record_request_metrics_stored self c (rec_tenant r) (rec_endpoint r)
              (rec_response_time r) (rec_status r) (rec_time r) Hc Ha) as (d' & E & W).
  exists d'. split; [exact E|].
  pose proof (metrics_pipeline_counts (Redis.data c) (rec_endpoint r) (rec_response_time r)
                (rec_status r) (rec_time r) t0 n e Hn He Hn0 He0 Hge Hlt) as [H1 H2].
  cbv zeta in H1, H2.
  rewrite (written_lookup _ _ _ "request_count" W) by (cbn; discriminate).
  rewrite (written_lookup _ _ _ "error_count" W) by (cbn; discriminate).
  split; [exact H1|]. split; [exact H2|].
  intros k Hk. rewrite (written_lookup _ _ _ k W) by now apply recorded_key_tenant.
  apply (written_lookup recorded_key); [|exact Hk].
  apply execute_written. apply metrics_pipeline_keys.
Qed.

Lemma failures_cons (r : recorded) (requests : list recorded) :
  Z.of_nat (failures (r :: requests))
  = ((if (400 <=? rec_status r)%Z then 1 else 0) + Z.of_nat (failures requests))%Z.
Proof.
  unfold failures. cbn [List.filter]. destruct (400 <=? rec_status r)%Z; cbn [length]; lia.
Qed.

Lemma record_all_counts (t0 : Q) (requests : list recorded) :
  forall (self : engine) (c : Redis.conn) (n e : Z),
  redis_client self = Some c -> Redis.alive c = true ->
  counter (Redis.data c !! "request_count") n t0 ->
  counter (Redis.data c !! "error_count") e t0 ->
  (0 <= n)%Z -> (0 <= e)%Z ->
  Forall (fun r => t0 <= rec_time r /\ rec_time r < t0 + 3600) requests ->
  exists c',
    redis_client (record_all self requests) = Some c' /\ Redis.alive c' = true /\
    config (record_all self requests) = config self /\
    counter (Redis.data c' !! "request_count") (n + Z.of_nat (length requests)) t0 /\
    counter (Redis.data c' !! "error_count") (e + Z.of_nat (failures requests)) t0 /\
    forall k, ~ recorded_key k -> Redis.data c' !! k = Redis.data c !! k.
Proof.
  induction requests as [|r requests IH]; intros self c n e Hc Ha Hn He Hn0 He0 Hall.
  - exists c. cbn [record_all fold_left length]. unfold failures. cbn [List.filter length].
    rewrite !Z.add_0_r. repeat split; assumption.
  - destruct (Forall_inv Hall) as [Hge Hlt].
    destruct (record_request_metrics_counts self c r t0 n e Hc Ha Hn He Hn0 He0 Hge Hlt)
      as (d' & E & Hn1 & He1 & Hk1).
    unfold record_all. cbn [fold_left]. rewrite E. fold (record_all (with_redis self d') requests).
    destruct (IH (with_redis self d') (Redis.mk_conn (Redis.alive c) d') (n + 1)%Z
                (e + (if (400 <=? rec_status r)%Z then 1 else 0))%Z
                (redis_client_with_redis self c d' Hc) Ha Hn1 He1 ltac:(lia)
                ltac:(destruct (400 <=? rec_status r)%Z; lia) (Forall_inv_tail Hall))
      as (c' & Hc' & Ha' & Hcf & Hn' & He' & Hk').
    exists c'. split; [exact Hc'|]. split; [exact Ha'|]. split; [exact Hcf|].
    rewrite failures_cons.
    replace (n + Z.of_nat (length (r :: requests)))%Z
      with (n + 1 + Z.of_nat (length requests))%Z by (cbn [length]; lia).
    rewrite Z.add_assoc.
    split; [exact Hn'|]. split; [exact He'|].
    intros k Hk. rewrite (Hk' k Hk). cbn [Redis.data]. exact (Hk1 k Hk).
Qed.

Lemma error_rate_of_counters (self : engine) (c : Redis.conn) (n e : Z) (t0 now : Q) :
  redis_client self = Some c -> Redis.alive c = true ->
  counter (Redis.data c !! "request_count") n t0 ->
  counter (Redis.data c !! "error_count") e t0 ->
  (0 < n)%Z -> now < t0 + 3600 ->
  _get_error_rate self now = inject_Z e / inject_Z n.
Proof.
  intros Hc Ha Hn He Hpos Hlt. unfold _get_error_rate. rewrite Hc, Ha.
  assert (Hcnt : forall k m, counter (Redis.data c !! k) m t0 ->
            match Redis.get (Redis.data c) k now with
            | Ok v => (m = 0%Z /\ v = None) \/ ((0 < m)%Z /\ v = Some (Redis.SInt m))
            | Raise _ => False
            end).
  { intros k m [[-> Hd] | [Hm (x & Hd & Hx)]]; unfold Redis.get.
    - unfold Redis.peek. rewrite Hd. now left.
    - rewrite (peek_of_lookup _ _ _ x now Hd eq_refl) by lra.
      cbn [Redis.value]. right. now split. }
  pose proof (Hcnt _ _ He) as HE. pose proof (Hcnt _ _ Hn) as HN.
  destruct (Redis.get (Redis.data c) "error_count" now) as [ve|]; [|contradiction].
  destruct (Redis.get (Redis.data c) "request_count" now) as [vn|]; [|contradiction].
  destruct HN as [[-> _] | [_ ->]]; [lia|].
  cbn [int_or Redis.nonempty Redis.int_of].
  assert (Hz : (0 <? n)%Z = true) by now apply Z.ltb_lt.
  destruct HE as [[-> ->] | [_ ->]]; cbn [int_or Redis.nonempty Redis.int_of];
    now rewrite Hz.
Qed.

(** What was recorded is what is read back: from a Redis that holds neither
    counter, after any non-empty run of recordings made within one hour, the
    error rate read before that hour is over is the number of recorded
    statuses of 400 or more divided by the number of recordings, whatever
    else the pipelines met on their way. *)
Theorem error_rate_round_trip (self : engine) (c : Redis.conn)
  (requests : list recorded) (t0 now : Q) :
  redis_client self = Some c -> Redis.alive c = true ->
  Redis.data c !! "request_count" = None ->
  Redis.data c !! "error_count" = None ->
  requests <> [] ->
  Forall (fun r => t0 <= rec_time r /\ rec_time r < t0 + 3600) requests ->
  now < t0 + 3600 ->
  _get_error_rate (record_all self requests) now
  = inject_Z (Z.of_nat (failures requests)) / inject_Z (Z.of_nat (length requests)).
Proof.
  intros Hc Ha Hn He Hne Hall Hlt.
  destruct (record_all_counts t0 requests self c 0 0 Hc Ha) as (c' & Hc' & Ha' & _ & Hn' & He' & _);
    try (left; split; [reflexivity | assumption]); try lia; try exact Hall.
  rewrite !Z.add_0_l in *.
  apply (error_rate_of_counters _ c' _ _ t0); try assumption.
  destruct requests; [contradiction | cbn [length]; lia].
Qed.

Lemma error_rate_round_trip_witness :
  _get_error_rate
    (record_all (mk_engine (Some (Redis.mk_conn true ∅)) None default_config)
       [mk_recorded "campus" "/api/courses" 5000 500 1000;
        mk_recorded "campus" "/api/progress" 120 200 1001;
        mk_recorded "school" "/api/courses" 80 404 1002])
    2000
  = inject_Z (Z.of_nat (failures
       [mk_recorded "campus" "/api/courses" 5000 500 1000;
        mk_recorded "campus" "/api/progress" 120 200 1001;
        mk_recorded "school" "/api/courses" 80 404 1002]))
    / inject_Z (Z.of_nat (length
       [mk_recorded "campus" "/api/courses" 5000 500 1000;
        mk_recorded "campus" "/api/progress" 120 200 1001;
        mk_recorded "school" "/api/courses" 80 404 1002])).
Proof.
  apply (error_rate_round_trip
           (mk_engine (Some (Redis.mk_conn true ∅)) None default_config)
           (Redis.mk_conn true ∅) _ 1000 2000).
  - reflexivity.
  - reflexivity.
  - reflexivity.
  - reflexivity.
  - discriminate.
  - repeat (apply List.Forall_cons; [|]); try apply List.Forall_nil;
      cbn [rec_time]; split; vm_compute; first [reflexivity | discriminate].
  - vm_compute. reflexivity.
Defined.

End ErrorRate.

(** ** From recorded errors to blocked endpoints *)

Section ErrorsTripBreaker.
Import Py Throttling.
Local Open Scope Q_scope.

Lemma circuit_key_not_recorded (endpoint : string) : ~ recorded_key (circuit_key endpoint).
Proof.
  unfold recorded_key, circuit_key. intros [H|[H|[H|[H|H]]]];
    rewrite ?app_cons in H; try discriminate H; cbn in H; discriminate H.
Qed.

(** A breaker with nothing stored opens exactly when the error rate read from
    Redis exceeds the threshold. *)
Lemma fresh_breaker_trips (self : engine) (c : Redis.conn) (endpoint : string)
  (s : psutil_sample) (now : Q) :
  redis_client self = Some c -> Redis.alive c = true ->
  Redis.data c !! circuit_key endpoint = None ->
  fst (_should_apply_circuit_breaker self endpoint (Some s) now)
  = Qltb (circuit_breaker_threshold (config self)) (_get_error_rate self now).
Proof.
  intros Hc Ha Hd. unfold _should_apply_circuit_breaker. rewrite Hc, Ha. cbn [negb].
  unfold Redis.hgetall, Redis.hset, Redis.peek. rewrite Hd.
  rewrite bool_decide_eq_true_2 by reflexivity.
  cbn [get_system_metrics error_rate].
  destruct (Qltb (circuit_breaker_threshold (config self)) (_get_error_rate self now));
    reflexivity.
Qed.

(** Errors recorded anywhere block every endpoint: after a run of recordings
    made within one hour on a Redis that held neither counter, an endpoint
    that is not whitelisted and has no breaker state of its own gets the
    all-zero limits of an open breaker exactly when the share of recorded
    failures exceeds the configured threshold, whichever tenants and
    endpoints the failures were recorded for. *)
Theorem recorded_errors_trip_breaker (self : engine) (c : Redis.conn)
  (requests : list recorded) (t0 now : Q)
  (subscription_plan endpoint_category tenant_id endpoint : string)
  (base_config : RateLimiting.RateLimitConfig)
  (s : psutil_sample) (sample : option psutil_sample) :
  redis_client self = Some c -> Redis.alive c = true ->
  Redis.data c !! "request_count" = None ->
  Redis.data c !! "error_count" = None ->
  Redis.data c !! circuit_key endpoint = None ->
  requests <> [] ->
  Forall (fun r => t0 <= rec_time r /\ rec_time r < t0 + 3600) requests ->
  now < t0 + 3600 ->
  RateLimiting.assoc subscription_plan RateLimiting.SUBSCRIPTION_LIMITS = Some base_config ->
  _is_endpoint_whitelisted self endpoint = false ->
  fst (calculate_dynamic_limits (record_all self requests) subscription_plan
         endpoint_category tenant_id endpoint (Some s) sample now)
  = Ok (mk_dynamic 0 0 0)
  <-> circuit_breaker_threshold (config self)
      < inject_Z (Z.of_nat (failures requests)) / inject_Z (Z.of_nat (length requests)).
Proof.
  intros Hc Ha Hn He Hck Hne Hall Hlt Hplan Hw.
  destruct (record_all_counts t0 requests self c 0 0 Hc Ha)
    as (c' & Hc' & Ha' & Hcf & Hn' & He' & Hk');
    try (left; split; [reflexivity | assumption]); try lia; try exact Hall.
  rewrite !Z.add_0_l in *.
  assert (Hlen : (0 < Z.of_nat (length requests))%Z).
  { destruct requests; [contradiction | cbn [length]; lia]. }
  pose proof (error_rate_of_counters _ c' _ _ t0 now Hc' Ha' Hn' He' Hlen Hlt) as Hrate.
  assert (Hck' : Redis.data c' !! circuit_key endpoint = None).
  { rewrite Hk' by apply circuit_key_not_recorded. exact Hck. }
  pose proof (fresh_breaker_trips _ c' endpoint s now Hc' Ha' Hck') as Hb.
  rewrite Hcf, Hrate in Hb.
  unfold calculate_dynamic_limits.
  assert (Hw' : _is_endpoint_whitelisted (record_all self requests) endpoint = false).
  { unfold _is_endpoint_whitelisted. rewrite Hcf. exact Hw. }
  rewrite Hw', Hplan.
  destruct (_should_apply_circuit_breaker (record_all self requests) endpoint (Some s) now)
    as [blocked self1].
  cbn [fst] in Hb. subst blocked.
  destruct (Qltb_cases (circuit_breaker_threshold (config self))
              (inject_Z (Z.of_nat (failures requests))
               / inject_Z (Z.of_nat (length requests)))) as [[-> Hlt'] | [-> Hge]].
  - cbn [fst]. split; [intros _; exact Hlt' | reflexivity].
  - split; [|intros H; lra].
    intros H. exfalso.
    destruct (strategy (config self1));
      repeat match type of H with
      | context [let '(_, _) := ?p in _] => destruct p
      end;
      cbn [fst] in H; injection H; lia.
Qed.

Lemma recorded_errors_trip_breaker_witness :
  fst (calculate_dynamic_limits
         (record_all (mk_engine (Some (Redis.mk_conn true ∅)) None default_config)
            [mk_recorded "campus" "/api/courses" 5000 500 1000;
             mk_recorded "campus" "/api/progress" 120 200 1001;
             mk_recorded "school" "/api/courses" 80 404 1002])
         "starter" "standard" "college" "/api/users/profile"
         (Some (mk_sample 10 10 0 0 0 0)) None 2000)
  = Ok (mk_dynamic 0 0 0)
  <-> circuit_breaker_threshold
        (config (mk_engine (Some (Redis.mk_conn true ∅)) None default_config))
      < inject_Z (Z.of_nat (failures
          [mk_recorded "campus" "/api/courses" 5000 500 1000;
           mk_recorded "campus" "/api/progress" 120 200 1001;
           mk_recorded "school" "/api/courses" 80 404 1002]))
        / inject_Z (Z.of_nat (length
          [mk_recorded "campus" "/api/courses" 5000 500 1000;
           mk_recorded "campus" "/api/progress" 120 200 1001;
           mk_recorded "school" "/api/courses" 80 404 1002])).
Proof.
  apply (recorded_errors_trip_breaker
           (mk_engine (Some (Redis.mk_conn true ∅)) None default_config)
           (Redis.mk_conn true ∅) _ 1000 2000 "starter" "standard" "college"
           "/api/users/profile" RateLimiting.starter (mk_sample 10 10 0 0 0 0) None).
  - reflexivity.
  - reflexivity.
  - reflexivity.
  - reflexivity.
  - reflexivity.
  - discriminate.
  - repeat (apply List.Forall_cons; [|]); try apply List.Forall_nil;
      cbn [rec_time]; split; vm_compute; first [reflexivity | discriminate].
  - vm_compute. reflexivity.
  - reflexivity.
  - reflexivity.
Defined.

End ErrorsTripBreaker.
